(** * Sparkify ETL: a shallow embedding of [etl.py] and [sql_queries.py]

    The development follows the two source files:

    - [sql_queries.py] gives the five tables (their columns, primary keys
      and NOT NULL constraints), the four INSERT statements with their
      ON CONFLICT clauses, and the [song_select] join;
    - [etl.py] gives [process_song_file], [process_log_file],
      [process_data] and [main].

    Modelling conventions.

    - A table is the list of its rows in insertion order; the first row of
      a query result is the first row in that order.
    - The cursor is the database state seen inside the open transaction;
      the connection keeps the committed state next to it.
    - Python exceptions are the [Err] results of an error monad.  Nothing
      in [etl.py] catches an exception.
    - A pandas data frame is the list of its rows.  The input of the
      model is the frame that [pd.read_json] returns for a file, after
      its type inference: a field of type [string] is a cell that the
      frame holds as a [str], a field of type [Z] a cell that it holds as
      an integer.  How [pd.read_json] gets from the text of a file to
      the frame is pandas' and is not modelled.
    - A string is the sequence of its characters, none of them NUL.
    - [float] values that reach a [numeric] column are rationals ([Q]);
      SQL [=] on them is [Qeq_bool] (equality of values, no tolerance).
      [None] in a [decimal] column is the [NaN] that pandas has for a
      null.
    - A value sent to the database is coerced to the type of its column
      before the INSERT acts: an [int] column refuses an integer outside
      32 bits, a [char (n)] column refuses a string longer than [n]
      (trailing blanks apart) and pads a shorter one with blanks.  A
      query returns a [char (n)] value with its padding.
    - The [songplay_id SERIAL] surrogate key, which [etl.py] never reads,
      is the position of the row in the table.
    - [pd.to_datetime], [Timestamp.hour], [.day], [.week], [.month],
      [.year] and [.dayofweek] are library code; module [pd] models them
      on epoch milliseconds and relates them to the proleptic Gregorian
      calendar and to ISO 8601 week numbering. *)

From Stdlib Require Import ZArith QArith Ascii String List Lia.
From stdpp Require Import base decidable list strings pretty.

Close Scope Q_scope.
Local Open Scope string_scope.
Local Open Scope list_scope.
Local Open Scope Z_scope.

(** ** Exceptions *)

(** The three kinds of failure of the specification.  The argument says
    which Python exception the code raises. *)
Inductive error : Type :=
| NotFoundError (what : string)
| MalformedRecordError (what : string)
| DatabaseError (what : string).

Inductive result (A : Type) : Type :=
| Ok (a : A)
| Err (e : error).
Arguments Ok {A} a.
Arguments Err {A} e.

(** The error monad, with stdpp's [x ← m; k] notation. *)
#[global] Instance result_ret : MRet result := fun _ a => Ok a.
#[global] Instance result_bind : MBind result := fun _ _ k m =>
  match m with
  | Ok a => k a
  | Err e => Err e
  end.

(** [for x in l: s = f s x], where [f] may raise. *)
Fixpoint for_each {S A : Type} (f : S -> A -> result S) (s : S) (l : list A)
  : result S :=
  match l with
  | [] => Ok s
  | x :: l' => s' ← f s x; for_each f s' l'
  end.

(** A vectorised conversion of a column: the first failure aborts it. *)
Fixpoint traverse {A B : Type} (f : A -> result B) (l : list A)
  : result (list B) :=
  match l with
  | [] => Ok []
  | x :: l' => y ← f x; ys ← traverse f l'; Ok (y :: ys)
  end.

(** ** Rows of the five tables ([sql_queries.py], CREATE TABLE) *)

Module Song.
Record t : Type := mk {
  song_id : string;        (* char (18) PRIMARY KEY *)
  title : string;
  artist_id : string;
  year : Z;
  duration : Q             (* numeric *)
}.
End Song.

Module Artist.
Record t : Type := mk {
  artist_id : string;      (* char (18) PRIMARY KEY *)
  artist_name : string;
  artist_location : string;
  artist_latitude : option Q;   (* decimal; None is NaN *)
  artist_longitude : option Q   (* decimal; None is NaN *)
}.
End Artist.

Module User.
Record t : Type := mk {
  user_id : Z;             (* int PRIMARY KEY *)
  first_name : string;
  last_name : string;
  gender : string;
  level : string
}.

#[global] Instance eq_dec : EqDecision t.
Proof. solve_decision. Defined.
End User.

Module Time.
Record t : Type := mk {
  start_time : Z;          (* timestamp PRIMARY KEY, as epoch milliseconds *)
  hour : Z;
  day : Z;
  week : Z;
  month : Z;
  year : Z;
  weekday : Z
}.

#[global] Instance eq_dec : EqDecision t.
Proof. solve_decision. Defined.
End Time.

Module SongPlay.
(** The tuple [songplay_data] of [process_log_file].  [song_id] and
    [artist_id] are [None] for Python's [None] (SQL NULL). *)
Record t : Type := mk {
  start_time : Z;            (* timestamp NOT NULL *)
  user_id : Z;               (* int NOT NULL *)
  level : string;
  song_id : option string;   (* char (18) NOT NULL *)
  artist_id : option string; (* char (18) NOT NULL *)
  session_id : Z;
  location : string;
  user_agent : string
}.
End SongPlay.

(** ** The database *)

Record db : Type := mkdb {
  songs : list Song.t;
  artists : list Artist.t;
  users : list User.t;
  time : list Time.t;
  songplays : list SongPlay.t
}.

Definition empty_db : db := mkdb [] [] [] [] [].

(** ** Column types ([sql_queries.py], CREATE TABLE)

    The server coerces every value of an INSERT to the type of its
    column.  The values [etl.py] sends are Python integers, floats and
    strings; [varchar], [numeric], [decimal] and [timestamp] take all of
    them. *)

(** A column of type [int] (32 bits). *)
Definition int4 (n : Z) : result Z :=
  if (-2147483648 <=? n) && (n <=? 2147483647) then Ok n
  else Err (DatabaseError "NumericValueOutOfRange").

(** The string without its trailing blanks. *)
Fixpoint rstrip (s : string) : string :=
  match s with
  | EmptyString => EmptyString
  | String c s' =>
      match rstrip s' with
      | EmptyString =>
          if Ascii.eqb c " "%char then EmptyString else String c EmptyString
      | t => String c t
      end
  end.

Fixpoint blanks (n : nat) : string :=
  match n with
  | O => EmptyString
  | S n' => String " "%char (blanks n')
  end.

(** The value of a [char (n)] column for a string that fits: blanks fill
    it up to [n] characters. *)
Definition padded (n : nat) (s : string) : string :=
  rstrip s +:+ blanks (n - String.length (rstrip s)).

(** A column of type [char (n)]: a string that is too long is refused,
    unless what is too much is blank. *)
Definition bpchar (n : nat) (s : string) : result string :=
  if (String.length (rstrip s) <=? n)%nat then Ok (padded n s)
  else Err (DatabaseError "StringDataRightTruncation").

(** The rows that the tables [songs], [artists] and [users] take for the
    tuples of values that [etl.py] sends; the columns are coerced in
    their order. *)
Definition songs_row (v : Song.t) : result Song.t :=
  song_id ← bpchar 18 (Song.song_id v);
  artist_id ← bpchar 18 (Song.artist_id v);
  year ← int4 (Song.year v);
  Ok (Song.mk song_id (Song.title v) artist_id year (Song.duration v)).

Definition artists_row (v : Artist.t) : result Artist.t :=
  artist_id ← bpchar 18 (Artist.artist_id v);
  Ok (Artist.mk artist_id (Artist.artist_name v) (Artist.artist_location v)
                (Artist.artist_latitude v) (Artist.artist_longitude v)).

Definition users_row (v : User.t) : result User.t :=
  user_id ← int4 (User.user_id v);
  gender ← bpchar 1 (User.gender v);
  Ok (User.mk user_id (User.first_name v) (User.last_name v) gender
              (User.level v)).

(** ** The INSERT statements

    What each statement does to the tables, for a row of coerced values
    ([time] rows need no coercion: their integers are small). *)

(** [INSERT INTO songs ... ON CONFLICT (song_id) DO NOTHING] *)
Definition song_table_insert (d : db) (r : Song.t) : db :=
  if bool_decide (Song.song_id r ∈ map Song.song_id (songs d)) then d
  else mkdb (songs d ++ [r]) (artists d) (users d) (time d) (songplays d).

(** [INSERT INTO artists ... ON CONFLICT (artist_id) DO NOTHING] *)
Definition artist_table_insert (d : db) (r : Artist.t) : db :=
  if bool_decide (Artist.artist_id r ∈ map Artist.artist_id (artists d)) then d
  else mkdb (songs d) (artists d ++ [r]) (users d) (time d) (songplays d).

(** [INSERT INTO time ... ON CONFLICT (start_time) DO NOTHING] *)
Definition time_table_insert (d : db) (r : Time.t) : db :=
  if bool_decide (Time.start_time r ∈ map Time.start_time (time d)) then d
  else mkdb (songs d) (artists d) (users d) (time d ++ [r]) (songplays d).

(** [ON CONFLICT (user_id) DO UPDATE SET level = EXCLUDED.level]: the row
    that holds the key keeps every column but [level]. *)
Definition set_level (lv : string) (u : User.t) : User.t :=
  User.mk (User.user_id u) (User.first_name u) (User.last_name u)
          (User.gender u) lv.

Definition upsert_user (t : list User.t) (r : User.t) : list User.t :=
  if bool_decide (User.user_id r ∈ map User.user_id t)
  then map (fun u => if bool_decide (User.user_id u = User.user_id r)
                     then set_level (User.level r) u else u) t
  else t ++ [r].

Definition user_table_insert (d : db) (r : User.t) : db :=
  mkdb (songs d) (artists d) (upsert_user (users d) r) (time d) (songplays d).

(** [INSERT INTO songplays VALUES (..., DEFAULT)], on the tuple that
    [etl.py] sends.  [user_id] and [session_id] are [int] columns: a value
    outside 32 bits is refused when the row is formed.  The columns
    [song_id] and [artist_id] are declared NOT NULL ([start_time] and
    [user_id] too, but the tuple always has them): a NULL there is refused
    when the row is stored and psycopg2 raises [NotNullViolation].  The
    ids of the tuple come out of [song_select], so they are [char (18)]
    values already. *)
Definition songplay_table_insert (d : db) (r : SongPlay.t) : result db :=
  _ ← int4 (SongPlay.user_id r);
  _ ← int4 (SongPlay.session_id r);
  match SongPlay.song_id r, SongPlay.artist_id r with
  | Some _, Some _ =>
      Ok (mkdb (songs d) (artists d) (users d) (time d) (songplays d ++ [r]))
  | None, _ => Err (DatabaseError "NotNullViolation: songplays.song_id")
  | Some _, None => Err (DatabaseError "NotNullViolation: songplays.artist_id")
  end.

(** ** The lookup [song_select] *)

(** [songs s LEFT JOIN artists a ON s.artist_id = a.artist_id]: a song
    without an artist row is kept, with NULL for the columns of [a]. *)
Definition left_join (ss : list Song.t) (aa : list Artist.t)
  : list (Song.t * option Artist.t) :=
  flat_map (fun s =>
    match filter (fun a => Song.artist_id s = Artist.artist_id a) aa with
    | [] => [(s, None)]
    | m => map (fun a => (s, Some a)) m
    end) ss.

(** [WHERE s.title = %s AND a.artist_name = %s AND s.duration = %s];
    a comparison with NULL is not true. *)
Definition song_where (song artist : string) (length : Q)
    (p : Song.t * option Artist.t) : bool :=
  bool_decide (Song.title (fst p) = song)
  && match snd p with
     | Some a => bool_decide (Artist.artist_name a = artist)
     | None => false
     end
  && Qeq_bool (Song.duration (fst p)) length.

(** [SELECT s.song_id, s.artist_id] *)
Definition song_select (d : db) (song artist : string) (length : Q)
  : list (string * string) :=
  map (fun p => (Song.song_id (fst p), Song.artist_id (fst p)))
      (List.filter (song_where song artist length)
                   (left_join (songs d) (artists d))).

(** [cur.fetchone()] *)
Definition fetchone {A : Type} (rows : list A) : option A := head rows.

(** ** pandas timestamps

    [process_log_file] calls [pd.to_datetime] on the [ts] column and
    reads six attributes of the resulting [Timestamp]s.  They are code
    of pandas, not of the repository: this module models what they
    return, on epoch milliseconds.  The date comes from the day count by
    400-year eras; the day of the week, the day of the year and the week
    follow pandas' [tslibs/ccalendar.pyx].  The properties below prove
    the model against the calendar of module [calendar]. *)

Module pd.

(** A [Timestamp]: a naive instant, here at millisecond resolution. *)
Record Timestamp : Type := mkTimestamp { value : Z }.

(** [Timestamp.min] and [Timestamp.max] (a signed 64-bit count of
    nanoseconds), rounded inwards to whole milliseconds. *)
Definition min_ms : Z := -9223372036854.
Definition max_ms : Z := 9223372036854.

(** [pd.to_datetime(x, unit='ms')] on a signed 64-bit integer, which is
    what the [ts] column holds when every [ts] of the file is one:
    outside the representable range it raises [OutOfBoundsDatetime].
    (A column with a [ts] of 2^63 or more is unsigned, and pandas
    converts it otherwise.) *)
Definition to_datetime (ms : Z) : result Timestamp :=
  if (min_ms <=? ms) && (ms <=? max_ms) then Ok (mkTimestamp ms)
  else Err (MalformedRecordError "OutOfBoundsDatetime").

Definition ms_per_day : Z := 86400000.
Definition ms_per_hour : Z := 3600000.

(** Days since 1970-01-01 (floor division: instants before the epoch
    belong to the earlier day). *)
Definition days (t : Timestamp) : Z := value t / ms_per_day.

(** Days since the epoch to (year, month, day) in the proleptic
    Gregorian calendar, by 400-year eras counted from 0000-03-01. *)
Definition civil_from_days (z : Z) : Z * Z * Z :=
  let z := z + 719468 in
  let era := z / 146097 in
  let doe := z mod 146097 in
  let yoe := (doe - doe / 1460 + doe / 36524 - doe / 146096) / 365 in
  let y := yoe + era * 400 in
  let doy := doe - (365 * yoe + yoe / 4 - yoe / 100) in
  let mp := (5 * doy + 2) / 153 in
  let d := doy - (153 * mp + 2) / 5 + 1 in
  let m := if mp <? 10 then mp + 3 else mp - 9 in
  (if m <=? 2 then y + 1 else y, m, d).

Definition year (t : Timestamp) : Z := fst (fst (civil_from_days (days t))).
Definition month (t : Timestamp) : Z := snd (fst (civil_from_days (days t))).
Definition day (t : Timestamp) : Z := snd (civil_from_days (days t)).
Definition hour (t : Timestamp) : Z := (value t mod ms_per_day) / ms_per_hour.

Definition is_leapyear (y : Z) : bool :=
  ((y mod 4 =? 0) && negb (y mod 100 =? 0)) || (y mod 400 =? 0).

(** [ccalendar.dayofweek]: Sakamoto's method, then turned so that
    Monday is 0. *)
Definition sakamoto_arr : list Z := [0; 3; 2; 5; 0; 3; 5; 1; 4; 6; 2; 4].

Definition dayofweek_ymd (y m d : Z) : Z :=
  let y := if m <? 3 then y - 1 else y in
  let day := (y + y / 4 - y / 100 + y / 400
              + nth (Z.to_nat (m - 1)) sakamoto_arr 0 + d) mod 7 in
  (day + 6) mod 7.

Definition dayofweek (t : Timestamp) : Z :=
  dayofweek_ymd (year t) (month t) (day t).

(** [ccalendar.get_day_of_year] *)
Definition month_offset : list Z :=
  [0; 31; 59; 90; 120; 151; 181; 212; 243; 273; 304; 334; 365].

Definition get_day_of_year (y m d : Z) : Z :=
  let mo := nth (Z.to_nat (m - 1)) month_offset 0 in
  (if is_leapyear y && (2 <? m) then mo + 1 else mo) + d.

(** [ccalendar.get_week_of_year]: estimate the ISO week from the day of
    the year, then repair the first and the last days of the year. *)
Definition get_week_of_year (y m d : Z) : Z :=
  let doy := get_day_of_year y m d in
  let dow := dayofweek_ymd y m d in
  let est := (doy - 1) - dow + 3 in
  let iso_week := if 0 <=? est then est / 7 + 1 else est in
  if iso_week <? 0 then
    if (-2 <? iso_week) || ((iso_week =? -2) && is_leapyear (y - 1))
    then 53 else 52
  else if iso_week =? 53 then
    if 31 - d + dow <? 3 then 1 else 53
  else iso_week.

Definition week (t : Timestamp) : Z :=
  get_week_of_year (year t) (month t) (day t).

End pd.

(** ** The calendar, as Python's [datetime] defines it

    The reference against which the [pd] accessors are checked:
    proleptic Gregorian ordinals (day 1 is 0001-01-01, a Monday) and the
    ISO 8601 rule that a week belongs to the year of its Thursday. *)

Module calendar.

Definition is_leap (y : Z) : bool :=
  (y mod 4 =? 0) && (negb (y mod 100 =? 0) || (y mod 400 =? 0)).

Definition days_in_month (y m : Z) : Z :=
  if m =? 2 then (if is_leap y then 29 else 28)
  else if (m =? 4) || (m =? 6) || (m =? 9) || (m =? 11) then 30
  else 31.

Definition days_before_year (y : Z) : Z :=
  let y := y - 1 in y * 365 + y / 4 - y / 100 + y / 400.

(** The days of the months [1 .. m-1] of year [y]. *)
Definition days_before_month (y m : Z) : Z :=
  fold_right Z.add 0
    (map (fun k => days_in_month y (Z.of_nat k)) (seq 1 (Z.to_nat (m - 1)))).

Definition ymd2ord (y m d : Z) : Z :=
  days_before_year y + days_before_month y m + d.

Definition valid_date (y m d : Z) : Prop :=
  1 <= m <= 12 /\ 1 <= d <= days_in_month y m.

(** The ordinal of 1970-01-01. *)
Definition epoch_ord : Z := 719163.

(** [w] is the ISO 8601 week number of the day with ordinal [n]: the
    Thursday of the Monday-to-Sunday week of [n] is the day [dt] of
    some year [yt], and [w] counts the Thursdays of [yt] up to it. *)
Definition iso_week_of (n w : Z) : Prop :=
  exists yt mt dt,
    valid_date yt mt dt /\
    ymd2ord yt mt dt = n - (n + 6) mod 7 + 3 /\
    w = (ymd2ord yt mt dt - ymd2ord yt 1 1) / 7 + 1.

End calendar.

(** ** The input files *)

(** One row of the frame of a song file.  [None] for a coordinate is the
    [NaN] of a null. *)
Module SongRecord.
Record t : Type := mk {
  song_id : string;
  title : string;
  artist_id : string;
  year : Z;
  duration : Q;
  artist_name : string;
  artist_location : string;
  artist_latitude : option Q;
  artist_longitude : option Q
}.
End SongRecord.

(** One row of the frame of a log file (the fields that
    [process_log_file] reads).  [song], [artist] and [length] are only
    read on the rows that pass the [page == 'NextSong'] filter, where the
    service always sets them. *)
Module Event.
Record t : Type := mk {
  page : string;
  ts : Z;                  (* epoch milliseconds *)
  userId : Z;
  firstName : string;
  lastName : string;
  gender : string;
  level : string;
  song : string;
  artist : string;
  length : Q;
  sessionId : Z;
  location : string;
  userAgent : string
}.
End Event.

(** The frame that [pd.read_json(filepath, lines=True)] returns for a
    file: one row per line, the cells as pandas has typed them. *)
Inductive content : Type :=
| SongFile (records : list SongRecord.t)
| LogFile (events : list Event.t).

(** A directory tree.  A directory lists its entries in the order in
    which the operating system returns them. *)
Inductive node : Type :=
| File (c : content)
| Dir (entries : list entry)
with entry : Type :=
| Entry (name : string) (n : node).

Definition entry_name (e : entry) : string :=
  match e with Entry name _ => name end.

Definition entry_node (e : entry) : node :=
  match e with Entry _ n => n end.

(** A path is the list of its segments, each the name of an entry: not
    empty, not [.] or [..], and without a [/]. *)
Definition path : Type := list string.

Fixpoint resolve (n : node) (p : path) : option node :=
  match p with
  | [] => Some n
  | s :: p' =>
      match n with
      | File _ => None
      | Dir es =>
          match List.find (fun e => bool_decide (entry_name e = s)) es with
          | Some e => resolve (entry_node e) p'
          | None => None
          end
      end
  end.

(** The path as the string Python sees: ["/seg1/seg2/..."]. *)
Fixpoint render (p : path) : string :=
  match p with
  | [] => ""
  | s :: p' => "/" +:+ s +:+ render p'
  end.

(** [needle in hay] on Python strings. *)
Fixpoint is_substring (needle hay : string) : bool :=
  String.prefix needle hay
  || match hay with
     | EmptyString => false
     | String _ hay' => is_substring needle hay'
     end.

(** [s.endswith(suffix)] *)
Definition ends_with (suffix s : string) : bool :=
  let n := String.length s in
  let k := String.length suffix in
  (k <=? n)%nat && bool_decide (substring (n - k) k s = suffix).

(** [glob]'s pattern ['*.json'] on one name: the name ends in [.json],
    and a name that starts with a dot is hidden from ['*']. *)
Definition fnmatch_json (name : string) : bool :=
  ends_with ".json" name && negb (String.prefix "." name).

(** [pd.read_json(filepath, lines=True)].  A path that is no regular
    file cannot be read. *)
Definition read_json (fs : node) (filepath : path) : result content :=
  match resolve fs filepath with
  | Some (File c) => Ok c
  | _ => Err (MalformedRecordError "read_json")
  end.

(** ** [process_song_file] *)

Definition song_data (r : SongRecord.t) : Song.t :=
  Song.mk (SongRecord.song_id r) (SongRecord.title r) (SongRecord.artist_id r)
          (SongRecord.year r) (SongRecord.duration r).

Definition artist_data (r : SongRecord.t) : Artist.t :=
  Artist.mk (SongRecord.artist_id r) (SongRecord.artist_name r)
            (SongRecord.artist_location r) (SongRecord.artist_latitude r)
            (SongRecord.artist_longitude r).

(** [df[[...]].values.tolist()[0]] keeps the first row of the frame.  A
    frame without the song columns (an empty file, a log file) raises
    [KeyError].  Each [cur.execute] coerces its tuple and then inserts
    the row. *)
Definition process_song_file (fs : node) (cur : db) (filepath : path)
  : result db :=
  c ← read_json fs filepath;
  match c with
  | SongFile (r :: _) =>
      row ← songs_row (song_data r);
      let cur := song_table_insert cur row in
      row ← artists_row (artist_data r);
      Ok (artist_table_insert cur row)
  | _ => Err (MalformedRecordError "KeyError")
  end.

(** ** [process_log_file] *)

(** [DataFrame.drop_duplicates()]: the first occurrence of every row is
    kept, in the order of the frame. *)
Fixpoint drop_duplicates_from {A : Type} `{EqDecision A} (seen l : list A)
  : list A :=
  match l with
  | [] => []
  | x :: l' =>
      if bool_decide (x ∈ seen) then drop_duplicates_from seen l'
      else x :: drop_duplicates_from (x :: seen) l'
  end.

Definition drop_duplicates {A : Type} `{EqDecision A} (l : list A) : list A :=
  drop_duplicates_from [] l.

(** A row of the frame after the [ts] column has been converted and the
    six time columns have been added. *)
Definition time_row (t : pd.Timestamp) : Time.t :=
  Time.mk (pd.value t) (pd.hour t) (pd.day t) (pd.week t) (pd.month t)
          (pd.year t) (pd.dayofweek t).

Definition user_row (e : Event.t) : User.t :=
  User.mk (Event.userId e) (Event.firstName e) (Event.lastName e)
          (Event.gender e) (Event.level e).

(** The tuple [songplay_data] built in the last loop for the row [e]
    whose converted [ts] is [t], with the cursor at [cur]. *)
Definition songplay_data (cur : db) (e : Event.t) (t : pd.Timestamp)
  : SongPlay.t :=
  let results :=
    fetchone (song_select cur (Event.song e) (Event.artist e) (Event.length e)) in
  let '(songid, artistid) :=
    match results with
    | Some (s, a) => (Some s, Some a)
    | None => (None, None)
    end in
  SongPlay.mk (pd.value t) (Event.userId e) (Event.level e) songid artistid
              (Event.sessionId e) (Event.location e) (Event.userAgent e).

Definition insert_songplay (cur : db) (row : Event.t * pd.Timestamp)
  : result db :=
  songplay_table_insert cur (songplay_data cur (fst row) (snd row)).

(** [cur.execute(user_table_insert, row)] for a row of [user_df]. *)
Definition insert_user (cur : db) (row : User.t) : result db :=
  row ← users_row row;
  Ok (user_table_insert cur row).

(** The rows that pass [df.query("page == 'NextSong'")]. *)
Definition next_song (events : list Event.t) : list Event.t :=
  filter (fun e => Event.page e = "NextSong") events.

(** [time_df]: the seven time columns of the frame, without repeated
    rows. *)
Definition time_df (tss : list pd.Timestamp) : list Time.t :=
  drop_duplicates (map time_row tss).

(** [user_df]: the five user columns, renamed, without repeated rows. *)
Definition user_df (df : list Event.t) : list User.t :=
  drop_duplicates (map user_row df).

(** An empty file gives a frame without columns, on which the query
    raises. *)
Definition process_log_file (fs : node) (cur : db) (filepath : path)
  : result db :=
  c ← read_json fs filepath;
  match c with
  | LogFile (e0 :: es) =>
      let df := next_song (e0 :: es) in
      tss ← traverse (fun e => pd.to_datetime (Event.ts e)) df;
      let cur := fold_left time_table_insert (time_df tss) cur in
      cur ← for_each insert_user cur (user_df df);
      for_each insert_songplay cur (zip df tss)
  | _ => Err (MalformedRecordError "UndefinedVariableError")
  end.

(** ** [process_data] *)

(** [os.walk(top)] over the tree below [top]: one item per directory,
    top-down, with the path of the directory and its listing (from which
    [dirs] and [files] are read).  [os.walk] swallows the error of
    listing something that is not a directory and yields nothing for
    it. *)
Fixpoint os_walk (top : path) (n : node) : list (path * list entry) :=
  match n with
  | File _ => []
  | Dir es =>
      (top, es)
      :: flat_map (fun e =>
           match e with
           | Entry name child => os_walk (top ++ [name]) child
           end) es
  end.

(** [glob.has_magic]: the string has one of the characters that [glob]
    reads as a pattern. *)
Definition has_magic (s : string) : bool :=
  is_substring "*" s || is_substring "?" s || is_substring "[" s.

(** [glob.glob(os.path.join(root, '*.json'))] on the listing of [root],
    for a [root] that [glob] reads as a plain path: no segment of it
    satisfies [has_magic].  ([glob] expands a pattern in the directory
    part too, and then lists the directories that the pattern matches
    instead of [root]; the statements about the files that are found
    assume plain roots.) *)
Definition glob_json (root : path) (es : list entry) : list path :=
  map (fun name => root ++ [name])
      (List.filter fnmatch_json (map entry_name es)).

(** The files that [process_data] collects for [filepath], a path
    relative to the working directory [cwd]; [os.path.abspath] puts
    [cwd] in front. *)
Definition all_files (fs : node) (cwd filepath : path) : list path :=
  let walked :=
    match resolve fs (cwd ++ filepath) with
    | Some n => os_walk filepath n
    | None => []
    end in
  let found :=
    flat_map (fun w => map (fun f => cwd ++ f) (glob_json (fst w) (snd w)))
             walked in
  List.filter
    (fun file => negb (is_substring ".ipynb_checkpoints" (render file)))
    found.

(** The connection: what has been committed, and what the cursor sees
    inside the open transaction. *)
Record connection : Type := mkconn {
  committed : db;
  cursor : db
}.

Definition connect (d : db) : connection := mkconn d d.

(** What can be observed of a run, in the order in which it happens. *)
Inductive event : Type :=
| Print (line : string)
| Commit (d : db).

Record run : Type := mkrun {
  conn : connection;
  trace : list event;
  raised : option error
}.

Definition files_found (num_files : nat) (filepath : path) : string :=
  pretty num_files +:+ " files found in " +:+ String.concat "/" filepath.

Definition files_processed (i num_files : nat) : string :=
  pretty i +:+ "/" +:+ pretty num_files +:+ " files processed.".

(** The loop [for i, datafile in enumerate(all_files, 1)].  An exception
    of [func] leaves the loop and the program: the open transaction is
    never committed. *)
Fixpoint process_files (func : db -> path -> result db) (num_files : nat)
    (i : nat) (files : list path) (c : connection) : run :=
  match files with
  | [] => mkrun c [] None
  | datafile :: files' =>
      match func (cursor c) datafile with
      | Err e => mkrun (mkconn (committed c) (committed c)) [] (Some e)
      | Ok cur =>
          let r := process_files func num_files (S i) files' (mkconn cur cur) in
          mkrun (conn r)
                (Commit cur :: Print (files_processed i num_files) :: trace r)
                (raised r)
      end
  end.

Definition process_data (fs : node) (cwd : path) (c : connection)
    (filepath : path) (func : node -> db -> path -> result db) : run :=
  let files := all_files fs cwd filepath in
  let num_files := length files in
  let r := process_files (func fs) num_files 1 files c in
  mkrun (conn r) (Print (files_found num_files filepath) :: trace r) (raised r).

(** [main]: the song files, then the log files, on one connection. *)
Definition main (fs : node) (cwd : path) (d : db) : run :=
  let r1 := process_data fs cwd (connect d) ["data"; "song_data"]
                         process_song_file in
  match raised r1 with
  | Some _ => r1
  | None =>
      let r2 := process_data fs cwd (conn r1) ["data"; "log_data"]
                             process_log_file in
      mkrun (conn r2) (trace r1 ++ trace r2) (raised r2)
  end.

(** ** Sample inputs *)

Module sample.

(** The song file of the specification's scenario. *)
Definition song1 : SongRecord.t :=
  SongRecord.mk "SOID1" "T" "ARID1" 2000 (1234 # 10)%Q "A" "L"
                (Some (1 # 1)%Q) (Some (2 # 1)%Q).

Definition song2 : SongRecord.t :=
  SongRecord.mk "SOID2" "U" "ARID2" 0 (2105 # 10)%Q "B" "" None None.

(** A play of [song1] by user 7, on 2018-11-01 21:01:46.796. *)
Definition play1 : Event.t :=
  Event.mk "NextSong" 1541106106796 7 "Ann" "Lee" "F" "free" "T" "A"
           (1234 # 10)%Q 139 "Oslo" "Mozilla".

(** A later play by the same user, now paying, of a song that is in no
    song file. *)
Definition play2 : Event.t :=
  Event.mk "NextSong" 1541106352796 7 "Ann" "Lee" "F" "paid" "X" "Y"
           (2105 # 10)%Q 139 "Oslo" "Mozilla".

Definition home : Event.t :=
  Event.mk "Home" 1541106200000 7 "Ann" "Lee" "F" "free" "" ""
           (0 # 1)%Q 139 "Oslo" "Mozilla".

Definition cwd : path := ["home"; "sparkify"].

(** A tree with the given entries in [data/song_data] and
    [data/log_data]. *)
Definition tree (song_data log_data : list entry) : node :=
  Dir [Entry "home" (Dir [Entry "sparkify" (Dir [Entry "data" (Dir
    [Entry "song_data" (Dir song_data);
     Entry "log_data" (Dir log_data)])])])].

Definition song_dir : list entry :=
  [Entry "A" (Dir [Entry "a.json" (File (SongFile [song1; song2]))]);
   Entry "b.json" (File (SongFile [song2]))].

Definition fs_songs : node := tree song_dir [].

(** One log file whose plays all resolve. *)
Definition fs_resolved : node :=
  tree song_dir [Entry "l.json" (File (LogFile [home; play1; play1]))].

(** One log file with a play that resolves and one that does not. *)
Definition fs_unresolved : node :=
  tree song_dir [Entry "l.json" (File (LogFile [play1; home; play2]))].

(** A good song file, then an empty one, then another good one. *)
Definition fs_broken : node :=
  tree [Entry "a.json" (File (SongFile [song1]));
        Entry "b.json" (File (SongFile []));
        Entry "c.json" (File (SongFile [song2]))] [].

(** No [data] directory at all. *)
Definition fs_nodata : node :=
  Dir [Entry "home" (Dir [Entry "sparkify" (Dir [])])].

(** A [data/song_data] directory without any [*.json] entry. *)
Definition fs_nojson : node :=
  tree [Entry "README.md" (File (SongFile []));
        Entry "A" (Dir [Entry "notes.txt" (File (SongFile []))])] [].

(** A song file that only exists as a notebook checkpoint. *)
Definition fs_checkpoint : node :=
  tree [Entry ".ipynb_checkpoints"
              (Dir [Entry "a-checkpoint.json" (File (SongFile [song1]))])] [].

Definition song_path : path := ["data"; "song_data"].
Definition log_path : path := ["data"; "log_data"].

End sample.

(** ** Notions used in the statements *)

(** The database after the song files of the sample tree. *)
Definition sample_songs_loaded : db :=
  committed (conn (process_data sample.fs_unresolved sample.cwd
                     (connect empty_db) sample.song_path process_song_file)).

(** The effect of the upsert of [r] on a row of the table. *)
Definition relevel (r : User.t) (u : User.t) : User.t :=
  if bool_decide (User.user_id u = User.user_id r)
  then set_level (User.level r) u else u.

(** A Song row and an Artist row of the database that [song_select]
    accepts for the event: joined on [artist_id], with the title, the
    artist name and the duration of the event. *)
Definition matching_pair (cur : db) (e : Event.t) (s : Song.t) (a : Artist.t)
  : Prop :=
  s ∈ songs cur /\ a ∈ artists cur
  /\ Song.artist_id s = Artist.artist_id a
  /\ Song.title s = Event.song e
  /\ Artist.artist_name a = Event.artist e
  /\ (Song.duration s == Event.length e)%Q.

(** No entry of the tree, at any depth, has a name that ['*.json']
    matches. *)
Fixpoint no_json (n : node) : bool :=
  match n with
  | File _ => true
  | Dir es =>
      forallb (fun e =>
                 match e with
                 | Entry name child => negb (fnmatch_json name) && no_json child
                 end) es
  end.

(** Every segment of the path is the name of an entry, and none is a
    [glob] pattern. *)
Definition plain_path (p : path) : bool :=
  forallb (fun s => negb (has_magic s) && negb (is_substring "/" s)
                    && negb (bool_decide (s ∈ [""; "."; ".."]))) p.

(** No directory of the tree, at any depth, has a name that is a [glob]
    pattern. *)
Fixpoint plain_dirs (n : node) : bool :=
  match n with
  | File _ => true
  | Dir es =>
      forallb (fun e =>
                 match e with
                 | Entry name child =>
                     match child with
                     | File _ => true
                     | Dir _ => negb (has_magic name) && plain_dirs child
                     end
                 end) es
  end.

(** What the loop prints and commits for the files that got through,
    given the database after each of them: one commit, then one progress
    line, per file. *)
Definition file_steps (num_files i : nat) (ds : list db) : list event :=
  concat (imap (fun k dk =>
                  [Commit dk; Print (files_processed (i + k) num_files)]) ds).

(** The lines that a run printed, in order. *)
Definition printed (t : list event) : list string :=
  flat_map (fun ev =>
              match ev with
              | Print line => [line]
              | Commit _ => []
              end) t.

(** Every primary key of [d] is a primary key of [D]. *)
Definition keys_in (d D : db) : Prop :=
  (forall k, k ∈ map Song.song_id (songs d) -> k ∈ map Song.song_id (songs D))
  /\ (forall k, k ∈ map Artist.artist_id (artists d) ->
        k ∈ map Artist.artist_id (artists D)).

(** The two inserts of [process_song_file] for the record [r]. *)
Definition load_song (d : db) (r : SongRecord.t) : db :=
  artist_table_insert (song_table_insert d (song_data r)) (artist_data r).

(** Leap days up to and including year [y]. *)
Definition leaps (y : Z) : Z := y / 4 - y / 100 + y / 400.

(** The days of a common year before each month. *)
Definition month_table : list Z :=
  [0; 31; 59; 90; 120; 151; 181; 212; 243; 273; 304; 334].

(** The time table after [INSERT INTO time ... ON CONFLICT DO NOTHING]. *)
Definition time_insert (t : list Time.t) (r : Time.t) : list Time.t :=
  if bool_decide (Time.start_time r ∈ map Time.start_time t) then t
  else t ++ [r].

(** The primary keys of the four dimension tables are keys. *)
Definition keys_unique (d : db) : Prop :=
  NoDup (map Song.song_id (songs d))
  /\ NoDup (map Artist.artist_id (artists d))
  /\ NoDup (map User.user_id (users d))
  /\ NoDup (map Time.start_time (time d)).

(** Every row of songplays refers to rows that are there: a song of the
    songs table with the artist row it is joined with, a user of the
    users table and an instant of the time table. *)
Definition songplay_refs (d : db) : Prop :=
  forall p, p ∈ songplays d ->
    (exists s a, s ∈ songs d /\ a ∈ artists d
       /\ Song.artist_id s = Artist.artist_id a
       /\ SongPlay.song_id p = Some (Song.song_id s)
       /\ SongPlay.artist_id p = Some (Song.artist_id s))
    /\ SongPlay.user_id p ∈ map User.user_id (users d)
    /\ SongPlay.start_time p ∈ map Time.start_time (time d).

(** The row [u'] is the row [u] up to its level. *)
Definition same_person (u u' : User.t) : Prop :=
  User.user_id u' = User.user_id u
  /\ User.first_name u' = User.first_name u
  /\ User.last_name u' = User.last_name u
  /\ User.gender u' = User.gender u.

(** Every row of [t] is still in [T], at its place, up to its level. *)
Definition users_kept (t T : list User.t) : Prop :=
  forall i u, t !! i = Some u -> exists u', T !! i = Some u' /\ same_person u u'.

(** A log file leaves songs and artists alone and only adds to the
    history. *)
Definition log_frame (d D : db) : Prop :=
  songs D = songs d /\ artists D = artists d
  /\ time d `prefix_of` time D
  /\ songplays d `prefix_of` songplays D
  /\ users_kept (users d) (users D).


(** The timestamp of an event whose [ts] is in range. *)
Definition event_time (e : Event.t) : pd.Timestamp :=
  pd.mkTimestamp (Event.ts e).

(** The level that the user rows [rows], applied in order, leave in the
    row [u] of the users table. *)
Definition final_level (rows : list User.t) (u : User.t) : User.t :=
  match last (filter (fun r => User.user_id r = User.user_id u) rows) with
  | Some r => set_level (User.level r) u
  | None => u
  end.



(** A play of [song1] by user 7 as a paying user, and a log file in
    which the user is free, then paying, then free again. *)
Definition play1_paid : Event.t :=
  Event.mk "NextSong" 1541106352796 7 "Ann" "Lee" "F" "paid" "T" "A"
           (1234 # 10)%Q 139 "Oslo" "Mozilla".

Definition fs_levels : node :=
  sample.tree sample.song_dir
    [Entry "l.json" (File (LogFile [sample.play1; play1_paid; sample.play1]))].

(** The database after a whole run on that tree. *)
Definition levels_loaded : db :=
  committed (conn (main fs_levels sample.cwd empty_db)).

(** The database after a run on the sample tree whose log file has two
    plays of user 7 as a free user. *)
Definition free_loaded : db :=
  committed (conn (main sample.fs_resolved sample.cwd empty_db)).

(** A log file in which user 7 is free, then paying, and the database
    that it leaves when the user is known as free. *)
Definition fs_upgrade : node :=
  sample.tree sample.song_dir
    [Entry "l.json" (File (LogFile [sample.play1; play1_paid]))].

Definition upgrade_loaded : db :=
  committed (conn (process_data fs_upgrade sample.cwd (connect free_loaded)
                     sample.log_path process_log_file)).


(** A song file that names the artist of [song1] with another name. *)
Definition song3_featuring : SongRecord.t :=
  SongRecord.mk "SOID3" "V" "ARID1" 2001 (1805 # 10)%Q "A feat. B" "L"
                (Some (1 # 1)%Q) (Some (2 # 1)%Q).

Definition fs_featuring : node :=
  sample.tree [Entry "c.json" (File (SongFile [song3_featuring]))] [].

Definition play3 : Event.t :=
  Event.mk "NextSong" 1541106400000 7 "Ann" "Lee" "F" "free" "V" "A feat. B"
           (1805 # 10)%Q 139 "Oslo" "Mozilla".

(** What a log file, or a run over log files, does to a database [d]
    to give [D]: it applies the user rows [urows] and the time rows
    [trows] and appends the songplays rows [plays]. *)
Definition log_effect (d D : db) (urows : list User.t) (trows : list Time.t)
    (plays : list SongPlay.t) : Prop :=
  songs D = songs d /\ artists D = artists d
  /\ users D = fold_left upsert_user urows (users d)
  /\ time D = fold_left time_insert trows (time d)
  /\ songplays D = songplays d ++ plays.

(** A string that a [char (n)] column takes, and an integer that an
    [int] column takes. *)
Definition fits (n : nat) (s : string) : Prop :=
  (String.length (rstrip s) <= n)%nat.

Definition int_range (n : Z) : Prop := -2147483648 <= n <= 2147483647.

(** The record with its ids as the [char (18)] columns hold them. *)
Definition stored (r : SongRecord.t) : SongRecord.t :=
  SongRecord.mk (padded 18 (SongRecord.song_id r)) (SongRecord.title r)
                (padded 18 (SongRecord.artist_id r)) (SongRecord.year r)
                (SongRecord.duration r) (SongRecord.artist_name r)
                (SongRecord.artist_location r) (SongRecord.artist_latitude r)
                (SongRecord.artist_longitude r).


(** An event whose values the columns of [users] and [songplays] take:
    [userId] and [sessionId] fit [int], [gender] fits [char (1)]. *)
Definition typed (e : Event.t) : Prop :=
  int_range (Event.userId e) /\ fits 1 (Event.gender e)
  /\ int_range (Event.sessionId e).

(** The user row as the table holds it. *)
Definition stored_user (u : User.t) : User.t :=
  User.mk (User.user_id u) (User.first_name u) (User.last_name u)
          (padded 1 (User.gender u)) (User.level u).

(** * Properties *)

(** ** Column types *)

Lemma int4_Ok (n m : Z) : int4 n = Ok m -> m = n /\ int_range n.
Proof.
  unfold int4, int_range.
  destruct (-2147483648 <=? n) eqn:Hlo; [|discriminate].
  destruct (n <=? 2147483647) eqn:Hhi; [|discriminate].
  apply Z.leb_le in Hlo, Hhi. cbn [andb]. intros H. inversion H.
  split; [reflexivity | lia].
Qed.

Lemma int4_in_range (n : Z) : int_range n -> int4 n = Ok n.
Proof.
  unfold int4, int_range. intros [Hlo Hhi].
  apply Z.leb_le in Hlo, Hhi. rewrite Hlo, Hhi. reflexivity.
Qed.

Lemma int4_out_of_range (n : Z) :
  ~ int_range n -> int4 n = Err (DatabaseError "NumericValueOutOfRange").
Proof.
  unfold int4, int_range. intros Hout.
  destruct (-2147483648 <=? n) eqn:Hlo; [|reflexivity].
  destruct (n <=? 2147483647) eqn:Hhi; [|reflexivity].
  apply Z.leb_le in Hlo, Hhi. tauto.
Qed.

Lemma bpchar_Ok (n : nat) (s t : string) :
  bpchar n s = Ok t -> t = padded n s /\ fits n s.
Proof.
  unfold bpchar, fits.
  destruct (String.length (rstrip s) <=? n)%nat eqn:H; [|discriminate].
  apply Nat.leb_le in H. intros Heq. inversion Heq. auto.
Qed.

Lemma bpchar_fits (n : nat) (s : string) :
  fits n s -> bpchar n s = Ok (padded n s).
Proof.
  unfold bpchar, fits. intros H. apply Nat.leb_le in H. rewrite H.
  reflexivity.
Qed.

Lemma bpchar_too_long (n : nat) (s : string) :
  ~ fits n s -> bpchar n s = Err (DatabaseError "StringDataRightTruncation").
Proof.
  unfold bpchar, fits. intros H.
  destruct (String.length (rstrip s) <=? n)%nat eqn:E; [|reflexivity].
  apply Nat.leb_le in E. contradiction.
Qed.

Lemma songs_row_Ok (v s : Song.t) :
  songs_row v = Ok s ->
  s = Song.mk (padded 18 (Song.song_id v)) (Song.title v)
              (padded 18 (Song.artist_id v)) (Song.year v) (Song.duration v)
  /\ fits 18 (Song.song_id v) /\ fits 18 (Song.artist_id v)
  /\ int_range (Song.year v).
Proof.
  unfold songs_row.
  destruct (bpchar 18 (Song.song_id v)) as [sid|] eqn:E1; [|discriminate].
  destruct (bpchar 18 (Song.artist_id v)) as [aid|] eqn:E2; [|discriminate].
  destruct (int4 (Song.year v)) as [y|] eqn:E3; [|discriminate].
  cbn [mbind result_bind]. intros H. inversion H.
  apply bpchar_Ok in E1, E2. apply int4_Ok in E3.
  destruct E1 as [-> F1], E2 as [-> F2], E3 as [-> F3]. auto.
Qed.

Lemma songs_row_fits (v : Song.t) :
  fits 18 (Song.song_id v) -> fits 18 (Song.artist_id v) ->
  int_range (Song.year v) ->
  songs_row v
  = Ok (Song.mk (padded 18 (Song.song_id v)) (Song.title v)
                (padded 18 (Song.artist_id v)) (Song.year v)
                (Song.duration v)).
Proof.
  intros F1 F2 F3. unfold songs_row.
  rewrite (bpchar_fits _ _ F1), (bpchar_fits _ _ F2), (int4_in_range _ F3).
  reflexivity.
Qed.

Lemma artists_row_Ok (v a : Artist.t) :
  artists_row v = Ok a ->
  a = Artist.mk (padded 18 (Artist.artist_id v)) (Artist.artist_name v)
                (Artist.artist_location v) (Artist.artist_latitude v)
                (Artist.artist_longitude v)
  /\ fits 18 (Artist.artist_id v).
Proof.
  unfold artists_row.
  destruct (bpchar 18 (Artist.artist_id v)) as [aid|] eqn:E1; [|discriminate].
  cbn [mbind result_bind]. intros H. inversion H.
  apply bpchar_Ok in E1. destruct E1 as [-> F1]. auto.
Qed.

Lemma artists_row_fits (v : Artist.t) :
  fits 18 (Artist.artist_id v) ->
  artists_row v
  = Ok (Artist.mk (padded 18 (Artist.artist_id v)) (Artist.artist_name v)
                  (Artist.artist_location v) (Artist.artist_latitude v)
                  (Artist.artist_longitude v)).
Proof.
  intros F1. unfold artists_row. rewrite (bpchar_fits _ _ F1). reflexivity.
Qed.

Lemma users_row_Ok (v u : User.t) :
  users_row v = Ok u ->
  u = stored_user v /\ int_range (User.user_id v) /\ fits 1 (User.gender v).
Proof.
  unfold users_row.
  destruct (int4 (User.user_id v)) as [uid|] eqn:E1; [|discriminate].
  destruct (bpchar 1 (User.gender v)) as [g|] eqn:E2; [|discriminate].
  cbn [mbind result_bind]. intros H. inversion H.
  apply int4_Ok in E1. apply bpchar_Ok in E2.
  destruct E1 as [-> F1], E2 as [-> F2]. auto.
Qed.

Lemma users_row_fits (v : User.t) :
  int_range (User.user_id v) -> fits 1 (User.gender v) ->
  users_row v = Ok (stored_user v).
Proof.
  intros F1 F2. unfold users_row.
  rewrite (int4_in_range _ F1), (bpchar_fits _ _ F2). reflexivity.
Qed.

(** The two [cur.execute] of [process_song_file] on the first row [r]
    of the frame. *)
Lemma process_song_file_first (fs : node) (cur : db) (filepath : path)
    (r : SongRecord.t) (rest : list SongRecord.t) :
  read_json fs filepath = Ok (SongFile (r :: rest)) ->
  fits 18 (SongRecord.song_id r) -> fits 18 (SongRecord.artist_id r) ->
  int_range (SongRecord.year r) ->
  process_song_file fs cur filepath
  = Ok (artist_table_insert (song_table_insert cur (song_data (stored r)))
                            (artist_data (stored r))).
Proof.
  intros Hread F1 F2 F3. unfold process_song_file. rewrite Hread.
  cbn [mbind result_bind].
  rewrite (songs_row_fits (song_data r) F1 F2 F3).
  cbn [mbind result_bind].
  rewrite (artists_row_fits (artist_data r) F2). reflexivity.
Qed.

(** ** The song files *)

(** The two INSERTs with ON CONFLICT DO NOTHING leave the database as it
    is when the key is there. *)
Lemma song_table_insert_conflict (d : db) (r : Song.t) :
  Song.song_id r ∈ map Song.song_id (songs d) -> song_table_insert d r = d.
Proof.
  intros Hin. unfold song_table_insert.
  rewrite bool_decide_eq_true_2 by exact Hin. reflexivity.
Qed.

Lemma artist_table_insert_conflict (d : db) (r : Artist.t) :
  Artist.artist_id r ∈ map Artist.artist_id (artists d) ->
  artist_table_insert d r = d.
Proof.
  intros Hin. unfold artist_table_insert.
  rewrite bool_decide_eq_true_2 by exact Hin. reflexivity.
Qed.

Lemma song_table_insert_songs (d : db) (r : Song.t) :
  songs (song_table_insert d r) = songs d
  \/ songs (song_table_insert d r) = songs d ++ [r].
Proof. unfold song_table_insert. case_bool_decide; simpl; auto. Qed.

Lemma artist_table_insert_artists (d : db) (r : Artist.t) :
  artists (artist_table_insert d r) = artists d
  \/ artists (artist_table_insert d r) = artists d ++ [r].
Proof. unfold artist_table_insert. case_bool_decide; simpl; auto. Qed.



(** A first row that a column refuses: the year 2^31, a [song_id] of 19
    characters.  The file raises and stores nothing. *)
Example process_song_file_refused :
  forall (fs : node) (cur : db) (filepath : path) (rest : list SongRecord.t),
    (read_json fs filepath
     = Ok (SongFile (SongRecord.mk "SOID1" "T" "ARID1" 2147483648
                       (1234 # 10)%Q "A" "L" None None :: rest)) ->
     process_song_file fs cur filepath
     = Err (DatabaseError "NumericValueOutOfRange"))
    /\ (read_json fs filepath
        = Ok (SongFile (SongRecord.mk "SOID123456789012345" "T" "ARID1" 2000
                          (1234 # 10)%Q "A" "L" None None :: rest)) ->
        process_song_file fs cur filepath
        = Err (DatabaseError "StringDataRightTruncation")).
Proof.
  intros fs cur filepath rest.
  split; intros H; unfold process_song_file; rewrite H; reflexivity.
Qed.

(** ** A play without a matching song *)

(** The tuple built for a play whose lookup finds nothing has NULL ids,
    and the NOT NULL columns of [songplays] refuse it (when its integers
    fit their columns, which are looked at first). *)
Lemma insert_songplay_no_match (cur : db) (e : Event.t) (t : pd.Timestamp) :
  song_select cur (Event.song e) (Event.artist e) (Event.length e) = [] ->
  SongPlay.song_id (songplay_data cur e t) = None
  /\ SongPlay.artist_id (songplay_data cur e t) = None
  /\ (int_range (Event.userId e) -> int_range (Event.sessionId e) ->
      insert_songplay cur (e, t)
      = Err (DatabaseError "NotNullViolation: songplays.song_id")).
Proof.
  intros Hsel. unfold insert_songplay, songplay_table_insert, songplay_data.
  simpl. rewrite Hsel. simpl. split; [reflexivity|]. split; [reflexivity|].
  intros Hu Hs. rewrite (int4_in_range _ Hu), (int4_in_range _ Hs).
  reflexivity.
Qed.

(** C2 (the code at the failing input): with both song files loaded, the
    play [play2] matches no Song/Artist pair; its tuple carries NULL for
    [song_id] and [artist_id], and inserting it raises the NOT NULL
    violation of [songplays.song_id]. *)
Theorem songplay_insert_null_ids_rejected :
  song_select sample_songs_loaded (Event.song sample.play2)
    (Event.artist sample.play2) (Event.length sample.play2) = []
  /\ SongPlay.song_id
       (songplay_data sample_songs_loaded sample.play2
          (pd.mkTimestamp (Event.ts sample.play2))) = None
  /\ SongPlay.artist_id
       (songplay_data sample_songs_loaded sample.play2
          (pd.mkTimestamp (Event.ts sample.play2))) = None
  /\ insert_songplay sample_songs_loaded
       (sample.play2, pd.mkTimestamp (Event.ts sample.play2))
     = Err (DatabaseError "NotNullViolation: songplays.song_id").
Proof. vm_compute. repeat split; reflexivity. Qed.

(** C6 (the code at the failing input): the log file of the sample tree
    holds two NextSong events, the second without a matching song.
    Processing it raises the NOT NULL violation, the file's transaction is
    never committed, and the run ends with no SongPlay row at all. *)
Theorem log_file_with_unresolved_play_aborts :
  read_json sample.fs_unresolved
    (sample.cwd ++ sample.log_path ++ ["l.json"])
  = Ok (LogFile [sample.play1; sample.home; sample.play2])
  /\ length (next_song [sample.play1; sample.home; sample.play2]) = 2%nat
  /\ process_log_file sample.fs_unresolved sample_songs_loaded
       (sample.cwd ++ sample.log_path ++ ["l.json"])
     = Err (DatabaseError "NotNullViolation: songplays.song_id")
  /\ raised (main sample.fs_unresolved sample.cwd empty_db)
     = Some (DatabaseError "NotNullViolation: songplays.song_id")
  /\ songplays (committed (conn (main sample.fs_unresolved sample.cwd empty_db)))
     = [].
Proof. vm_compute. repeat split; reflexivity. Qed.

(** ** The users table *)

Lemma upsert_user_unfold (t : list User.t) (r : User.t) :
  upsert_user t r
  = if bool_decide (User.user_id r ∈ map User.user_id t)
    then map (relevel r) t else t ++ [r].
Proof. reflexivity. Qed.

Lemma relevel_user_id (r u : User.t) :
  User.user_id (relevel r u) = User.user_id u.
Proof. unfold relevel. case_bool_decide; reflexivity. Qed.

Lemma map_relevel_user_id (r : User.t) (t : list User.t) :
  map User.user_id (map (relevel r) t) = map User.user_id t.
Proof.
  induction t as [|u t IH]; simpl; [reflexivity|].
  rewrite relevel_user_id, IH. reflexivity.
Qed.

(** The primary key stays a key. *)
Lemma upsert_user_NoDup (t : list User.t) (r : User.t) :
  NoDup (map User.user_id t) -> NoDup (map User.user_id (upsert_user t r)).
Proof.
  intros Hnd. rewrite upsert_user_unfold. case_bool_decide as Hin.
  - rewrite map_relevel_user_id. exact Hnd.
  - rewrite map_app. simpl. apply NoDup_app. repeat split; auto.
    + intros k Hk Hk'. apply list_elem_of_singleton in Hk'. subst k. auto.
    + apply NoDup_singleton.
Qed.

Lemma fold_upsert_user_NoDup (rows t : list User.t) :
  NoDup (map User.user_id t) ->
  NoDup (map User.user_id (fold_left upsert_user rows t)).
Proof.
  revert t. induction rows as [|r rows IH]; intros t Hnd; simpl; [exact Hnd|].
  apply IH, upsert_user_NoDup, Hnd.
Qed.

Lemma filter_user_id_absent (k : Z) (t : list User.t) :
  k ∉ map User.user_id t ->
  filter (fun u => User.user_id u = k) t = [].
Proof.
  induction t as [|u t IH]; intros Hk; [reflexivity|].
  simpl in Hk. rewrite not_elem_of_cons in Hk. destruct Hk as [Hne Hk].
  rewrite filter_cons_False by congruence. auto.
Qed.

Lemma filter_relevel_present (r : User.t) (t : list User.t) :
  NoDup (map User.user_id t) ->
  User.user_id r ∈ map User.user_id t ->
  exists u, u ∈ t /\ User.user_id u = User.user_id r
    /\ filter (fun x => User.user_id x = User.user_id r) (map (relevel r) t)
       = [set_level (User.level r) u].
Proof.
  induction t as [|u t IH]; intros Hnd Hin; simpl in *.
  - apply elem_of_nil in Hin. contradiction.
  - apply NoDup_cons in Hnd. destruct Hnd as [Hu Hnd].
    destruct (decide (User.user_id u = User.user_id r)) as [Heq|Hne].
    + exists u. split; [apply elem_of_cons; auto|]. split; [exact Heq|].
      rewrite filter_cons_True by (rewrite relevel_user_id; exact Heq).
      rewrite filter_user_id_absent.
      * unfold relevel. rewrite bool_decide_eq_true_2 by exact Heq. reflexivity.
      * rewrite map_relevel_user_id, <- Heq. exact Hu.
    + apply elem_of_cons in Hin. destruct Hin as [Hin|Hin]; [congruence|].
      destruct (IH Hnd Hin) as (v & Hv & Hid & Hf).
      exists v. split; [apply elem_of_cons; auto|]. split; [exact Hid|].
      rewrite filter_cons_False by (rewrite relevel_user_id; exact Hne).
      exact Hf.
Qed.

(** After an upsert the key of the row is held by exactly one row, and
    that row has the new level. *)
Lemma upsert_user_one_row (t : list User.t) (r : User.t) :
  NoDup (map User.user_id t) ->
  exists x,
    filter (fun u => User.user_id u = User.user_id r) (upsert_user t r) = [x]
    /\ User.level x = User.level r.
Proof.
  intros Hnd. rewrite upsert_user_unfold. case_bool_decide as Hin.
  - destruct (filter_relevel_present r t Hnd Hin) as (u & _ & _ & Hf).
    eexists. split; [exact Hf | reflexivity].
  - exists r. split; [|reflexivity].
    rewrite filter_app, filter_user_id_absent by exact Hin.
    rewrite filter_cons_True by reflexivity. reflexivity.
Qed.


Lemma fold_user_table_insert_users (rows : list User.t) (d : db) :
  users (fold_left user_table_insert rows d)
  = fold_left upsert_user rows (users d).
Proof.
  revert d. induction rows as [|r rows IH]; intros d; simpl; [reflexivity|].
  rewrite IH. reflexivity.
Qed.

(** ** The song/artist lookup *)

Lemma elem_of_left_join (ss : list Song.t) (aa : list Artist.t)
    (s : Song.t) (a : Artist.t) :
  (s, Some a) ∈ left_join ss aa
  <-> s ∈ ss /\ a ∈ aa /\ Song.artist_id s = Artist.artist_id a.
Proof.
  unfold left_join. rewrite list_elem_of_In, in_flat_map. split.
  - intros (s' & Hs' & Hin).
    destruct (filter (fun a0 => Song.artist_id s' = Artist.artist_id a0) aa)
      as [|a0 m] eqn:Hf.
    + destruct Hin as [Hin|[]]. discriminate.
    + apply in_map_iff in Hin. destruct Hin as (a1 & Heq & Ha1).
      inversion Heq; subst s' a1.
      apply list_elem_of_In in Ha1. rewrite <- Hf in Ha1.
      apply list_elem_of_filter in Ha1. destruct Ha1 as [Hj Ha].
      rewrite list_elem_of_In. auto.
  - intros (Hs & Ha & Hj). exists s. split; [apply list_elem_of_In, Hs|].
    assert (Hin : a ∈ filter (fun a0 => Song.artist_id s = Artist.artist_id a0) aa)
      by (apply list_elem_of_filter; auto).
    destruct (filter (fun a0 => Song.artist_id s = Artist.artist_id a0) aa)
      as [|a0 m].
    + apply elem_of_nil in Hin. contradiction.
    + apply in_map_iff. exists a. split; [reflexivity|].
      apply list_elem_of_In, Hin.
Qed.

Lemma song_where_true (song artist : string) (length : Q)
    (p : Song.t * option Artist.t) :
  song_where song artist length p = true
  <-> exists a, snd p = Some a
        /\ Song.title (fst p) = song
        /\ Artist.artist_name a = artist
        /\ (Song.duration (fst p) == length)%Q.
Proof.
  unfold song_where. rewrite !andb_true_iff, bool_decide_eq_true, Qeq_bool_iff.
  destruct (snd p) as [a|].
  - rewrite bool_decide_eq_true. split.
    + intros [[Ht Hn] Hd]. exists a. auto.
    + intros (a' & Ha & Ht & Hn & Hd). inversion Ha; subst a'. auto.
  - split.
    + intros [[_ Hf] _]. discriminate.
    + intros (a' & Ha & _). discriminate.
Qed.

Lemma elem_of_song_select (cur : db) (e : Event.t) (sid aid : string) :
  (sid, aid) ∈ song_select cur (Event.song e) (Event.artist e) (Event.length e)
  <-> exists s a, matching_pair cur e s a
        /\ sid = Song.song_id s /\ aid = Song.artist_id s.
Proof.
  unfold song_select, matching_pair. rewrite list_elem_of_In, in_map_iff. split.
  - intros ([s oa] & Heq & Hin). apply filter_In in Hin.
    destruct Hin as [Hin Hw]. apply song_where_true in Hw.
    destruct Hw as (a & Ha & Ht & Hn & Hd). simpl in *. subst oa.
    apply list_elem_of_In, elem_of_left_join in Hin.
    destruct Hin as (Hs & Haa & Hj).
    exists s, a. inversion Heq. auto 10.
  - intros (s & a & (Hs & Ha & Hj & Ht & Hn & Hd) & -> & ->).
    exists (s, Some a). split; [reflexivity|].
    apply filter_In. split.
    + apply list_elem_of_In, elem_of_left_join. auto.
    + apply song_where_true. exists a. auto.
Qed.

(** C1: the lookup returns exactly the (song_id, artist_id) of the joined
    Song/Artist pairs whose title, artist name and duration equal the
    event's song, artist and length (equality of the numeric values, no
    tolerance); the row built for the event reads only the first result:
    it carries the ids of a matching pair when one is in the database, and
    NULL for both ids when none is. *)
Theorem songplay_ids_from_first_match (cur : db) (e : Event.t)
    (t : pd.Timestamp) :
  let results :=
    song_select cur (Event.song e) (Event.artist e) (Event.length e) in
  let row := songplay_data cur e t in
  (forall sid aid,
      (sid, aid) ∈ results
      <-> exists s a, matching_pair cur e s a
            /\ sid = Song.song_id s /\ aid = Song.artist_id s)
  /\ (SongPlay.song_id row, SongPlay.artist_id row)
     = match fetchone results with
       | Some (sid, aid) => (Some sid, Some aid)
       | None => (None, None)
       end
  /\ ((exists s a, matching_pair cur e s a) ->
      exists s a, matching_pair cur e s a
        /\ fetchone results = Some (Song.song_id s, Song.artist_id s)
        /\ SongPlay.song_id row = Some (Song.song_id s)
        /\ SongPlay.artist_id row = Some (Song.artist_id s))
  /\ ((forall s a, ~ matching_pair cur e s a) ->
      SongPlay.song_id row = None /\ SongPlay.artist_id row = None).
Proof.
  intros results row.
  assert (Hrow : (SongPlay.song_id row, SongPlay.artist_id row)
                 = match fetchone results with
                   | Some (sid, aid) => (Some sid, Some aid)
                   | None => (None, None)
                   end).
  { subst row results. unfold songplay_data.
    destruct (fetchone _) as [[sid aid]|]; reflexivity. }
  split; [intros sid aid; apply elem_of_song_select|].
  split; [exact Hrow|]. split.
  - intros (s & a & Hm).
    assert (Hin : (Song.song_id s, Song.artist_id s) ∈ results)
      by (apply elem_of_song_select; eauto).
    destruct results as [|[sid aid] rest] eqn:Hres.
    + apply elem_of_nil in Hin. contradiction.
    + assert (Hhd : (sid, aid) ∈ results)
        by (rewrite Hres; apply list_elem_of_here).
      subst results. apply elem_of_song_select in Hhd.
      destruct Hhd as (s' & a' & Hm' & -> & ->).
      exists s', a'. simpl in Hrow. inversion Hrow. auto.
  - intros Hnone. destruct results as [|[sid aid] rest] eqn:Hres.
    + simpl in Hrow. inversion Hrow. auto.
    + assert (Hhd : (sid, aid) ∈ results)
        by (rewrite Hres; apply list_elem_of_here).
      subst results. apply elem_of_song_select in Hhd.
      destruct Hhd as (s' & a' & Hm' & _). destruct (Hnone s' a' Hm').
Qed.

(** On the sample data: [play1] finds the pair loaded from [song1], with
    the ids as the [char (18)] columns hold them;
    a length that differs by a thousandth of a second finds nothing. *)
Example song_select_sample :
  song_select sample_songs_loaded "T" "A" (1234 # 10)%Q
  = [("SOID1             ", "ARID1             ")]
  /\ song_select sample_songs_loaded "T" "A" (123401 # 1000)%Q = []
  /\ song_select sample_songs_loaded "T" "B" (1234 # 10)%Q = [].
Proof. vm_compute. auto. Qed.

(** ** The time rows *)

Section drop_duplicates.
Context {A : Type} `{EqDecision A}.

Lemma elem_of_drop_duplicates_from (seen l : list A) (x : A) :
  x ∈ drop_duplicates_from seen l <-> x ∈ l /\ x ∉ seen.
Proof.
  revert seen. induction l as [|y l IH]; intros seen; simpl.
  - split; [intros H; apply elem_of_nil in H; contradiction|].
    intros [H _]. apply elem_of_nil in H. contradiction.
  - case_bool_decide as Hy.
    + rewrite IH, elem_of_cons. split; [tauto|].
      intros [[->|Hx] Hn]; [contradiction | auto].
    + rewrite !elem_of_cons, IH, not_elem_of_cons. split.
      * intros [->|(Hx & Hne & Hn)]; auto.
      * intros [[->|Hx] Hn]; [auto|].
        destruct (decide (x = y)) as [->|Hne]; auto.
Qed.

Lemma NoDup_drop_duplicates_from (seen l : list A) :
  NoDup (drop_duplicates_from seen l).
Proof.
  revert seen. induction l as [|y l IH]; intros seen; simpl.
  - apply NoDup_nil_2.
  - case_bool_decide as Hy; [apply IH|].
    apply NoDup_cons. split; [|apply IH].
    rewrite elem_of_drop_duplicates_from, not_elem_of_cons. tauto.
Qed.

(** [drop_duplicates] keeps every row of the frame once. *)
Lemma elem_of_drop_duplicates (l : list A) (x : A) :
  x ∈ drop_duplicates l <-> x ∈ l.
Proof.
  unfold drop_duplicates. rewrite elem_of_drop_duplicates_from.
  split; [tauto|]. intros H. split; [exact H|]. apply not_elem_of_nil.
Qed.

Lemma NoDup_drop_duplicates (l : list A) : NoDup (drop_duplicates l).
Proof. apply NoDup_drop_duplicates_from. Qed.

End drop_duplicates.

(** Rows without repetition stay so under a map that is injective on
    them. *)
Lemma NoDup_map_inj_on {A B : Type} (f : A -> B) (l : list A) :
  (forall x y, x ∈ l -> y ∈ l -> f x = f y -> x = y) ->
  NoDup l -> NoDup (map f l).
Proof.
  induction l as [|x l IH]; intros Hinj Hnd; simpl.
  - apply NoDup_nil_2.
  - apply NoDup_cons in Hnd. destruct Hnd as [Hx Hnd].
    apply NoDup_cons. split.
    + intros Hin. apply list_elem_of_In, in_map_iff in Hin.
      destruct Hin as (y & Hfy & Hy). apply list_elem_of_In in Hy.
      assert (x = y).
      { apply Hinj; [apply list_elem_of_here
                    | apply list_elem_of_further, Hy | auto]. }
      subst y. contradiction.
    + apply IH; [|exact Hnd]. intros a b Ha Hb.
      apply Hinj; apply list_elem_of_further; assumption.
Qed.

(** The six derived columns are functions of the timestamp: rows with the
    same [start_time] are the same row. *)
Lemma time_row_start_time (t : pd.Timestamp) :
  Time.start_time (time_row t) = pd.value t.
Proof. reflexivity. Qed.

Lemma time_row_inj (t1 t2 : pd.Timestamp) :
  Time.start_time (time_row t1) = Time.start_time (time_row t2) ->
  time_row t1 = time_row t2.
Proof.
  destruct t1 as [v1], t2 as [v2]. simpl. intros ->. reflexivity.
Qed.

(** C7: the time rows proposed for insertion for a log file hold no two
    rows with the same [start_time], however often an instant occurs
    among the retained events; and every instant of the file is among
    them. *)
Theorem time_df_start_time_unique (tss : list pd.Timestamp) :
  NoDup (map Time.start_time (time_df tss))
  /\ (forall t, t ∈ tss -> pd.value t ∈ map Time.start_time (time_df tss)).
Proof.
  unfold time_df. split.
  - apply NoDup_map_inj_on; [|apply NoDup_drop_duplicates].
    intros x y Hx Hy Heq.
    apply elem_of_drop_duplicates, list_elem_of_In, in_map_iff in Hx.
    apply elem_of_drop_duplicates, list_elem_of_In, in_map_iff in Hy.
    destruct Hx as (t1 & <- & _), Hy as (t2 & <- & _).
    apply time_row_inj, Heq.
  - intros t Ht. apply list_elem_of_In, in_map_iff.
    exists (time_row t). split; [reflexivity|].
    apply list_elem_of_In, elem_of_drop_duplicates, list_elem_of_In, in_map_iff.
    exists t. split; [reflexivity | apply list_elem_of_In, Ht].
Qed.

Example time_df_sample :
  map Time.start_time
      (time_df [pd.mkTimestamp 5; pd.mkTimestamp 9; pd.mkTimestamp 5;
                pd.mkTimestamp 9; pd.mkTimestamp 7])
  = [5; 9; 7].
Proof. reflexivity. Qed.

(** ** Finding the files *)

(** Induction on a directory tree. *)
Section node_induction.
Variable P : node -> Prop.
Hypothesis P_File : forall c, P (File c).
Hypothesis P_Dir :
  forall es, Forall (fun e => P (entry_node e)) es -> P (Dir es).

Fixpoint node_induction (n : node) : P n :=
  match n with
  | File c => P_File c
  | Dir es =>
      P_Dir es
        ((fix go (l : list entry) : Forall (fun e => P (entry_node e)) l :=
            match l with
            | [] => @List.Forall_nil _ _
            | e :: l' =>
                @List.Forall_cons _ _ e l'
                  (match e return P (entry_node e) with
                   | Entry _ child => node_induction child
                   end)
                  (go l')
            end) es)
  end.
End node_induction.

Lemma glob_json_no_match (root : path) (es : list entry) :
  forallb (fun e => negb (fnmatch_json (entry_name e))) es = true ->
  glob_json root es = [].
Proof.
  unfold glob_json. induction es as [|e es IH]; simpl; [reflexivity|].
  rewrite andb_true_iff, negb_true_iff. intros [-> Hes]. apply IH, Hes.
Qed.

Lemma os_walk_no_json (cwd : path) (n : node) :
  forall top,
    no_json n = true ->
    flat_map (fun w => map (fun f => cwd ++ f) (glob_json (fst w) (snd w)))
             (os_walk top n) = [].
Proof.
  induction n as [c|es IH] using node_induction; intros top Hno;
    [reflexivity|].
  simpl in *. rewrite glob_json_no_match; simpl.
  - induction es as [|[name child] es IHes]; simpl; [reflexivity|].
    simpl in Hno. rewrite !andb_true_iff in Hno.
    destruct Hno as [[_ Hchild] Hes].
    apply Forall_cons in IH. destruct IH as [IHchild IHrest].
    rewrite flat_map_app. simpl in IHchild.
    rewrite (IHchild _ Hchild). simpl. apply IHes; assumption.
  - clear IH. induction es as [|[name child] es IHes]; simpl; [reflexivity|].
    simpl in Hno. rewrite !andb_true_iff in Hno.
    destruct Hno as [[-> _] Hes]. simpl. apply IHes, Hes.
Qed.

Lemma all_files_missing_root (fs : node) (cwd filepath : path) :
  resolve fs (cwd ++ filepath) = None -> all_files fs cwd filepath = [].
Proof. intros H. unfold all_files. rewrite H. reflexivity. Qed.

Lemma all_files_no_json (fs : node) (cwd filepath : path) (n : node) :
  resolve fs (cwd ++ filepath) = Some n -> no_json n = true ->
  all_files fs cwd filepath = [].
Proof.
  intros H Hno. unfold all_files. rewrite H.
  rewrite (os_walk_no_json cwd n filepath Hno). reflexivity.
Qed.

Lemma process_data_no_files (fs : node) (cwd : path) (c : connection)
    (filepath : path) (func : node -> db -> path -> result db) :
  all_files fs cwd filepath = [] ->
  process_data fs cwd c filepath func
  = mkrun c [Print (files_found 0 filepath)] None.
Proof. intros H. unfold process_data. rewrite H. reflexivity. Qed.

(** C3, as the code has it, for a root path whose segments are names
    without the pattern characters of [glob]: when the root does not
    exist, and when it exists, no directory below it has a name with a
    pattern character and no entry below it matches ['*.json'], the list
    of files is empty and [process_data] ends without an error, after
    printing ["0 files found in <filepath>"] and without touching the
    connection. *)
Theorem all_files_empty_without_error (fs : node) (cwd filepath : path)
    (c : connection) (func : node -> db -> path -> result db) :
  plain_path filepath = true ->
  resolve fs (cwd ++ filepath) = None
  \/ (exists n, resolve fs (cwd ++ filepath) = Some n
                /\ plain_dirs n = true /\ no_json n = true) ->
  all_files fs cwd filepath = []
  /\ raised (process_data fs cwd c filepath func) = None
  /\ conn (process_data fs cwd c filepath func) = c
  /\ trace (process_data fs cwd c filepath func)
     = [Print ("0 files found in " +:+ String.concat "/" filepath)].
Proof.
  intros _ H.
  assert (Hnil : all_files fs cwd filepath = []).
  { destruct H as [H|(n & H & _ & Hno)];
      [apply all_files_missing_root, H | eapply all_files_no_json; eauto]. }
  rewrite (process_data_no_files _ _ _ _ _ Hnil). auto.
Qed.

(** The sample tree without a [data] directory, and the one whose
    [data/song_data] holds no JSON file. *)
Lemma all_files_empty_without_error_witness :
  (all_files sample.fs_nodata sample.cwd sample.song_path = []
   /\ raised (process_data sample.fs_nodata sample.cwd (connect empty_db)
                sample.song_path process_song_file) = None
   /\ conn (process_data sample.fs_nodata sample.cwd (connect empty_db)
              sample.song_path process_song_file) = connect empty_db
   /\ trace (process_data sample.fs_nodata sample.cwd (connect empty_db)
               sample.song_path process_song_file)
      = [Print "0 files found in data/song_data"])
  /\ (all_files sample.fs_nojson sample.cwd sample.song_path = []
      /\ raised (process_data sample.fs_nojson sample.cwd (connect empty_db)
                   sample.song_path process_song_file) = None
      /\ conn (process_data sample.fs_nojson sample.cwd (connect empty_db)
                 sample.song_path process_song_file) = connect empty_db
      /\ trace (process_data sample.fs_nojson sample.cwd (connect empty_db)
                  sample.song_path process_song_file)
         = [Print "0 files found in data/song_data"]).
Proof.
  split.
  - apply (all_files_empty_without_error sample.fs_nodata);
      [reflexivity|].
    left. reflexivity.
  - apply (all_files_empty_without_error sample.fs_nojson);
      [reflexivity|].
    right. eexists. repeat split; reflexivity.
Defined.

(** C3, against the claim as stated: the root [data/song_data] does not
    exist in the sample tree without a [data] directory, and the run
    raises no error at all (so no NotFoundError): it finds 0 files. *)
Lemma missing_root_raises_nothing :
  resolve sample.fs_nodata (sample.cwd ++ sample.song_path) = None
  /\ all_files sample.fs_nodata sample.cwd sample.song_path = []
  /\ raised (process_data sample.fs_nodata sample.cwd (connect empty_db)
               sample.song_path process_song_file) = None
  /\ trace (process_data sample.fs_nodata sample.cwd (connect empty_db)
              sample.song_path process_song_file)
     = [Print "0 files found in data/song_data"].
Proof. vm_compute. auto. Qed.

(** ** The runner *)

Lemma file_steps_cons (num_files i : nat) (d : db) (ds : list db) :
  file_steps num_files i (d :: ds)
  = Commit d :: Print (files_processed i num_files)
    :: file_steps num_files (S i) ds.
Proof.
  unfold file_steps. rewrite imap_cons. simpl.
  rewrite Nat.add_0_r. do 3 f_equal. apply imap_ext.
  intros k dk _. simpl. rewrite Nat.add_succ_r. reflexivity.
Qed.

(** The loop of [process_data], file by file: [ds] are the databases
    after the files that were processed. *)
Lemma process_files_steps (func : db -> path -> result db) (num_files : nat)
    (files : list path) :
  forall (i : nat) (d : db),
  exists (ds : list db) (dlast : db),
    last (d :: ds) = Some dlast
    /\ (forall k dk, ds !! k = Some dk ->
          exists dprev f, (d :: ds) !! k = Some dprev /\ files !! k = Some f
                          /\ func dprev f = Ok dk)
    /\ trace (process_files func num_files i files (mkconn d d))
       = file_steps num_files i ds
    /\ conn (process_files func num_files i files (mkconn d d))
       = mkconn dlast dlast
    /\ ((raised (process_files func num_files i files (mkconn d d)) = None
         /\ length ds = length files)
        \/ (exists e f,
              raised (process_files func num_files i files (mkconn d d))
              = Some e
              /\ files !! length ds = Some f /\ func dlast f = Err e)).
Proof.
  induction files as [|f files IH]; intros i d.
  - exists [], d. simpl. repeat split; auto.
    intros k dk Hk. rewrite lookup_nil in Hk. discriminate.
  - cbn [process_files cursor committed].
    destruct (func d f) as [d1|e] eqn:Hf.
    + destruct (IH (S i) d1)
        as (ds & dlast & Hlast & Hchain & Htr & Hconn & Hout).
      exists (d1 :: ds), dlast. cbn [trace conn raised].
      split; [exact Hlast|]. split; [|split; [|split]].
      * intros [|k] dk Hk.
        -- inversion Hk; subst dk. exists d, f. auto.
        -- destruct (Hchain k dk Hk) as (dprev & g & H1 & H2 & H3).
           exists dprev, g. auto.
      * rewrite file_steps_cons, Htr. reflexivity.
      * exact Hconn.
      * destruct Hout as [[Hr Hlen]|(e & g & Hr & Hg & He)].
        -- left. split; [exact Hr | simpl; congruence].
        -- right. exists e, g. auto.
    + exists [], d. cbn [trace conn raised]. repeat split; auto.
      * intros k dk Hk. rewrite lookup_nil in Hk. discriminate.
      * right. exists e, f. auto.
Qed.

(** C9, as the code has it: [process_data] handles the files it found
    one at a time and in order.  There are databases [ds], one per file
    that got through, each the result of its file on the database before
    it; the run prints the line ["n files found in <filepath>"], then for
    the [i]-th of these files (counted from 1) commits its database and
    only then prints the line ["i/n files processed."], with [i] and [n]
    in decimal; nothing else is printed or committed, and the committed
    state at the end is the last of [ds].  Either every file got through,
    or the next file raised: then the run ends with that error, no later
    file is looked at, and what was committed stays. *)
Theorem process_data_commits_each_file (fs : node) (cwd : path) (d : db)
    (filepath : path) (func : node -> db -> path -> result db) :
  let files := all_files fs cwd filepath in
  let n := length files in
  let r := process_data fs cwd (connect d) filepath func in
  exists (ds : list db) (dlast : db),
    last (d :: ds) = Some dlast
    /\ (forall k dk, ds !! k = Some dk ->
          exists dprev f, (d :: ds) !! k = Some dprev /\ files !! k = Some f
                          /\ func fs dprev f = Ok dk)
    /\ trace r
       = Print (pretty n +:+ " files found in " +:+ String.concat "/" filepath)
         :: concat (imap (fun k dk =>
                            [Commit dk;
                             Print (pretty (1 + k)%nat +:+ "/" +:+ pretty n
                                    +:+ " files processed.")]) ds)
    /\ committed (conn r) = dlast
    /\ ((raised r = None /\ length ds = n)
        \/ (exists e f, raised r = Some e /\ files !! length ds = Some f
                        /\ func fs dlast f = Err e)).
Proof.
  intros files n r.
  destruct (process_files_steps (func fs) n files 1 d)
    as (ds & dlast & Hlast & Hchain & Htr & Hconn & Hout).
  exists ds, dlast. subst r. unfold process_data, connect.
  fold files. fold n. cbn [trace conn raised].
  rewrite Htr, Hconn. cbn [committed].
  split; [exact Hlast|]. split; [exact Hchain|].
  split; [reflexivity|]. split; [reflexivity | exact Hout].
Qed.

(** C9, against the claim as stated: the progress lines of a run over the
    two song files of the sample tree read ["1/2 files processed."] and
    ["2/2 files processed."]; no line of the form "X of Y files
    processed" is printed. *)
Lemma progress_line_is_i_slash_n :
  printed (trace (process_data sample.fs_songs sample.cwd (connect empty_db)
                    sample.song_path process_song_file))
  = ["2 files found in data/song_data";
     "1/2 files processed."; "2/2 files processed."]
  /\ List.filter (is_substring " of ")
       (printed (trace (process_data sample.fs_songs sample.cwd
                          (connect empty_db) sample.song_path
                          process_song_file)))
     = [].
Proof. vm_compute. auto. Qed.

(** On the sample tree whose second song file is empty: the first file
    is committed and reported, the second raises, the third is never
    processed, and the first file's rows stay committed. *)
Example process_data_sample_abort :
  let r := process_data sample.fs_broken sample.cwd (connect empty_db)
             sample.song_path process_song_file in
  raised r = Some (MalformedRecordError "KeyError")
  /\ map Song.song_id (songs (committed (conn r))) = ["SOID1             "]
  /\ trace r = [Print "3 files found in data/song_data";
                Commit (committed (conn r));
                Print "1/3 files processed."].
Proof. vm_compute. auto. Qed.

(** ** Running the song files twice *)

Lemma keys_in_refl (d : db) : keys_in d d.
Proof. split; auto. Qed.

Lemma keys_in_trans (d1 d2 d3 : db) :
  keys_in d1 d2 -> keys_in d2 d3 -> keys_in d1 d3.
Proof. intros [H1 H2] [H3 H4]. split; auto. Qed.

(** Whether a song file can be processed does not depend on the
    database. *)
Lemma process_song_file_cases (fs : node) (f : path) :
  (exists e, forall d, process_song_file fs d f = Err e)
  \/ (exists r, forall d, process_song_file fs d f = Ok (load_song d r)).
Proof.
  unfold process_song_file.
  destruct (read_json fs f) as [[[|r rest]|evs]|e]; cbn [mbind result_bind];
    eauto.
  destruct (songs_row (song_data r)) as [s|e] eqn:Hs; cbn [mbind result_bind];
    [|eauto].
  destruct (artists_row (artist_data r)) as [a|e] eqn:Ha;
    cbn [mbind result_bind]; [|eauto].
  apply songs_row_Ok in Hs. apply artists_row_Ok in Ha.
  destruct Hs as (-> & _), Ha as (-> & _).
  right. exists (stored r). intros d. reflexivity.
Qed.

Lemma load_song_keys (d : db) (r : SongRecord.t) :
  keys_in d (load_song d r)
  /\ SongRecord.song_id r ∈ map Song.song_id (songs (load_song d r))
  /\ SongRecord.artist_id r ∈ map Artist.artist_id (artists (load_song d r)).
Proof.
  unfold load_song, keys_in, artist_table_insert, song_table_insert.
  repeat case_bool_decide; simpl in *; repeat split; auto;
    try (intros k Hk); rewrite ?map_app, ?elem_of_app; simpl;
    rewrite ?list_elem_of_singleton; auto.
Qed.

Lemma load_song_conflict (D : db) (r : SongRecord.t) :
  SongRecord.song_id r ∈ map Song.song_id (songs D) ->
  SongRecord.artist_id r ∈ map Artist.artist_id (artists D) ->
  load_song D r = D.
Proof.
  intros Hs Ha. unfold load_song.
  rewrite (song_table_insert_conflict D (song_data r)) by exact Hs.
  apply artist_table_insert_conflict, Ha.
Qed.

(** The keys only grow along a run. *)
Lemma process_files_keys (fs : node) (n : nat) (files : list path) :
  forall (i : nat) (d : db),
    keys_in d (committed (conn (process_files (process_song_file fs) n i
                                  files (mkconn d d)))).
Proof.
  induction files as [|f files IH]; intros i d; cbn [process_files cursor].
  - apply keys_in_refl.
  - destruct (process_song_file_cases fs f) as [[e He]|[r Hr]].
    + rewrite He. apply keys_in_refl.
    + rewrite Hr. cbn [conn]. eapply keys_in_trans; [|apply IH].
      apply load_song_keys.
Qed.

(** A second run over the same files, from a database that has the keys
    of the first run, commits that database again and again, and stops
    where the first run stopped. *)
Lemma process_files_again (fs : node) (files : list path) :
  forall (n i n' i' : nat) (d D : db),
    keys_in (committed (conn (process_files (process_song_file fs) n i
                                files (mkconn d d)))) D ->
    conn (process_files (process_song_file fs) n' i' files (mkconn D D))
    = mkconn D D.
Proof.
  induction files as [|f files IH]; intros n i n' i' d D Hkeys;
    cbn [process_files cursor committed] in *; [reflexivity|].
  destruct (process_song_file_cases fs f) as [[e He]|[r Hr]].
  - rewrite He. reflexivity.
  - rewrite Hr in *. cbn [conn] in *.
    assert (Hd1 : keys_in (load_song d r) D).
    { eapply keys_in_trans; [apply process_files_keys | exact Hkeys]. }
    destruct (load_song_keys d r) as (_ & Hs & Ha).
    destruct Hd1 as [Hsongs Hartists].
    rewrite (load_song_conflict D r) by auto.
    eapply IH. exact Hkeys.
Qed.

(** C4: a second run of the song-file phase over the same files, on the
    database the first run committed, leaves the songs and artists tables
    (indeed the whole database) as the first run left them; and an insert
    whose [song_id], respectively [artist_id], is in the table changes
    nothing, so the row that was there first stays. *)
Theorem song_phase_rerun_changes_nothing (fs : node) (cwd : path) (d : db)
    (filepath : path) :
  let r1 := process_data fs cwd (connect d) filepath process_song_file in
  let r2 := process_data fs cwd (connect (committed (conn r1))) filepath
              process_song_file in
  songs (committed (conn r2)) = songs (committed (conn r1))
  /\ artists (committed (conn r2)) = artists (committed (conn r1))
  /\ committed (conn r2) = committed (conn r1)
  /\ (forall (D : db) (s : Song.t),
        Song.song_id s ∈ map Song.song_id (songs D) ->
        song_table_insert D s = D)
  /\ (forall (D : db) (a : Artist.t),
        Artist.artist_id a ∈ map Artist.artist_id (artists D) ->
        artist_table_insert D a = D).
Proof.
  intros r1 r2.
  assert (H : committed (conn r2) = committed (conn r1)).
  { subst r2 r1. unfold process_data, connect. cbn [conn].
    erewrite process_files_again; [reflexivity|]. apply keys_in_refl. }
  rewrite H. repeat split.
  - apply song_table_insert_conflict.
  - apply artist_table_insert_conflict.
Qed.

(** On the sample tree: the second run finds both keys of every file. *)
Example song_phase_rerun_sample :
  let r1 := process_data sample.fs_songs sample.cwd (connect empty_db)
              sample.song_path process_song_file in
  let r2 := process_data sample.fs_songs sample.cwd
              (connect (committed (conn r1))) sample.song_path
              process_song_file in
  map Song.song_id (songs (committed (conn r1)))
  = ["SOID2             "; "SOID1             "]
  /\ committed (conn r2) = committed (conn r1)
  /\ raised r2 = None.
Proof. vm_compute. auto. Qed.

(** ** The calendar

    The [pd] accessors against the reference of module [calendar]: the
    date of a day count is a valid date with that ordinal, the weekday is
    the ordinal's (Monday 0), and the week is the ISO 8601 week. *)

(** Linear arithmetic with division and remainder by constants. *)
Ltac divmod := Z.to_euclidean_division_equations; lia.

(** Evaluation of the closed arithmetic and tests left after a case
    distinction on a month. *)
Ltac is_pos p :=
  lazymatch p with xH => idtac | xO ?q => is_pos q | xI ?q => is_pos q end.
Ltac is_num z :=
  lazymatch z with Z0 => idtac | Zpos ?p => is_pos p | Zneg ?p => is_pos p end.
Ltac fold_num e :=
  let v := eval vm_compute in e in change e with v.
Ltac fold_nums :=
  repeat match goal with
  | |- context [Z.add ?a ?b] => is_num a; is_num b; fold_num (Z.add a b)
  | |- context [Z.sub ?a ?b] => is_num a; is_num b; fold_num (Z.sub a b)
  | |- context [Z.mul ?a ?b] => is_num a; is_num b; fold_num (Z.mul a b)
  | |- context [Z.div ?a ?b] => is_num a; is_num b; fold_num (Z.div a b)
  | |- context [Z.ltb ?a ?b] => is_num a; is_num b; fold_num (Z.ltb a b)
  | |- context [Z.leb ?a ?b] => is_num a; is_num b; fold_num (Z.leb a b)
  | |- context [Z.eqb ?a ?b] => is_num a; is_num b; fold_num (Z.eqb a b)
  | |- context [Z.to_nat ?a] => is_num a; fold_num (Z.to_nat a)
  | |- context [nth ?n ?l ?d] => is_num d; fold_num (nth n l d)
  end.

(** A year adds a leap day to the count exactly when it is a leap year. *)
Lemma is_leap_leaps (y : Z) :
  leaps y - leaps (y - 1) = if calendar.is_leap y then 1 else 0.
Proof.
  unfold calendar.is_leap, leaps.
  destruct (y mod 4 =? 0) eqn:H4; destruct (y mod 100 =? 0) eqn:H100;
    destruct (y mod 400 =? 0) eqn:H400; simpl;
    rewrite ?Z.eqb_eq, ?Z.eqb_neq in *; divmod.
Qed.

Lemma is_leapyear_is_leap (y : Z) : pd.is_leapyear y = calendar.is_leap y.
Proof.
  unfold pd.is_leapyear, calendar.is_leap.
  destruct (y mod 4 =? 0) eqn:H4; destruct (y mod 100 =? 0) eqn:H100;
    destruct (y mod 400 =? 0) eqn:H400; simpl; try reflexivity;
    rewrite ?Z.eqb_eq, ?Z.eqb_neq in *; divmod.
Qed.

Lemma days_before_year_leaps (y : Z) :
  calendar.days_before_year y = 365 * (y - 1) + leaps (y - 1).
Proof. unfold calendar.days_before_year, leaps. lia. Qed.

Lemma days_before_month_table (y m : Z) :
  1 <= m <= 12 ->
  calendar.days_before_month y m
  = nth (Z.to_nat (m - 1)) month_table 0
    + (if (2 <? m) && calendar.is_leap y then 1 else 0).
Proof.
  intros Hm.
  assert (Hc : m = 1 \/ m = 2 \/ m = 3 \/ m = 4 \/ m = 5 \/ m = 6 \/ m = 7
               \/ m = 8 \/ m = 9 \/ m = 10 \/ m = 11 \/ m = 12) by lia.
  unfold calendar.days_before_month, calendar.days_in_month.
  destruct (calendar.is_leap y);
    repeat (destruct Hc as [->|Hc]; [reflexivity|]); subst m; reflexivity.
Qed.

(** The year of the era: the day of the era lies in the year that the
    division picks. *)
Lemma yoe_bracket (doe : Z) :
  0 <= doe < 146097 ->
  let yoe := (doe - doe / 1460 + doe / 36524 - doe / 146096) / 365 in
  0 <= yoe <= 399 /\
  365 * yoe + yoe / 4 - yoe / 100 <= doe
  /\ doe < 365 * (yoe + 1) + leaps (yoe + 1).
Proof.
  intros H yoe. subst yoe. unfold leaps. divmod.
Qed.

Lemma leaps_era (y e : Z) : leaps (y + e * 400) = leaps y + 97 * e.
Proof. unfold leaps. divmod. Qed.

Lemma leaps_small (y : Z) : 0 <= y <= 399 -> leaps y = y / 4 - y / 100.
Proof. unfold leaps. intros. divmod. Qed.

(** The date of a day count is a valid date, and its ordinal is the
    day count from 1970-01-01. *)
Lemma civil_from_days_spec (z : Z) :
  calendar.valid_date (fst (fst (pd.civil_from_days z)))
                      (snd (fst (pd.civil_from_days z)))
                      (snd (pd.civil_from_days z))
  /\ calendar.ymd2ord (fst (fst (pd.civil_from_days z)))
                      (snd (fst (pd.civil_from_days z)))
                      (snd (pd.civil_from_days z))
     = z + 719163.
Proof.
  unfold pd.civil_from_days. cbv zeta.
  pose proof (Z.div_mod (z + 719468) 146097 ltac:(lia)) as Hz.
  pose proof (Z.mod_pos_bound (z + 719468) 146097 ltac:(lia)) as Hdoe.
  set (era := (z + 719468) / 146097) in *.
  set (doe := (z + 719468) mod 146097) in *.
  pose proof (yoe_bracket doe Hdoe) as Hyoe. cbv zeta in Hyoe.
  set (yoe := (doe - doe / 1460 + doe / 36524 - doe / 146096) / 365) in *.
  destruct Hyoe as (Hy & Hlo & Hhi).
  assert (Hs : 365 * yoe + yoe / 4 - yoe / 100 = 365 * yoe + leaps yoe)
    by (rewrite (leaps_small yoe Hy); lia).
  rewrite Hs in *. clear Hs.
  set (doy := doe - (365 * yoe + leaps yoe)) in *.
  assert (Hdoy : 0 <= doy <= 365) by
    (pose proof (is_leap_leaps (yoe + 1)) as Hl;
     replace (yoe + 1 - 1) with yoe in Hl by lia;
     destruct (calendar.is_leap (yoe + 1)); subst doy; lia).
  set (mp := (5 * doy + 2) / 153).
  assert (Hmp : 0 <= mp <= 11) by (subst mp; divmod).
  assert (Hmpd : 153 * mp <= 5 * doy + 2 < 153 * mp + 153) by (subst mp; divmod).
  assert (Hdd : doy = doe - (365 * yoe + leaps yoe)) by reflexivity.
  clearbody doy mp.
  assert (Hc : mp = 0 \/ mp = 1 \/ mp = 2 \/ mp = 3 \/ mp = 4 \/ mp = 5
               \/ mp = 6 \/ mp = 7 \/ mp = 8 \/ mp = 9 \/ mp = 10 \/ mp = 11)
    by lia.
  clearbody yoe era doe.
  pose proof (is_leap_leaps (yoe + era * 400)) as HL0.
  pose proof (is_leap_leaps (yoe + era * 400 + 1)) as HL1.
  replace (yoe + era * 400 + 1 - 1) with (yoe + era * 400) in HL1 by lia.
  pose proof (leaps_era yoe era) as He0.
  pose proof (leaps_era (yoe - 1) era) as He1.
  pose proof (leaps_era (yoe + 1) era) as He2.
  replace (yoe - 1 + era * 400) with (yoe + era * 400 - 1) in He1 by lia.
  replace (yoe + 1 + era * 400) with (yoe + era * 400 + 1) in He2 by lia.
  unfold calendar.valid_date, calendar.ymd2ord.
  repeat (destruct Hc as [->|Hc]); try subst mp; fold_nums; cbv iota;
    cbn [fst snd andb orb]; fold_nums;
    rewrite days_before_year_leaps, days_before_month_table by lia;
    unfold calendar.days_in_month; fold_nums; cbv iota; cbn [andb orb].
  all: replace (yoe + era * 400 + 1 - 1) with (yoe + era * 400) by lia.
  all: destruct (calendar.is_leap (yoe + era * 400));
    destruct (calendar.is_leap (yoe + era * 400 + 1)); lia.
Qed.

(** Sakamoto's day of the week is the weekday of the ordinal. *)
Lemma dayofweek_ymd_spec (y m d : Z) :
  1 <= m <= 12 ->
  pd.dayofweek_ymd y m d = (calendar.ymd2ord y m d + 6) mod 7.
Proof.
  intros Hm.
  assert (Hc : m = 1 \/ m = 2 \/ m = 3 \/ m = 4 \/ m = 5 \/ m = 6 \/ m = 7
               \/ m = 8 \/ m = 9 \/ m = 10 \/ m = 11 \/ m = 12) by lia.
  unfold pd.dayofweek_ymd, calendar.ymd2ord. cbv zeta.
  rewrite days_before_year_leaps, days_before_month_table by lia.
  pose proof (is_leap_leaps y) as HL.
  unfold pd.sakamoto_arr.
  repeat (destruct Hc as [->|Hc]); try subst m; fold_nums; cbv iota;
    cbn [andb]; fold_nums.
  all: unfold leaps in *; destruct (calendar.is_leap y); divmod.
Qed.

Lemma days_before_year_mono (a b : Z) :
  a <= b -> calendar.days_before_year a <= calendar.days_before_year b.
Proof. unfold calendar.days_before_year. cbv zeta. intros. divmod. Qed.

Lemma days_before_year_succ (y : Z) :
  calendar.days_before_year (y + 1)
  = calendar.days_before_year y + 365 + (if calendar.is_leap y then 1 else 0).
Proof.
  rewrite !days_before_year_leaps. pose proof (is_leap_leaps y).
  replace (y + 1 - 1) with y by lia. lia.
Qed.

(** The day of the year of a valid date. *)
Lemma day_of_year_bounds (y m d : Z) :
  calendar.valid_date y m d ->
  1 <= calendar.days_before_month y m + d
    <= 365 + (if calendar.is_leap y then 1 else 0).
Proof.
  intros [Hm Hd].
  assert (Hc : m = 1 \/ m = 2 \/ m = 3 \/ m = 4 \/ m = 5 \/ m = 6 \/ m = 7
               \/ m = 8 \/ m = 9 \/ m = 10 \/ m = 11 \/ m = 12) by lia.
  rewrite days_before_month_table by lia. revert Hd.
  unfold calendar.days_in_month, month_table.
  repeat (destruct Hc as [->|Hc]); try subst m; fold_nums; cbv iota;
    cbn [andb orb]; fold_nums; destruct (calendar.is_leap y); lia.
Qed.

(** A valid date whose ordinal lies in year [y] is a date of year [y]. *)
Lemma year_of_ordinal (yt mt dt y : Z) :
  calendar.valid_date yt mt dt ->
  calendar.days_before_year y + 1 <= calendar.ymd2ord yt mt dt
    <= calendar.days_before_year (y + 1) ->
  yt = y.
Proof.
  intros Hv Hn. pose proof (day_of_year_bounds yt mt dt Hv) as Hb.
  unfold calendar.ymd2ord in Hn.
  pose proof (days_before_year_succ yt) as Hs.
  destruct (Z.lt_trichotomy yt y) as [Hlt|[Heq|Hgt]]; [|exact Heq|].
  - pose proof (days_before_year_mono (yt + 1) y ltac:(lia)).
    destruct (calendar.is_leap yt); lia.
  - pose proof (days_before_year_mono (y + 1) yt ltac:(lia)).
    destruct (calendar.is_leap yt); lia.
Qed.

Lemma get_day_of_year_spec (y m d : Z) :
  1 <= m <= 12 ->
  pd.get_day_of_year y m d = calendar.days_before_month y m + d.
Proof.
  intros Hm. unfold pd.get_day_of_year. cbv zeta.
  rewrite days_before_month_table, is_leapyear_is_leap by lia.
  assert (Hc : m = 1 \/ m = 2 \/ m = 3 \/ m = 4 \/ m = 5 \/ m = 6 \/ m = 7
               \/ m = 8 \/ m = 9 \/ m = 10 \/ m = 11 \/ m = 12) by lia.
  unfold pd.month_offset, month_table.
  repeat (destruct Hc as [->|Hc]); try subst m; fold_nums; cbv iota;
    cbn [andb]; fold_nums; destruct (calendar.is_leap y); cbn [andb]; lia.
Qed.

(** December is the only month in which the estimate reaches week 53. *)
Lemma day_of_year_december (y m d : Z) :
  calendar.valid_date y m d ->
  359 <= calendar.days_before_month y m + d ->
  m = 12 /\ d <= 31
  /\ calendar.days_before_month y m + d
     = 334 + (if calendar.is_leap y then 1 else 0) + d.
Proof.
  intros [Hm Hd].
  assert (Hc : m = 1 \/ m = 2 \/ m = 3 \/ m = 4 \/ m = 5 \/ m = 6 \/ m = 7
               \/ m = 8 \/ m = 9 \/ m = 10 \/ m = 11 \/ m = 12) by lia.
  rewrite days_before_month_table by lia. revert Hd.
  unfold calendar.days_in_month, month_table.
  repeat (destruct Hc as [->|Hc]); try subst m; fold_nums; cbv iota;
    cbn [andb orb]; fold_nums; destruct (calendar.is_leap y); lia.
Qed.

(** The week pandas computes for a valid date is its ISO 8601 week. *)
Lemma get_week_of_year_spec (y m d : Z) :
  calendar.valid_date y m d ->
  calendar.iso_week_of (calendar.ymd2ord y m d) (pd.get_week_of_year y m d).
Proof.
  intros Hv. pose proof Hv as [Hm Hd].
  pose proof (day_of_year_bounds y m d Hv) as Hdoy.
  pose proof (day_of_year_december y m d Hv) as Hdec.
  unfold pd.get_week_of_year. cbv zeta.
  rewrite get_day_of_year_spec, dayofweek_ymd_spec, is_leapyear_is_leap by lia.
  unfold calendar.iso_week_of.
  set (n := calendar.ymd2ord y m d).
  assert (Hn : n = calendar.days_before_year y
                   + (calendar.days_before_month y m + d))
    by (unfold n, calendar.ymd2ord; lia).
  set (doy := calendar.days_before_month y m + d) in *.
  pose proof (Z.mod_pos_bound (n + 6) 7 ltac:(lia)) as Hdow.
  set (dow := (n + 6) mod 7) in *.
  set (est := doy - 1 - dow + 3).
  destruct (civil_from_days_spec (n - dow + 3 - 719163)) as [Hvt Hot].
  set (yt := fst (fst (pd.civil_from_days (n - dow + 3 - 719163)))) in *.
  set (mt := snd (fst (pd.civil_from_days (n - dow + 3 - 719163)))) in *.
  set (dt := snd (pd.civil_from_days (n - dow + 3 - 719163))) in *.
  replace (n - dow + 3 - 719163 + 719163) with (n - dow + 3) in Hot by lia.
  exists yt, mt, dt. split; [exact Hvt|]. split; [exact Hot|].
  rewrite Hot.
  assert (H11 : calendar.ymd2ord yt 1 1 = calendar.days_before_year yt + 1)
    by (unfold calendar.ymd2ord;
        change (calendar.days_before_month yt 1) with 0; lia).
  rewrite H11.
  pose proof (days_before_year_succ y) as Hsy.
  pose proof (days_before_year_succ (y - 1)) as Hsp.
  replace (y - 1 + 1) with y in Hsp by lia.
  pose proof (days_before_year_succ (y + 1)) as Hsn.
  assert (Hest : est = doy - 1 - dow + 3) by reflexivity.
  clearbody est doy dow n yt mt dt.
  destruct (Z.leb_spec 0 est) as [Hpos|Hneg].
  - destruct (Z.ltb_spec (est / 7 + 1) 0) as [Hbad|_]; [divmod|].
    destruct (Z.eqb_spec (est / 7 + 1) 53) as [H53|Hn53].
    + assert (H359 : 359 <= doy) by divmod.
      destruct (Hdec H359) as (-> & Hd31 & Hdoy12).
      destruct (Z.ltb_spec (31 - d + dow) 3) as [Hnext|Hsame].
      * assert (yt = y + 1).
        { apply (year_of_ordinal yt mt dt (y + 1) Hvt).
          destruct (calendar.is_leap y), (calendar.is_leap (y + 1)); lia. }
        subst yt. destruct (calendar.is_leap y); divmod.
      * assert (yt = y).
        { apply (year_of_ordinal yt mt dt y Hvt).
          destruct (calendar.is_leap y); lia. }
        subst yt. divmod.
    + assert (est < 364) by (destruct (calendar.is_leap y); divmod).
      assert (yt = y).
      { apply (year_of_ordinal yt mt dt y Hvt).
        destruct (calendar.is_leap y); lia. }
      subst yt. f_equal. f_equal. lia.
  - destruct (Z.ltb_spec est 0) as [_|Hbad]; [|lia].
    assert (yt = y - 1).
    { apply (year_of_ordinal yt mt dt (y - 1) Hvt).
      replace (y - 1 + 1) with y by lia.
      destruct (calendar.is_leap (y - 1)); lia. }
    subst yt.
    destruct (Z.ltb_spec (-2) est) as [H1|H1];
      destruct (Z.eqb_spec est (-2)) as [H2|H2];
      destruct (calendar.is_leap (y - 1)); cbn [orb andb]; divmod.
Qed.

Lemma to_datetime_Ok (ms : Z) (t : pd.Timestamp) :
  pd.to_datetime ms = Ok t ->
  t = pd.mkTimestamp ms /\ pd.min_ms <= ms <= pd.max_ms.
Proof.
  unfold pd.to_datetime.
  destruct (Z.leb_spec pd.min_ms ms) as [Hlo|Hlo];
    destruct (Z.leb_spec ms pd.max_ms) as [Hhi|Hhi];
    simpl; intros Heq; inversion Heq; auto.
Qed.

(** C8: the time row of a retained event is a function of its [ts]
    alone.  With [n] the proleptic Gregorian ordinal of the day that
    holds the instant, (year, month, day) is the valid date with ordinal
    [n]; hour is the hour of that day in which the instant falls; weekday
    is [(n + 6) mod 7], which makes Monday 0 and Sunday 6; and week is the
    ISO 8601 week number of that day. *)
Theorem time_row_calendar_fields (e : Event.t) (t : pd.Timestamp) :
  pd.to_datetime (Event.ts e) = Ok t ->
  let r := time_row t in
  let n := calendar.epoch_ord + Event.ts e / pd.ms_per_day in
  r = time_row (pd.mkTimestamp (Event.ts e))
  /\ Time.start_time r = Event.ts e
  /\ calendar.valid_date (Time.year r) (Time.month r) (Time.day r)
  /\ calendar.ymd2ord (Time.year r) (Time.month r) (Time.day r) = n
  /\ 0 <= Time.hour r < 24
  /\ (n - calendar.epoch_ord) * pd.ms_per_day + Time.hour r * pd.ms_per_hour
     <= Event.ts e
     < (n - calendar.epoch_ord) * pd.ms_per_day
       + (Time.hour r + 1) * pd.ms_per_hour
  /\ Time.weekday r = (n + 6) mod 7
  /\ calendar.iso_week_of n (Time.week r).
Proof.
  intros Hconv r n. apply to_datetime_Ok in Hconv. destruct Hconv as [-> _].
  subst r. unfold time_row. cbn [Time.start_time Time.year Time.month Time.day
    Time.hour Time.weekday Time.week pd.value].
  unfold pd.dayofweek, pd.week.
  unfold pd.year, pd.month, pd.day, pd.hour, pd.days.
  cbn [pd.value].
  destruct (civil_from_days_spec (Event.ts e / pd.ms_per_day)) as [Hv Ho].
  assert (Hn : Event.ts e / pd.ms_per_day + 719163 = n)
    by (unfold n, calendar.epoch_ord; lia).
  rewrite Hn in Ho.
  split; [reflexivity|]. split; [reflexivity|].
  split; [exact Hv|]. split; [exact Ho|].
  split; [|split; [|split]].
  - unfold pd.ms_per_day, pd.ms_per_hour. divmod.
  - unfold n, calendar.epoch_ord, pd.ms_per_day, pd.ms_per_hour. divmod.
  - rewrite dayofweek_ymd_spec by apply Hv. rewrite Ho. reflexivity.
  - rewrite <- Ho. apply get_week_of_year_spec, Hv.
Qed.

(** The play of 2018-11-01 21:01:46.796, a Thursday in week 44. *)
Lemma time_row_calendar_fields_witness :
  let r := time_row (pd.mkTimestamp 1541106106796) in
  let n := calendar.epoch_ord + Event.ts sample.play1 / pd.ms_per_day in
  r = time_row (pd.mkTimestamp (Event.ts sample.play1))
  /\ Time.start_time r = Event.ts sample.play1
  /\ calendar.valid_date (Time.year r) (Time.month r) (Time.day r)
  /\ calendar.ymd2ord (Time.year r) (Time.month r) (Time.day r) = n
  /\ 0 <= Time.hour r < 24
  /\ (n - calendar.epoch_ord) * pd.ms_per_day + Time.hour r * pd.ms_per_hour
     <= Event.ts sample.play1
     < (n - calendar.epoch_ord) * pd.ms_per_day
       + (Time.hour r + 1) * pd.ms_per_hour
  /\ Time.weekday r = (n + 6) mod 7
  /\ calendar.iso_week_of n (Time.week r).
Proof.
  apply (time_row_calendar_fields sample.play1 (pd.mkTimestamp 1541106106796)).
  reflexivity.
Defined.

Example time_row_sample :
  time_row (pd.mkTimestamp 1541106106796)
  = Time.mk 1541106106796 21 1 44 11 2018 3.
Proof. reflexivity. Qed.

(** Around the turn of a year: 2016-01-03 is a Sunday of week 53, and
    2018-12-31 is a Monday of week 1. *)
Example time_row_year_end :
  time_row (pd.mkTimestamp 1451779200000)
  = Time.mk 1451779200000 0 3 53 1 2016 6
  /\ time_row (pd.mkTimestamp 1546300799999)
     = Time.mk 1546300799999 23 31 1 12 2018 0.
Proof. split; reflexivity. Qed.

(** Outside the range of a [Timestamp] the conversion raises. *)
Example to_datetime_out_of_bounds :
  pd.to_datetime 9223372036855 = Err (MalformedRecordError "OutOfBoundsDatetime").
Proof. reflexivity. Qed.

(** ** A log file whose plays all resolve *)

Lemma song_select_ext (d d' : db) (song artist : string) (length : Q) :
  songs d = songs d' -> artists d = artists d' ->
  song_select d song artist length = song_select d' song artist length.
Proof. unfold song_select. intros -> ->. reflexivity. Qed.

Lemma songplay_data_ext (d d' : db) (e : Event.t) (t : pd.Timestamp) :
  songs d = songs d' -> artists d = artists d' ->
  songplay_data d e t = songplay_data d' e t.
Proof.
  intros Hs Ha. unfold songplay_data.
  rewrite (song_select_ext d d' _ _ _ Hs Ha). reflexivity.
Qed.

Lemma fold_time_table_insert_frame (rows : list Time.t) (d : db) :
  songs (fold_left time_table_insert rows d) = songs d
  /\ artists (fold_left time_table_insert rows d) = artists d
  /\ users (fold_left time_table_insert rows d) = users d
  /\ songplays (fold_left time_table_insert rows d) = songplays d.
Proof.
  revert d. induction rows as [|r rows IH]; intros d; simpl; [auto|].
  destruct (IH (time_table_insert d r)) as (H1 & H2 & H3 & H4).
  rewrite H1, H2, H3, H4. unfold time_table_insert.
  case_bool_decide; auto.
Qed.

Lemma fold_user_table_insert_frame (rows : list User.t) (d : db) :
  songs (fold_left user_table_insert rows d) = songs d
  /\ artists (fold_left user_table_insert rows d) = artists d
  /\ time (fold_left user_table_insert rows d) = time d
  /\ songplays (fold_left user_table_insert rows d) = songplays d.
Proof.
  revert d. induction rows as [|r rows IH]; intros d; simpl; [auto|].
  destruct (IH (user_table_insert d r)) as (H1 & H2 & H3 & H4).
  rewrite H1, H2, H3, H4. auto.
Qed.

Lemma traverse_to_datetime (df : list Event.t) :
  (forall e, e ∈ df -> pd.min_ms <= Event.ts e <= pd.max_ms) ->
  traverse (fun e => pd.to_datetime (Event.ts e)) df
  = Ok (map (fun e => pd.mkTimestamp (Event.ts e)) df).
Proof.
  induction df as [|e df IH]; intros Hr; simpl; [reflexivity|].
  assert (He : pd.to_datetime (Event.ts e) = Ok (pd.mkTimestamp (Event.ts e))).
  { unfold pd.to_datetime.
    destruct (Hr e (list_elem_of_here _ _)) as [Hlo Hhi].
    apply Z.leb_le in Hlo, Hhi. rewrite Hlo, Hhi. reflexivity. }
  rewrite He. simpl. rewrite IH; [reflexivity|].
  intros e' He'. apply Hr, list_elem_of_further, He'.
Qed.

Lemma insert_songplay_match (cur : db) (e : Event.t) (t : pd.Timestamp) :
  song_select cur (Event.song e) (Event.artist e) (Event.length e) <> [] ->
  int_range (Event.userId e) -> int_range (Event.sessionId e) ->
  insert_songplay cur (e, t)
  = Ok (mkdb (songs cur) (artists cur) (users cur) (time cur)
             (songplays cur ++ [songplay_data cur e t])).
Proof.
  intros Hsel Hu Hs. unfold insert_songplay, songplay_table_insert.
  cbn [fst snd]. unfold songplay_data.
  destruct (song_select cur (Event.song e) (Event.artist e) (Event.length e))
    as [|[sid aid] more]; [contradiction|].
  cbn [fetchone head SongPlay.user_id SongPlay.session_id SongPlay.song_id
       SongPlay.artist_id].
  rewrite (int4_in_range _ Hu), (int4_in_range _ Hs). reflexivity.
Qed.

(** An INSERT into songplays that is accepted: the lookup found a pair
    and the integers fit. *)
Lemma insert_songplay_Ok (cur cur' : db) (e : Event.t) (t : pd.Timestamp) :
  insert_songplay cur (e, t) = Ok cur' ->
  song_select cur (Event.song e) (Event.artist e) (Event.length e) <> []
  /\ int_range (Event.userId e) /\ int_range (Event.sessionId e)
  /\ cur' = mkdb (songs cur) (artists cur) (users cur) (time cur)
                 (songplays cur ++ [songplay_data cur e t]).
Proof.
  intros H.
  destruct (decide (int_range (Event.userId e))) as [Hu|Hu].
  - destruct (decide (int_range (Event.sessionId e))) as [Hs|Hs].
    + destruct (song_select cur (Event.song e) (Event.artist e)
                  (Event.length e)) as [|p more] eqn:Hsel.
      * destruct (insert_songplay_no_match cur e t Hsel) as (_ & _ & Herr).
        rewrite (Herr Hu Hs) in H. discriminate.
      * assert (Hne : song_select cur (Event.song e) (Event.artist e)
                        (Event.length e) <> [])
          by (rewrite Hsel; discriminate).
        rewrite (insert_songplay_match cur e t Hne Hu Hs) in H.
        inversion H. split; [discriminate|]. split; [exact Hu|].
        split; [exact Hs | reflexivity].
    + exfalso. unfold insert_songplay, songplay_table_insert in H.
      cbn [fst snd] in H. unfold songplay_data in H.
      destruct (fetchone _) as [[sid aid]|];
        cbn [SongPlay.user_id SongPlay.session_id] in H;
        rewrite (int4_in_range _ Hu), (int4_out_of_range _ Hs) in H;
        discriminate.
  - exfalso. unfold insert_songplay, songplay_table_insert in H.
    cbn [fst snd] in H. unfold songplay_data in H.
    destruct (fetchone _) as [[sid aid]|];
      cbn [SongPlay.user_id] in H;
      rewrite (int4_out_of_range _ Hu) in H; discriminate.
Qed.

(** The outcome of an INSERT into songplays depends on the songs and
    artists tables only. *)
Lemma insert_songplay_ext (c c' : db) (row : Event.t * pd.Timestamp) :
  songs c' = songs c -> artists c' = artists c ->
  (exists err, insert_songplay c row = Err err
               /\ insert_songplay c' row = Err err)
  \/ (insert_songplay c row
      = Ok (mkdb (songs c) (artists c) (users c) (time c)
                 (songplays c ++ [songplay_data c (fst row) (snd row)]))
      /\ insert_songplay c' row
         = Ok (mkdb (songs c') (artists c') (users c') (time c')
                    (songplays c' ++ [songplay_data c (fst row) (snd row)]))).
Proof.
  intros Hs Ha. destruct row as [e t]. cbn [fst snd].
  assert (Hd : songplay_data c' e t = songplay_data c e t)
    by (apply songplay_data_ext; assumption).
  destruct (insert_songplay c (e, t)) as [c1|err] eqn:H.
  - apply insert_songplay_Ok in H. destruct H as (Hne & Hu & Hss & ->).
    right. split; [reflexivity|].
    rewrite insert_songplay_match, Hd; auto.
    rewrite (song_select_ext c' c) by assumption. exact Hne.
  - left. exists err. split; [reflexivity|].
    unfold insert_songplay in *. cbn [fst snd] in *. rewrite Hd.
    unfold songplay_table_insert in *.
    destruct (int4 (SongPlay.user_id (songplay_data c e t)));
      cbn [mbind result_bind] in *; [|exact H].
    destruct (int4 (SongPlay.session_id (songplay_data c e t)));
      cbn [mbind result_bind] in *; [|exact H].
    destruct (SongPlay.song_id (songplay_data c e t)),
      (SongPlay.artist_id (songplay_data c e t)); try discriminate; exact H.
Qed.

Lemma for_each_insert_songplay (rows : list (Event.t * pd.Timestamp)) :
  forall cur : db,
    (forall row, row ∈ rows ->
       song_select cur (Event.song (fst row)) (Event.artist (fst row))
                   (Event.length (fst row)) <> []
       /\ int_range (Event.userId (fst row))
       /\ int_range (Event.sessionId (fst row))) ->
    exists cur',
      for_each insert_songplay cur rows = Ok cur'
      /\ songs cur' = songs cur /\ artists cur' = artists cur
      /\ users cur' = users cur /\ time cur' = time cur
      /\ songplays cur'
         = songplays cur
           ++ map (fun row => songplay_data cur (fst row) (snd row)) rows.
Proof.
  induction rows as [|[e t] rows IH]; intros cur Hres.
  - exists cur. simpl. rewrite app_nil_r. auto 10.
  - destruct (Hres (e, t) (list_elem_of_here _ _)) as (Hsel & Hu & Hs).
    cbn [fst snd] in Hsel, Hu, Hs. cbn [for_each].
    rewrite (insert_songplay_match cur e t Hsel Hu Hs).
    set (cur1 := mkdb (songs cur) (artists cur) (users cur) (time cur)
                      (songplays cur ++ [songplay_data cur e t])).
    destruct (IH cur1) as (cur' & Hrun & H1 & H2 & H3 & H4 & H5).
    { intros row Hrow.
      rewrite (song_select_ext cur1 cur) by reflexivity.
      apply Hres, list_elem_of_further, Hrow. }
    exists cur'. split; [exact Hrun|].
    repeat split; try assumption.
    rewrite H5. subst cur1. cbn [songplays map fst snd].
    rewrite <- app_assoc. reflexivity.
Qed.

Lemma insert_user_unfold (cur : db) (r : User.t) :
  insert_user cur r = (u ← users_row r; Ok (user_table_insert cur u)).
Proof. reflexivity. Qed.

(** The loop over the rows of [user_df]: every row is coerced and
    applied, or the first row that a column refuses raises. *)
Lemma for_each_insert_user (rows : list User.t) :
  forall cur : db,
    (forall r, r ∈ rows -> int_range (User.user_id r) /\ fits 1 (User.gender r)) ->
    for_each insert_user cur rows
    = Ok (fold_left user_table_insert (map stored_user rows) cur).
Proof.
  induction rows as [|r rows IH]; intros cur Hty; [reflexivity|].
  cbn [for_each map fold_left]. rewrite insert_user_unfold.
  destruct (Hty r (list_elem_of_here _ _)) as [Hu Hg].
  rewrite (users_row_fits r Hu Hg). cbn [mbind result_bind].
  apply IH. intros x Hx. apply Hty, list_elem_of_further, Hx.
Qed.

Lemma for_each_insert_user_Ok (rows : list User.t) :
  forall cur cur' : db,
    for_each insert_user cur rows = Ok cur' ->
    (forall r, r ∈ rows -> int_range (User.user_id r) /\ fits 1 (User.gender r))
    /\ cur' = fold_left user_table_insert (map stored_user rows) cur.
Proof.
  induction rows as [|r rows IH]; intros cur cur' H.
  - cbn [for_each] in H. inversion H. split; [|reflexivity].
    intros x Hx. apply elem_of_nil in Hx. contradiction.
  - cbn [for_each] in H. rewrite insert_user_unfold in H.
    destruct (users_row r) as [u|err] eqn:Hr; [|discriminate].
    cbn [mbind result_bind] in H.
    apply users_row_Ok in Hr. destruct Hr as (-> & Hu & Hg).
    destruct (IH _ _ H) as [Hty ->]. split; [|reflexivity].
    intros x Hx. apply elem_of_cons in Hx. destruct Hx as [->|Hx]; auto.
Qed.

(** Whether the rows are taken does not depend on the database. *)
Lemma for_each_insert_user_Err (rows : list User.t) (err : error) :
  forall cur cur' : db,
    for_each insert_user cur rows = Err err ->
    for_each insert_user cur' rows = Err err.
Proof.
  induction rows as [|r rows IH]; intros cur cur' H; [discriminate|].
  cbn [for_each] in *. rewrite insert_user_unfold in *.
  destruct (users_row r) as [u|e]; cbn [mbind result_bind] in *;
    [|exact H].
  eapply IH, H.
Qed.

Lemma zip_map_r {A B : Type} (f : A -> B) (l : list A) :
  zip l (map f l) = map (fun x => (x, f x)) l.
Proof. induction l as [|x l IH]; simpl; [reflexivity | rewrite IH; reflexivity]. Qed.

(** X1: when every retained event of a log file has a timestamp in range,
    values that the columns take, and finds a Song/Artist pair, the file
    is processed without error, the events with another page are dropped,
    and the songplays table gains exactly one row per NextSong event, in
    the order of the file, each with the ids its lookup found; repeated
    plays are not merged. *)
Theorem process_log_file_resolved_plays (fs : node) (cur : db)
    (filepath : path) (e0 : Event.t) (es : list Event.t) :
  read_json fs filepath = Ok (LogFile (e0 :: es)) ->
  (forall e, e ∈ next_song (e0 :: es) ->
     pd.min_ms <= Event.ts e <= pd.max_ms) ->
  (forall e, e ∈ next_song (e0 :: es) -> typed e) ->
  (forall e, e ∈ next_song (e0 :: es) ->
     song_select cur (Event.song e) (Event.artist e) (Event.length e) <> []) ->
  exists cur',
    process_log_file fs cur filepath = Ok cur'
    /\ songs cur' = songs cur /\ artists cur' = artists cur
    /\ songplays cur'
       = songplays cur
         ++ map (fun e => songplay_data cur e (pd.mkTimestamp (Event.ts e)))
                (next_song (e0 :: es))
    /\ length (songplays cur')
       = (length (songplays cur)
          + length (filter (fun e => Event.page e = "NextSong") (e0 :: es)))%nat.
Proof.
  intros Hread Hts Hty Hres. unfold process_log_file. rewrite Hread.
  cbn [mbind result_bind].
  fold (next_song (e0 :: es)).
  rewrite (traverse_to_datetime _ Hts). cbn [mbind result_bind].
  set (df := next_song (e0 :: es)) in *.
  set (tss := map (fun e => pd.mkTimestamp (Event.ts e)) df).
  set (cur1 := fold_left time_table_insert (time_df tss) cur).
  rewrite (for_each_insert_user (user_df df) cur1).
  2:{ intros r Hr. unfold user_df in Hr.
      apply elem_of_drop_duplicates, list_elem_of_In, in_map_iff in Hr.
      destruct Hr as (e & <- & He). apply list_elem_of_In in He.
      destruct (Hty e He) as (Hu & Hg & _). split; assumption. }
  cbn [mbind result_bind].
  set (cur2 := fold_left user_table_insert (map stored_user (user_df df)) cur1).
  destruct (fold_time_table_insert_frame (time_df tss) cur) as (Ht1 & Ht2 & _ & Ht4).
  destruct (fold_user_table_insert_frame (map stored_user (user_df df)) cur1)
    as (Hu1 & Hu2 & _ & Hu4).
  fold cur1 in Ht1, Ht2, Ht4. fold cur2 in Hu1, Hu2, Hu4.
  assert (Hs : songs cur2 = songs cur) by congruence.
  assert (Ha : artists cur2 = artists cur) by congruence.
  assert (Hp : songplays cur2 = songplays cur) by congruence.
  destruct (for_each_insert_songplay (zip df tss) cur2)
    as (cur' & Hrun & H1 & H2 & _ & _ & H5).
  { intros [e t] Hrow. cbn [fst].
    unfold tss in Hrow. rewrite zip_map_r in Hrow.
    apply list_elem_of_In, in_map_iff in Hrow.
    destruct Hrow as (e' & Heq & He'). inversion Heq; subst e'.
    apply list_elem_of_In in He'.
    destruct (Hty e He') as (Hu & _ & Hss).
    rewrite (song_select_ext cur2 cur _ _ _ Hs Ha). auto. }
  exists cur'. split; [exact Hrun|].
  assert (Hrows : songplays cur'
                  = songplays cur
                    ++ map (fun e => songplay_data cur e (pd.mkTimestamp (Event.ts e)))
                           df).
  { rewrite H5, Hp. f_equal. unfold tss. rewrite zip_map_r, map_map.
    apply map_ext. intros e. simpl. apply songplay_data_ext; assumption. }
  split; [congruence|]. split; [congruence|]. split; [exact Hrows|].
  rewrite Hrows, length_app, length_map. reflexivity.
Qed.

(** The sample log file [home; play1; play1]: two rows, both with the
    ids of [song1]. *)
Lemma process_log_file_resolved_plays_witness :
  exists cur',
    process_log_file sample.fs_resolved sample_songs_loaded
      (sample.cwd ++ sample.log_path ++ ["l.json"]) = Ok cur'
    /\ songs cur' = songs sample_songs_loaded
    /\ artists cur' = artists sample_songs_loaded
    /\ songplays cur'
       = songplays sample_songs_loaded
         ++ map (fun e => songplay_data sample_songs_loaded e
                            (pd.mkTimestamp (Event.ts e)))
                (next_song [sample.home; sample.play1; sample.play1])
    /\ length (songplays cur')
       = (length (songplays sample_songs_loaded)
          + length (filter (fun e => Event.page e = "NextSong")
                           [sample.home; sample.play1; sample.play1]))%nat.
Proof.
  apply (process_log_file_resolved_plays sample.fs_resolved
           sample_songs_loaded _ sample.home [sample.play1; sample.play1]).
  - reflexivity.
  - intros e He. vm_compute in He.
    apply elem_of_cons in He. destruct He as [->|He]; [vm_compute; split; discriminate|].
    apply list_elem_of_singleton in He. subst e. vm_compute; split; discriminate.
  - intros e He. vm_compute in He.
    assert (Hp : typed sample.play1).
    { unfold typed, int_range, fits. vm_compute.
      repeat split; try discriminate. lia. }
    apply elem_of_cons in He. destruct He as [->|He]; [exact Hp|].
    apply list_elem_of_singleton in He. subst e. exact Hp.
  - intros e He. vm_compute in He.
    apply elem_of_cons in He. destruct He as [->|He]; [vm_compute; discriminate|].
    apply list_elem_of_singleton in He. subst e. vm_compute; discriminate.
Defined.

(** A notebook checkpoint with a JSON name is found by the walk and then
    dropped by the filter on the path. *)
Example all_files_skips_checkpoints :
  all_files sample.fs_checkpoint sample.cwd sample.song_path = [].
Proof. reflexivity. Qed.

(** ** What a run keeps *)

(** A property that every processed file keeps holds of every state the
    loop commits and of the state it ends in, with nothing left
    uncommitted. *)
Lemma process_files_invariant (func : db -> path -> result db)
    (P : db -> Prop) :
  (forall d f d', P d -> func d f = Ok d' -> P d') ->
  forall (files : list path) (n i : nat) (d : db),
    P d ->
    exists D, conn (process_files func n i files (mkconn d d)) = mkconn D D
              /\ P D
              /\ (forall D', Commit D' ∈ trace (process_files func n i files
                                                   (mkconn d d)) -> P D').
Proof.
  intros Hstep files. induction files as [|f files IH]; intros n i d Hd;
    cbn [process_files cursor committed].
  - exists d. cbn [conn trace]. repeat split; auto.
    intros D' HD'. apply elem_of_nil in HD'. contradiction.
  - destruct (func d f) as [d1|e] eqn:Hf.
    + assert (Hd1 : P d1) by (eapply Hstep; eauto).
      destruct (IH n (S i) d1 Hd1) as (D & Hc & HD & Htr).
      exists D. cbn [conn trace]. repeat split; auto.
      intros D' HD'. apply elem_of_cons in HD'.
      destruct HD' as [HD'|HD']; [inversion HD'; subst D'; exact Hd1|].
      apply elem_of_cons in HD'. destruct HD' as [HD'|HD']; [discriminate|].
      apply Htr, HD'.
    + exists d. cbn [conn trace]. repeat split; auto.
      intros D' HD'. apply elem_of_nil in HD'. contradiction.
Qed.

Lemma process_data_invariant (fs : node) (cwd filepath : path)
    (func : node -> db -> path -> result db) (P : db -> Prop) (d : db) :
  (forall d f d', P d -> func fs d f = Ok d' -> P d') ->
  P d ->
  exists D, conn (process_data fs cwd (mkconn d d) filepath func) = mkconn D D
            /\ P D
            /\ (forall D', Commit D' ∈ trace (process_data fs cwd (mkconn d d)
                                                 filepath func) -> P D').
Proof.
  intros Hstep Hd. unfold process_data. cbn [conn trace].
  destruct (process_files_invariant (func fs) P Hstep
              (all_files fs cwd filepath)
              (length (all_files fs cwd filepath)) 1%nat d Hd)
    as (D & Hc & HD & Htr).
  exists D. repeat split; auto.
  intros D' HD'. apply elem_of_cons in HD'.
  destruct HD' as [HD'|HD']; [discriminate | apply Htr, HD'].
Qed.

(** A property that both kinds of file keep holds of every state that
    [main] commits and of the state it ends in. *)
Lemma main_invariant (fs : node) (cwd : path) (P : db -> Prop) (d : db) :
  (forall d f d', P d -> process_song_file fs d f = Ok d' -> P d') ->
  (forall d f d', P d -> process_log_file fs d f = Ok d' -> P d') ->
  P d ->
  exists D, conn (main fs cwd d) = mkconn D D /\ P D
            /\ (forall D', Commit D' ∈ trace (main fs cwd d) -> P D').
Proof.
  intros Hsong Hlog Hd. unfold main, connect.
  destruct (process_data_invariant fs cwd ["data"; "song_data"]
              process_song_file P d Hsong Hd) as (D1 & Hc1 & HD1 & Htr1).
  destruct (raised (process_data fs cwd (mkconn d d) ["data"; "song_data"]
                      process_song_file)).
  - exists D1. auto.
  - cbn [conn trace]. rewrite Hc1.
    destruct (process_data_invariant fs cwd ["data"; "log_data"]
                process_log_file P D1 Hlog HD1) as (D2 & Hc2 & HD2 & Htr2).
    exists D2. repeat split; auto.
    intros D' HD'. apply elem_of_app in HD'. destruct HD'; auto.
Qed.

(** ** The steps of [process_log_file] *)

Lemma time_table_insert_time (d : db) (r : Time.t) :
  time (time_table_insert d r) = time_insert (time d) r.
Proof.
  unfold time_table_insert, time_insert. case_bool_decide; reflexivity.
Qed.

Lemma fold_time_table_insert_time (rows : list Time.t) (d : db) :
  time (fold_left time_table_insert rows d)
  = fold_left time_insert rows (time d).
Proof.
  revert d. induction rows as [|r rows IH]; intros d; simpl; [reflexivity|].
  rewrite IH, time_table_insert_time. reflexivity.
Qed.

Lemma traverse_to_datetime_Ok (df : list Event.t) (tss : list pd.Timestamp) :
  traverse (fun e => pd.to_datetime (Event.ts e)) df = Ok tss ->
  tss = map event_time df
  /\ (forall e, e ∈ df -> pd.min_ms <= Event.ts e <= pd.max_ms).
Proof.
  revert tss. induction df as [|e df IH]; intros tss; simpl.
  - intros H. inversion H. split; [reflexivity|].
    intros e He. apply elem_of_nil in He. contradiction.
  - destruct (pd.to_datetime (Event.ts e)) as [t|err] eqn:Ht; simpl;
      [|discriminate].
    destruct (traverse _ df) as [ts'|err] eqn:Htr; simpl; [|discriminate].
    intros H. inversion H; subst tss.
    destruct (IH ts' eq_refl) as [-> Hr].
    apply to_datetime_Ok in Ht. destruct Ht as [-> Hb]. split; [reflexivity|].
    intros e' He'. apply elem_of_cons in He'. destruct He' as [->|He']; auto.
Qed.

(** The loop over the plays, when it ends without error: every play
    found a pair and was taken, and the rows are appended in order. *)
Lemma for_each_insert_songplay_Ok (rows : list (Event.t * pd.Timestamp)) :
  forall cur cur' : db,
    for_each insert_songplay cur rows = Ok cur' ->
    (forall row, row ∈ rows ->
       song_select cur (Event.song (fst row)) (Event.artist (fst row))
                   (Event.length (fst row)) <> []
       /\ int_range (Event.userId (fst row))
       /\ int_range (Event.sessionId (fst row)))
    /\ songs cur' = songs cur /\ artists cur' = artists cur
    /\ users cur' = users cur /\ time cur' = time cur
    /\ songplays cur'
       = songplays cur
         ++ map (fun row => songplay_data cur (fst row) (snd row)) rows.
Proof.
  induction rows as [|[e t] rows IH]; intros cur cur' Hrun.
  - simpl in Hrun. inversion Hrun; subst cur'. simpl. rewrite app_nil_r.
    split; [|repeat split; reflexivity].
    intros row Hrow. apply elem_of_nil in Hrow. contradiction.
  - cbn [for_each] in Hrun.
    destruct (insert_songplay cur (e, t)) as [c1|err] eqn:Hins;
      [|discriminate].
    cbn [mbind result_bind] in Hrun.
    apply insert_songplay_Ok in Hins. destruct Hins as (Hne & Hu & Hs & ->).
    set (cur1 := mkdb (songs cur) (artists cur) (users cur) (time cur)
                      (songplays cur ++ [songplay_data cur e t])) in Hrun.
    destruct (IH cur1 cur' Hrun) as (Hres & H1 & H2 & H3 & H4 & H5).
    split; [|split; [exact H1|split; [exact H2|split; [exact H3|
             split; [exact H4|]]]]].
    + intros row Hrow. apply elem_of_cons in Hrow.
      destruct Hrow as [->|Hrow]; [cbn [fst]; auto|].
      rewrite (song_select_ext cur cur1) by reflexivity.
      apply (Hres row Hrow).
    + rewrite H5. subst cur1. cbn [songplays map fst snd].
      rewrite <- app_assoc. reflexivity.
Qed.

(** A log file that is processed without error, step by step. *)
Lemma process_log_file_Ok (fs : node) (cur cur' : db) (filepath : path) :
  process_log_file fs cur filepath = Ok cur' ->
  exists e0 es,
    read_json fs filepath = Ok (LogFile (e0 :: es))
    /\ (forall e, e ∈ next_song (e0 :: es) ->
          pd.min_ms <= Event.ts e <= pd.max_ms)
    /\ (forall e, e ∈ next_song (e0 :: es) ->
          typed e
          /\ song_select cur (Event.song e) (Event.artist e) (Event.length e)
             <> [])
    /\ songs cur' = songs cur /\ artists cur' = artists cur
    /\ users cur'
       = fold_left upsert_user
           (map stored_user (user_df (next_song (e0 :: es)))) (users cur)
    /\ time cur'
       = fold_left time_insert
           (time_df (map event_time (next_song (e0 :: es)))) (time cur)
    /\ songplays cur'
       = songplays cur
         ++ map (fun e => songplay_data cur e (event_time e))
                (next_song (e0 :: es)).
Proof.
  unfold process_log_file.
  destruct (read_json fs filepath) as [[recs|[|e0 es]]|err] eqn:Hread;
    cbn [mbind result_bind]; try discriminate.
  fold (next_song (e0 :: es)).
  destruct (traverse (fun e => pd.to_datetime (Event.ts e))
                     (next_song (e0 :: es))) as [tss|err] eqn:Htr;
    cbn [mbind result_bind]; [|discriminate].
  destruct (traverse_to_datetime_Ok _ _ Htr) as [-> Hrange].
  set (df := next_song (e0 :: es)) in *.
  set (cur1 := fold_left time_table_insert (time_df (map event_time df)) cur).
  destruct (for_each insert_user cur1 (user_df df)) as [cur2|err] eqn:Husers;
    cbn [mbind result_bind]; [|discriminate].
  apply for_each_insert_user_Ok in Husers. destruct Husers as [Hty Hcur2].
  intros Hrun.
  destruct (for_each_insert_songplay_Ok _ _ _ Hrun)
    as (Hres & H1 & H2 & H3 & H4 & H5).
  destruct (fold_time_table_insert_frame (time_df (map event_time df)) cur)
    as (Ht1 & Ht2 & Ht3 & Ht4).
  destruct (fold_user_table_insert_frame (map stored_user (user_df df)) cur1)
    as (Hu1 & Hu2 & Hu3 & Hu4).
  fold cur1 in Ht1, Ht2, Ht3, Ht4. rewrite <- Hcur2 in Hu1, Hu2, Hu3, Hu4.
  assert (Hs : songs cur2 = songs cur) by congruence.
  assert (Ha : artists cur2 = artists cur) by congruence.
  exists e0, es. split; [reflexivity|]. split; [exact Hrange|].
  split; [|split; [congruence|split; [congruence|split; [|split]]]].
  - intros e He.
    destruct (Hres (e, event_time e)) as (Hsel & Hu & Hss).
    { rewrite zip_map_r. apply list_elem_of_In, in_map_iff.
      exists e. split; [reflexivity | apply list_elem_of_In, He]. }
    cbn [fst] in Hsel, Hu, Hss.
    destruct (Hty (user_row e)) as [_ Hg].
    { unfold user_df.
      apply elem_of_drop_duplicates, list_elem_of_In, in_map, list_elem_of_In,
        He. }
    split; [unfold typed; auto|].
    rewrite <- (song_select_ext cur2 cur _ _ _ Hs Ha). exact Hsel.
  - rewrite H3, Hcur2, fold_user_table_insert_users.
    fold cur1. rewrite Ht3. reflexivity.
  - rewrite H4, Hu3. unfold cur1. apply fold_time_table_insert_time.
  - rewrite H5, Hu4, Ht4. f_equal. rewrite zip_map_r, map_map.
    apply map_ext. intros e. cbn [fst snd].
    apply songplay_data_ext; assumption.
Qed.

(** ** What each phase touches *)

Lemma load_song_frame (d : db) (r : SongRecord.t) :
  songs d `prefix_of` songs (load_song d r)
  /\ artists d `prefix_of` artists (load_song d r)
  /\ (length (songs (load_song d r)) <= S (length (songs d)))%nat
  /\ (length (artists (load_song d r)) <= S (length (artists d)))%nat
  /\ users (load_song d r) = users d
  /\ time (load_song d r) = time d
  /\ songplays (load_song d r) = songplays d.
Proof.
  unfold load_song, artist_table_insert, song_table_insert.
  repeat case_bool_decide; cbn [songs artists users time songplays];
    rewrite ?length_app; cbn [length];
    repeat split; try reflexivity; try lia;
    apply prefix_app_r; reflexivity.
Qed.

Lemma process_song_file_Ok (fs : node) (d d' : db) (f : path) :
  process_song_file fs d f = Ok d' -> exists r, d' = load_song d r.
Proof.
  destruct (process_song_file_cases fs f) as [[e He]|[r Hr]].
  - rewrite He. discriminate.
  - rewrite Hr. intros H. inversion H. eauto.
Qed.

(** The song files only append to songs and artists, at most one row per
    file. *)
Lemma process_files_song_frame (fs : node) (n : nat) (files : list path) :
  forall (i : nat) (d : db),
    let D := committed (conn (process_files (process_song_file fs) n i files
                                (mkconn d d))) in
    songs d `prefix_of` songs D
    /\ artists d `prefix_of` artists D
    /\ (length (songs D) <= length (songs d) + length files)%nat
    /\ (length (artists D) <= length (artists d) + length files)%nat
    /\ users D = users d /\ time D = time d /\ songplays D = songplays d.
Proof.
  induction files as [|f files IH]; intros i d D; subst D;
    cbn [process_files cursor committed].
  - cbn [conn committed length]. repeat split; try reflexivity; lia.
  - destruct (process_song_file_cases fs f) as [[e He]|[r Hr]].
    + rewrite He. cbn [conn committed length].
      repeat split; try reflexivity; lia.
    + rewrite Hr. cbn [conn].
      destruct (load_song_frame d r) as (A1 & A2 & A3 & A4 & A5 & A6 & A7).
      destruct (IH (S i) (load_song d r))
        as (B1 & B2 & B3 & B4 & B5 & B6 & B7).
      cbn [length]. repeat split; try congruence; try lia.
      * etrans; eassumption.
      * etrans; eassumption.
Qed.

Lemma same_person_refl (u : User.t) : same_person u u.
Proof. unfold same_person. auto. Qed.

Lemma same_person_trans (u1 u2 u3 : User.t) :
  same_person u1 u2 -> same_person u2 u3 -> same_person u1 u3.
Proof. unfold same_person. intuition congruence. Qed.

Lemma users_kept_refl (t : list User.t) : users_kept t t.
Proof. intros i u Hi. exists u. split; [exact Hi | apply same_person_refl]. Qed.

Lemma users_kept_trans (t1 t2 t3 : list User.t) :
  users_kept t1 t2 -> users_kept t2 t3 -> users_kept t1 t3.
Proof.
  intros H12 H23 i u Hi.
  destruct (H12 i u Hi) as (u2 & Hi2 & Hp2).
  destruct (H23 i u2 Hi2) as (u3 & Hi3 & Hp3).
  exists u3. split; [exact Hi3 | eapply same_person_trans; eauto].
Qed.

Lemma upsert_user_kept (t : list User.t) (r : User.t) :
  users_kept t (upsert_user t r).
Proof.
  intros i u Hi. rewrite upsert_user_unfold. case_bool_decide as Hin.
  - exists (relevel r u). split.
    + change (map (relevel r) t) with (relevel r <$> t).
      rewrite list_lookup_fmap, Hi. reflexivity.
    + unfold relevel, same_person. case_bool_decide; simpl; auto.
  - exists u. split; [|apply same_person_refl].
    apply lookup_app_l_Some, Hi.
Qed.

Lemma fold_upsert_user_kept (rows t : list User.t) :
  users_kept t (fold_left upsert_user rows t).
Proof.
  revert t. induction rows as [|r rows IH]; intros t; simpl.
  - apply users_kept_refl.
  - eapply users_kept_trans; [apply upsert_user_kept | apply IH].
Qed.

Lemma time_insert_prefix (t : list Time.t) (r : Time.t) :
  t `prefix_of` time_insert t r.
Proof.
  unfold time_insert. case_bool_decide; [reflexivity|].
  apply prefix_app_r. reflexivity.
Qed.

Lemma fold_time_insert_prefix (rows t : list Time.t) :
  t `prefix_of` fold_left time_insert rows t.
Proof.
  revert t. induction rows as [|r rows IH]; intros t; simpl; [reflexivity|].
  etrans; [apply time_insert_prefix | apply IH].
Qed.

Lemma log_frame_refl (d : db) : log_frame d d.
Proof.
  unfold log_frame. repeat split; try reflexivity. apply users_kept_refl.
Qed.

Lemma log_frame_trans (d1 d2 d3 : db) :
  log_frame d1 d2 -> log_frame d2 d3 -> log_frame d1 d3.
Proof.
  intros (A1 & A2 & A3 & A4 & A5) (B1 & B2 & B3 & B4 & B5).
  unfold log_frame. repeat split; try congruence.
  - etrans; eassumption.
  - etrans; eassumption.
  - eapply users_kept_trans; eassumption.
Qed.

Lemma process_log_file_frame (fs : node) (d d' : db) (f : path) :
  process_log_file fs d f = Ok d' -> log_frame d d'.
Proof.
  intros H. apply process_log_file_Ok in H.
  destruct H as (e0 & es & _ & _ & _ & Hs & Ha & Hu & Ht & Hp).
  unfold log_frame. repeat split; try assumption.
  - rewrite Ht. apply fold_time_insert_prefix.
  - rewrite Hp. apply prefix_app_r. reflexivity.
  - rewrite Hu. apply fold_upsert_user_kept.
Qed.

Lemma process_data_log_frame (fs : node) (cwd filepath : path) (d : db) :
  exists D,
    conn (process_data fs cwd (mkconn d d) filepath process_log_file)
    = mkconn D D
    /\ log_frame d D.
Proof.
  destruct (process_data_invariant fs cwd filepath process_log_file
              (log_frame d) d) as (D & Hc & HD & _); [| |eauto].
  - intros d1 f d2 H1 H2. eapply log_frame_trans; [exact H1|].
    eapply process_log_file_frame, H2.
  - apply log_frame_refl.
Qed.

(** X2: the song phase of a run, over any directory: the songs and
    artists tables keep their rows and their order and gain at most one
    row per file found; users, time and songplays are not touched. *)
Theorem song_phase_appends_to_songs_and_artists_only
    (fs : node) (cwd filepath : path) (d : db) :
  let D := committed (conn (process_data fs cwd (connect d) filepath
                              process_song_file)) in
  let n := length (all_files fs cwd filepath) in
  songs d `prefix_of` songs D
  /\ artists d `prefix_of` artists D
  /\ (length (songs D) <= length (songs d) + n)%nat
  /\ (length (artists D) <= length (artists d) + n)%nat
  /\ users D = users d /\ time D = time d /\ songplays D = songplays d.
Proof.
  intros D n. subst D n. unfold process_data, connect. cbn [conn].
  apply process_files_song_frame.
Qed.

(** X3: the log phase of a run, over any directory: songs and artists
    are left as they are; the time and songplays tables keep their rows
    and their order; every user row stays at its place with its
    [user_id], [first_name], [last_name] and [gender]. *)
Theorem log_phase_keeps_songs_and_history
    (fs : node) (cwd filepath : path) (d : db) :
  let D := committed (conn (process_data fs cwd (connect d) filepath
                              process_log_file)) in
  songs D = songs d /\ artists D = artists d
  /\ time d `prefix_of` time D
  /\ songplays d `prefix_of` songplays D
  /\ (forall i u, users d !! i = Some u ->
        exists u', users D !! i = Some u'
          /\ User.user_id u' = User.user_id u
          /\ User.first_name u' = User.first_name u
          /\ User.last_name u' = User.last_name u
          /\ User.gender u' = User.gender u).
Proof.
  intros D. subst D. unfold connect.
  destruct (process_data_log_frame fs cwd filepath d) as (D & -> & HD).
  exact HD.
Qed.

(** X4: [main] as the composition of its two phases.  The songs and
    artists tables at the end are those the song phase committed: the
    log phase never changes them.  Every table keeps the rows it had, in
    their order (a user row up to its level).  When the song phase
    raises, the log files are never looked at: users, time and songplays
    end as they began. *)
Theorem main_song_phase_then_log_phase (fs : node) (cwd : path) (d : db) :
  let r1 := process_data fs cwd (connect d) ["data"; "song_data"]
                         process_song_file in
  let D := committed (conn (main fs cwd d)) in
  songs D = songs (committed (conn r1))
  /\ artists D = artists (committed (conn r1))
  /\ songs d `prefix_of` songs D
  /\ artists d `prefix_of` artists D
  /\ time d `prefix_of` time D
  /\ songplays d `prefix_of` songplays D
  /\ users_kept (users d) (users D)
  /\ (forall e, raised r1 = Some e ->
        main fs cwd d = r1
        /\ users D = users d /\ time D = time d
        /\ songplays D = songplays d).
Proof.
  intros r1 D.
  destruct (process_data_invariant fs cwd ["data"; "song_data"]
              process_song_file (fun _ => True) d) as (D1 & Hc1 & _);
    [auto | exact I |].
  pose proof (process_files_song_frame fs
                (length (all_files fs cwd ["data"; "song_data"]))
                (all_files fs cwd ["data"; "song_data"]) 1 d) as Hsong.
  cbv zeta in Hsong.
  change (committed (conn (process_files (process_song_file fs)
            (length (all_files fs cwd ["data"; "song_data"])) 1
            (all_files fs cwd ["data"; "song_data"]) (mkconn d d))))
    with (committed (conn r1)) in Hsong.
  destruct Hsong as (S1 & S2 & _ & _ & S5 & S6 & S7).
  subst D. unfold main. fold r1.
  destruct (raised r1) as [e|] eqn:Hr.
  - rewrite S5, S6, S7.
    split; [reflexivity|]. split; [reflexivity|].
    split; [exact S1|]. split; [exact S2|].
    split; [reflexivity|]. split; [reflexivity|].
    split; [apply users_kept_refl|]. auto.
  - cbn [conn]. change (conn r1 = mkconn D1 D1) in Hc1. rewrite Hc1 in *.
    cbn [committed] in *.
    destruct (process_data_log_frame fs cwd ["data"; "log_data"] D1)
      as (D2 & -> & L1 & L2 & L3 & L4 & L5).
    cbn [committed]. rewrite L1, L2, <- S5, <- S6, <- S7.
    split; [reflexivity|]. split; [reflexivity|].
    split; [exact S1|]. split; [exact S2|].
    split; [exact L3|]. split; [exact L4|]. split; [exact L5|].
    intros e He. discriminate.
Qed.

(** ** Keys and references *)

Lemma NoDup_snoc_fresh {A : Type} (l : list A) (x : A) :
  x ∉ l -> NoDup l -> NoDup (l ++ [x]).
Proof.
  intros Hx Hnd. apply NoDup_app. repeat split; auto.
  - intros k Hk Hk'. apply list_elem_of_singleton in Hk'. subst k. auto.
  - apply NoDup_singleton.
Qed.

Lemma load_song_keys_unique (d : db) (r : SongRecord.t) :
  keys_unique d -> keys_unique (load_song d r).
Proof.
  unfold keys_unique, load_song, artist_table_insert, song_table_insert.
  intros (H1 & H2 & H3 & H4).
  repeat case_bool_decide; cbn [songs artists users time songplays] in *;
    rewrite ?map_app; cbn [map]; repeat split;
    auto using NoDup_snoc_fresh.
Qed.

Lemma time_insert_NoDup (t : list Time.t) (r : Time.t) :
  NoDup (map Time.start_time t) ->
  NoDup (map Time.start_time (time_insert t r)).
Proof.
  intros Hnd. unfold time_insert. case_bool_decide; [exact Hnd|].
  rewrite map_app. apply NoDup_snoc_fresh; assumption.
Qed.

Lemma fold_time_insert_NoDup (rows t : list Time.t) :
  NoDup (map Time.start_time t) ->
  NoDup (map Time.start_time (fold_left time_insert rows t)).
Proof.
  revert t. induction rows as [|r rows IH]; intros t Hnd; simpl; [exact Hnd|].
  apply IH, time_insert_NoDup, Hnd.
Qed.

Lemma process_log_file_keys_unique (fs : node) (d d' : db) (f : path) :
  keys_unique d -> process_log_file fs d f = Ok d' -> keys_unique d'.
Proof.
  intros (H1 & H2 & H3 & H4) H. apply process_log_file_Ok in H.
  destruct H as (e0 & es & _ & _ & _ & Hs & Ha & Hu & Ht & _).
  unfold keys_unique. rewrite Hs, Ha, Hu, Ht.
  split; [exact H1|]. split; [exact H2|]. split.
  - apply fold_upsert_user_NoDup, H3.
  - apply fold_time_insert_NoDup, H4.
Qed.

(** X5: the primary keys stay keys.  From a database in which no two
    songs share a [song_id], no two artists an [artist_id], no two users
    a [user_id] and no two time rows a [start_time], every state that
    [main] commits, and the state it ends in, is such a database,
    whatever the files hold and wherever the run stops. *)
Theorem main_keeps_primary_keys (fs : node) (cwd : path) (d : db) :
  keys_unique d ->
  keys_unique (committed (conn (main fs cwd d)))
  /\ (forall D, Commit D ∈ trace (main fs cwd d) -> keys_unique D).
Proof.
  intros Hd.
  destruct (main_invariant fs cwd keys_unique d) as (D & Hc & HD & Htr).
  - intros d1 f d2 H1 H2. apply process_song_file_Ok in H2.
    destruct H2 as [r ->]. apply load_song_keys_unique, H1.
  - intros d1 f d2 H1 H2. eapply process_log_file_keys_unique; eauto.
  - exact Hd.
  - rewrite Hc. split; [exact HD | exact Htr].
Qed.

(** On the sample tree, from the empty database. *)
Lemma main_keeps_primary_keys_witness :
  keys_unique (committed (conn (main sample.fs_resolved sample.cwd empty_db)))
  /\ (forall D, Commit D ∈ trace (main sample.fs_resolved sample.cwd empty_db)
               -> keys_unique D).
Proof.
  apply (main_keeps_primary_keys sample.fs_resolved sample.cwd empty_db).
  unfold keys_unique. simpl. repeat split; apply NoDup_nil_2.
Defined.

Lemma upsert_user_ids_incl (t : list User.t) (r : User.t) (k : Z) :
  k ∈ map User.user_id t -> k ∈ map User.user_id (upsert_user t r).
Proof.
  intros Hk. rewrite upsert_user_unfold. case_bool_decide.
  - rewrite map_relevel_user_id. exact Hk.
  - rewrite map_app, elem_of_app. auto.
Qed.

Lemma upsert_user_id_in (t : list User.t) (r : User.t) :
  User.user_id r ∈ map User.user_id (upsert_user t r).
Proof.
  rewrite upsert_user_unfold. case_bool_decide as Hin.
  - rewrite map_relevel_user_id. exact Hin.
  - rewrite map_app, elem_of_app. right. apply list_elem_of_here.
Qed.

Lemma fold_upsert_user_ids_incl (rows t : list User.t) (k : Z) :
  k ∈ map User.user_id t ->
  k ∈ map User.user_id (fold_left upsert_user rows t).
Proof.
  revert t. induction rows as [|r rows IH]; intros t Hk; simpl; [exact Hk|].
  apply IH, upsert_user_ids_incl, Hk.
Qed.

Lemma fold_upsert_user_id_in (rows t : list User.t) (r : User.t) :
  r ∈ rows -> User.user_id r ∈ map User.user_id (fold_left upsert_user rows t).
Proof.
  revert t. induction rows as [|r' rows IH]; intros t Hr; simpl.
  - apply elem_of_nil in Hr. contradiction.
  - apply elem_of_cons in Hr. destruct Hr as [->|Hr].
    + apply fold_upsert_user_ids_incl, upsert_user_id_in.
    + apply IH, Hr.
Qed.

Lemma time_insert_keys_incl (t : list Time.t) (r : Time.t) (k : Z) :
  k ∈ map Time.start_time t -> k ∈ map Time.start_time (time_insert t r).
Proof.
  intros Hk. unfold time_insert. case_bool_decide; [exact Hk|].
  rewrite map_app, elem_of_app. auto.
Qed.

Lemma time_insert_key_in (t : list Time.t) (r : Time.t) :
  Time.start_time r ∈ map Time.start_time (time_insert t r).
Proof.
  unfold time_insert. case_bool_decide as Hin; [exact Hin|].
  rewrite map_app, elem_of_app. right. apply list_elem_of_here.
Qed.

Lemma fold_time_insert_keys_incl (rows t : list Time.t) (k : Z) :
  k ∈ map Time.start_time t ->
  k ∈ map Time.start_time (fold_left time_insert rows t).
Proof.
  revert t. induction rows as [|r rows IH]; intros t Hk; simpl; [exact Hk|].
  apply IH, time_insert_keys_incl, Hk.
Qed.

Lemma fold_time_insert_key_in (rows t : list Time.t) (r : Time.t) :
  r ∈ rows ->
  Time.start_time r ∈ map Time.start_time (fold_left time_insert rows t).
Proof.
  revert t. induction rows as [|r' rows IH]; intros t Hr; simpl.
  - apply elem_of_nil in Hr. contradiction.
  - apply elem_of_cons in Hr. destruct Hr as [->|Hr].
    + apply fold_time_insert_keys_incl, time_insert_key_in.
    + apply IH, Hr.
Qed.

(** The ids that a play gets are those of a Song row and of the Artist
    row it is joined with. *)
Lemma songplay_data_refs (cur : db) (e : Event.t) (t : pd.Timestamp) :
  song_select cur (Event.song e) (Event.artist e) (Event.length e) <> [] ->
  exists s a, matching_pair cur e s a
    /\ SongPlay.song_id (songplay_data cur e t) = Some (Song.song_id s)
    /\ SongPlay.artist_id (songplay_data cur e t) = Some (Song.artist_id s).
Proof.
  intros Hne. unfold songplay_data, fetchone.
  destruct (song_select cur (Event.song e) (Event.artist e) (Event.length e))
    as [|[sid aid] rest] eqn:Hsel; [contradiction|].
  assert (Hin : (sid, aid) ∈ song_select cur (Event.song e) (Event.artist e)
                               (Event.length e))
    by (rewrite Hsel; apply list_elem_of_here).
  apply elem_of_song_select in Hin.
  destruct Hin as (s & a & Hm & -> & ->). exists s, a. simpl. auto.
Qed.

Lemma songplay_data_keys (cur : db) (e : Event.t) (t : pd.Timestamp) :
  SongPlay.user_id (songplay_data cur e t) = User.user_id (user_row e)
  /\ SongPlay.start_time (songplay_data cur e t)
     = Time.start_time (time_row t).
Proof.
  unfold songplay_data.
  destruct (fetchone _) as [[sid aid]|]; split; reflexivity.
Qed.

Lemma load_song_refs (d : db) (r : SongRecord.t) :
  songplay_refs d -> songplay_refs (load_song d r).
Proof.
  intros Hd p Hp.
  destruct (load_song_frame d r) as ([ks Es] & [ka Ea] & _ & _ & Eu & Et & Ep).
  rewrite Ep in Hp. destruct (Hd p Hp) as ((s & a & Hs & Ha & Hrest) & Hu & Ht).
  rewrite Es, Ea, Eu, Et. split; [|auto].
  exists s, a. rewrite !elem_of_app. auto.
Qed.

Lemma process_log_file_refs (fs : node) (d d' : db) (f : path) :
  songplay_refs d -> process_log_file fs d f = Ok d' -> songplay_refs d'.
Proof.
  intros Hd H. apply process_log_file_Ok in H.
  destruct H as (e0 & es & _ & _ & Hres & Hs & Ha & Hu & Ht & Hp).
  intros p Hin. rewrite Hp in Hin. rewrite Hs, Ha, Hu, Ht.
  apply elem_of_app in Hin. destruct Hin as [Hin|Hin].
  - destruct (Hd p Hin) as (Hsa & Hpu & Hpt). split; [exact Hsa|]. split.
    + apply fold_upsert_user_ids_incl, Hpu.
    + apply fold_time_insert_keys_incl, Hpt.
  - apply list_elem_of_In, in_map_iff in Hin.
    destruct Hin as (e & <- & He). apply list_elem_of_In in He.
    destruct (songplay_data_refs d e (event_time e) (proj2 (Hres e He)))
      as (s & a & (Hms & Hma & Hj & _) & Hsid & Haid).
    split; [exists s, a; auto|]. split.
    + rewrite (proj1 (songplay_data_keys d e (event_time e))).
      change (User.user_id (user_row e))
        with (User.user_id (stored_user (user_row e))).
      apply fold_upsert_user_id_in.
      apply list_elem_of_In, in_map, list_elem_of_In. unfold user_df.
      apply elem_of_drop_duplicates, list_elem_of_In, in_map, list_elem_of_In, He.
    + rewrite (proj2 (songplay_data_keys d e (event_time e))).
      apply fold_time_insert_key_in. unfold time_df.
      apply elem_of_drop_duplicates, list_elem_of_In, in_map, in_map,
        list_elem_of_In, He.
Qed.

(** X6: referential integrity.  From a database whose songplays rows all
    name a song of the songs table, the artist row joined with that
    song, a user of the users table and an instant of the time table,
    every state that [main] commits, and the state it ends in, is such a
    database: no play is ever stored with an id that is in no table. *)
Theorem main_keeps_references (fs : node) (cwd : path) (d : db) :
  songplay_refs d ->
  songplay_refs (committed (conn (main fs cwd d)))
  /\ (forall D, Commit D ∈ trace (main fs cwd d) -> songplay_refs D).
Proof.
  intros Hd.
  destruct (main_invariant fs cwd songplay_refs d) as (D & Hc & HD & Htr).
  - intros d1 f d2 H1 H2. apply process_song_file_Ok in H2.
    destruct H2 as [r ->]. apply load_song_refs, H1.
  - intros d1 f d2 H1 H2. eapply process_log_file_refs; eauto.
  - exact Hd.
  - rewrite Hc. split; [exact HD | exact Htr].
Qed.

(** On the sample tree, from the empty database: the two plays stored
    refer to the song and the artist of [song1], to user 7 and to the
    instant of the play. *)
Lemma main_keeps_references_witness :
  songplay_refs (committed (conn (main sample.fs_resolved sample.cwd empty_db)))
  /\ (forall D, Commit D ∈ trace (main sample.fs_resolved sample.cwd empty_db)
               -> songplay_refs D).
Proof.
  apply (main_keeps_references sample.fs_resolved sample.cwd empty_db).
  intros p Hp. apply elem_of_nil in Hp. contradiction.
Defined.

(** ** A log file that cannot be loaded *)



(** The loop over the plays stops at the first play that finds no
    pair. *)
Lemma for_each_insert_songplay_Err (rows : list (Event.t * pd.Timestamp))
    (row : Event.t * pd.Timestamp) :
  forall cur : db,
    (forall x, x ∈ rows ->
       int_range (Event.userId (fst x))
       /\ int_range (Event.sessionId (fst x))) ->
    row ∈ rows ->
    song_select cur (Event.song (fst row)) (Event.artist (fst row))
                (Event.length (fst row)) = [] ->
    for_each insert_songplay cur rows
    = Err (DatabaseError "NotNullViolation: songplays.song_id").
Proof.
  induction rows as [|[e t] rows IH]; intros cur Hty Hrow Hsel.
  - apply elem_of_nil in Hrow. contradiction.
  - cbn [for_each].
    destruct (Hty (e, t) (list_elem_of_here _ _)) as [Hu Hs].
    cbn [fst] in Hu, Hs.
    destruct (song_select cur (Event.song e) (Event.artist e) (Event.length e))
      as [|p more] eqn:Hhd.
    + destruct (insert_songplay_no_match cur e t Hhd) as (_ & _ & Herr).
      rewrite (Herr Hu Hs). reflexivity.
    + assert (Hne : song_select cur (Event.song e) (Event.artist e)
                                (Event.length e) <> [])
        by (rewrite Hhd; discriminate).
      rewrite (insert_songplay_match cur e t Hne Hu Hs).
      cbn [mbind result_bind].
      apply elem_of_cons in Hrow. destruct Hrow as [->|Hrow].
      * cbn [fst] in Hsel. congruence.
      * apply IH; [|exact Hrow|].
        -- intros x Hx. apply Hty, list_elem_of_further, Hx.
        -- rewrite <- Hsel. apply song_select_ext; reflexivity.
Qed.


(** X8: when the timestamps of the retained events are in range and
    their values are values that the columns take, one retained event
    whose lookup finds no Song/Artist pair makes the whole file fail with
    the NOT NULL violation of [songplays.song_id], wherever the event
    stands in the file and however many plays before it were found. *)
Theorem process_log_file_unresolved_play (fs : node) (cur : db)
    (filepath : path) (e0 : Event.t) (es : list Event.t) (e : Event.t) :
  read_json fs filepath = Ok (LogFile (e0 :: es)) ->
  (forall x, x ∈ next_song (e0 :: es) ->
     pd.min_ms <= Event.ts x <= pd.max_ms) ->
  (forall x, x ∈ next_song (e0 :: es) -> typed x) ->
  e ∈ next_song (e0 :: es) ->
  song_select cur (Event.song e) (Event.artist e) (Event.length e) = [] ->
  process_log_file fs cur filepath
  = Err (DatabaseError "NotNullViolation: songplays.song_id").
Proof.
  intros Hread Hts Hty He Hsel. unfold process_log_file. rewrite Hread.
  cbn [mbind result_bind]. fold (next_song (e0 :: es)).
  rewrite (traverse_to_datetime _ Hts). cbn [mbind result_bind].
  set (df := next_song (e0 :: es)) in *.
  set (tss := map (fun e => pd.mkTimestamp (Event.ts e)) df).
  set (cur1 := fold_left time_table_insert (time_df tss) cur).
  rewrite (for_each_insert_user (user_df df) cur1).
  2:{ intros r Hr. unfold user_df in Hr.
      apply elem_of_drop_duplicates, list_elem_of_In, in_map_iff in Hr.
      destruct Hr as (x & <- & Hx). apply list_elem_of_In in Hx.
      destruct (Hty x Hx) as (Hu & Hg & _). split; assumption. }
  cbn [mbind result_bind].
  set (cur2 := fold_left user_table_insert (map stored_user (user_df df)) cur1).
  destruct (fold_time_table_insert_frame (time_df tss) cur) as (Ht1 & Ht2 & _).
  destruct (fold_user_table_insert_frame (map stored_user (user_df df)) cur1)
    as (Hu1 & Hu2 & _).
  fold cur1 in Ht1, Ht2. fold cur2 in Hu1, Hu2.
  apply (for_each_insert_songplay_Err _ (e, pd.mkTimestamp (Event.ts e))).
  - intros [x t] Hx. unfold tss in Hx. rewrite zip_map_r in Hx.
    apply list_elem_of_In, in_map_iff in Hx.
    destruct Hx as (x' & Heq & Hx'). inversion Heq; subst x'.
    apply list_elem_of_In in Hx'. destruct (Hty x Hx') as (Hu & _ & Hs).
    cbn [fst]. auto.
  - unfold tss. rewrite zip_map_r. apply list_elem_of_In, in_map_iff.
    exists e. split; [reflexivity | apply list_elem_of_In, He].
  - cbn [fst]. rewrite <- Hsel. apply song_select_ext; congruence.
Qed.


(** The sample log file [play1; home; play2]: [play1] is found, [play2]
    is not. *)
Lemma process_log_file_unresolved_play_witness :
  process_log_file sample.fs_unresolved sample_songs_loaded
    (sample.cwd ++ sample.log_path ++ ["l.json"])
  = Err (DatabaseError "NotNullViolation: songplays.song_id").
Proof.
  apply (process_log_file_unresolved_play sample.fs_unresolved
           sample_songs_loaded _ sample.play1 [sample.home; sample.play2]
           sample.play2).
  - reflexivity.
  - intros x Hx. vm_compute in Hx.
    apply elem_of_cons in Hx.
    destruct Hx as [->|Hx]; [vm_compute; split; discriminate|].
    apply list_elem_of_singleton in Hx. subst x.
    vm_compute; split; discriminate.
  - intros x Hx. vm_compute in Hx.
    apply elem_of_cons in Hx.
    destruct Hx as [->|Hx];
      [unfold typed, int_range, fits; vm_compute;
       repeat split; try discriminate; lia|].
    apply list_elem_of_singleton in Hx. subst x.
    unfold typed, int_range, fits; vm_compute.
    repeat split; try discriminate; lia.
  - vm_compute. apply list_elem_of_further, list_elem_of_here.
  - reflexivity.
Defined.

(** ** What a log file leaves in users and time *)

Lemma set_level_level (u : User.t) : set_level (User.level u) u = u.
Proof. destruct u. reflexivity. Qed.

Lemma final_level_user_id (rows : list User.t) (u : User.t) :
  User.user_id (final_level rows u) = User.user_id u.
Proof. unfold final_level. destruct (last _); reflexivity. Qed.

Lemma set_level_final_level (rows : list User.t) (lv lv' : string)
    (u : User.t) :
  set_level lv (final_level rows (set_level lv' u))
  = set_level lv (final_level rows u).
Proof.
  unfold final_level. cbn [set_level User.user_id].
  destruct (last _); reflexivity.
Qed.

(** The rows are applied one after the other. *)
Lemma final_level_snoc (rows : list User.t) (r u : User.t) :
  final_level (rows ++ [r]) u = relevel r (final_level rows u).
Proof.
  unfold relevel. rewrite final_level_user_id.
  unfold final_level at 1. rewrite filter_app.
  case_bool_decide as Hid.
  - rewrite (filter_cons_True _ r) by congruence.
    rewrite filter_nil, last_snoc.
    unfold final_level. destruct (last _); reflexivity.
  - rewrite (filter_cons_False _ r) by congruence.
    rewrite filter_nil, app_nil_r. reflexivity.
Qed.

Lemma relevel_other (r u : User.t) :
  User.user_id u <> User.user_id r -> relevel r u = u.
Proof.
  intros Hne. unfold relevel. rewrite bool_decide_eq_false_2 by exact Hne.
  reflexivity.
Qed.

Lemma upsert_user_lookup (t : list User.t) (r : User.t) (i : nat)
    (u : User.t) :
  t !! i = Some u -> upsert_user t r !! i = Some (relevel r u).
Proof.
  intros Hi. rewrite upsert_user_unfold. case_bool_decide as Hin.
  - change (map (relevel r) t) with (relevel r <$> t).
    rewrite list_lookup_fmap, Hi. reflexivity.
  - rewrite (lookup_app_l_Some _ _ _ _ Hi). f_equal. symmetry.
    apply relevel_other. intros Heq. apply Hin. rewrite <- Heq.
    apply list_elem_of_In, in_map, list_elem_of_In.
    eapply list_elem_of_lookup_2, Hi.
Qed.

Lemma fold_upsert_user_lookup (rows t : list User.t) (i : nat) (u : User.t) :
  t !! i = Some u ->
  fold_left upsert_user rows t !! i = Some (final_level rows u).
Proof.
  intros Hi. induction rows as [|r rows IH] using rev_ind.
  - exact Hi.
  - rewrite fold_left_app. cbn [fold_left]. rewrite final_level_snoc.
    apply upsert_user_lookup, IH.
Qed.

Lemma elem_of_upsert_user (t : list User.t) (r x : User.t) :
  x ∈ upsert_user t r ->
  (exists y, y ∈ t /\ x = relevel r y) \/ x = r.
Proof.
  rewrite upsert_user_unfold. case_bool_decide as Hin; intros Hx.
  - apply list_elem_of_In, in_map_iff in Hx. destruct Hx as (y & <- & Hy).
    left. exists y. split; [apply list_elem_of_In, Hy | reflexivity].
  - apply elem_of_app in Hx. destruct Hx as [Hx|Hx].
    + left. exists x. split; [exact Hx|]. symmetry. apply relevel_other.
      intros Heq. apply Hin. rewrite <- Heq.
      apply list_elem_of_In, in_map, list_elem_of_In, Hx.
    + right. apply list_elem_of_singleton in Hx. exact Hx.
Qed.

(** After the rows, every row of the table has the level of the last of
    the rows with its key, if there is one. *)
Lemma fold_upsert_user_final (rows t : list User.t) (x : User.t) :
  x ∈ fold_left upsert_user rows t -> final_level rows x = x.
Proof.
  revert x. induction rows as [|r rows IH] using rev_ind; intros x Hx.
  - reflexivity.
  - rewrite fold_left_app in Hx. cbn [fold_left] in Hx.
    rewrite final_level_snoc.
    apply elem_of_upsert_user in Hx. destruct Hx as [(y & Hy & ->)| ->].
    + unfold relevel at 2.
      case_bool_decide as Hid; [|rewrite (IH y Hy); reflexivity].
      unfold relevel. rewrite final_level_user_id. cbn [set_level User.user_id].
      rewrite bool_decide_eq_true_2 by exact Hid.
      rewrite set_level_final_level, (IH y Hy). reflexivity.
    + unfold relevel. rewrite final_level_user_id.
      rewrite bool_decide_eq_true_2 by reflexivity.
      unfold final_level. destruct (last _); destruct r; reflexivity.
Qed.

Lemma final_level_nil (t : list User.t) : map (final_level []) t = t.
Proof. induction t as [|u t IH]; simpl; [reflexivity|]. rewrite IH. reflexivity. Qed.

Lemma map_final_level_user_id (rows t : list User.t) :
  map User.user_id (map (final_level rows) t) = map User.user_id t.
Proof.
  rewrite map_map. apply map_ext. intros u. apply final_level_user_id.
Qed.

(** When the table has the keys of all the rows, no row is added. *)
Lemma fold_upsert_user_present (rows t : list User.t) :
  (forall r, r ∈ rows -> User.user_id r ∈ map User.user_id t) ->
  fold_left upsert_user rows t = map (final_level rows) t.
Proof.
  induction rows as [|r rows IH] using rev_ind; intros Hin.
  - symmetry. apply final_level_nil.
  - rewrite fold_left_app. cbn [fold_left].
    rewrite IH by (intros x Hx; apply Hin, elem_of_app; auto).
    rewrite upsert_user_unfold, bool_decide_eq_true_2.
    + rewrite map_map. apply map_ext. intros u.
      rewrite final_level_snoc. reflexivity.
    + rewrite map_final_level_user_id. apply Hin, elem_of_app. right.
      apply list_elem_of_here.
Qed.

Lemma fold_upsert_user_again (rows t : list User.t) :
  fold_left upsert_user rows (fold_left upsert_user rows t)
  = fold_left upsert_user rows t.
Proof.
  rewrite fold_upsert_user_present
    by (intros r Hr; apply fold_upsert_user_id_in, Hr).
  rewrite <- (map_id (fold_left upsert_user rows t)) at 2.
  apply map_ext_in. intros x Hx.
  apply (fold_upsert_user_final rows t), list_elem_of_In, Hx.
Qed.

Lemma fold_time_insert_present (rows t : list Time.t) :
  (forall r, r ∈ rows -> Time.start_time r ∈ map Time.start_time t) ->
  fold_left time_insert rows t = t.
Proof.
  induction rows as [|r rows IH]; intros Hin; simpl; [reflexivity|].
  unfold time_insert at 2.
  rewrite bool_decide_eq_true_2 by apply Hin, list_elem_of_here.
  apply IH. intros x Hx. apply Hin, list_elem_of_further, Hx.
Qed.

Lemma fold_time_insert_again (rows t : list Time.t) :
  fold_left time_insert rows (fold_left time_insert rows t)
  = fold_left time_insert rows t.
Proof.
  apply fold_time_insert_present. intros r Hr.
  apply fold_time_insert_key_in, Hr.
Qed.

Lemma filter_ext_elem {A : Type} (P Q : A -> Prop)
    `{!forall x, Decision (P x)} `{!forall x, Decision (Q x)} (l : list A) :
  (forall x, x ∈ l -> P x <-> Q x) -> filter P l = filter Q l.
Proof.
  induction l as [|x l IH]; intros Hext; [reflexivity|].
  rewrite !filter_cons.
  rewrite IH by (intros y Hy; apply Hext, list_elem_of_further, Hy).
  pose proof (Hext x (list_elem_of_here _ _)) as Hx.
  destruct (decide (P x)), (decide (Q x)); tauto || reflexivity.
Qed.

(** Rows with distinct keys: exactly those with a new key are added, in
    their order. *)
Lemma fold_time_insert_fresh (rows t : list Time.t) :
  NoDup (map Time.start_time rows) ->
  fold_left time_insert rows t
  = t ++ filter (fun r => Time.start_time r ∉ map Time.start_time t) rows.
Proof.
  revert t. induction rows as [|r rows IH]; intros t Hnd.
  - simpl. rewrite app_nil_r. reflexivity.
  - cbn [map] in Hnd. apply NoDup_cons in Hnd. destruct Hnd as [Hr Hnd].
    cbn [fold_left]. rewrite (IH _ Hnd). unfold time_insert.
    case_bool_decide as Hin.
    + rewrite filter_cons_False by tauto. reflexivity.
    + rewrite filter_cons_True by exact Hin.
      rewrite <- app_assoc. cbn [app]. do 2 f_equal.
      apply filter_ext_elem. intros x Hx.
      rewrite map_app, elem_of_app. cbn [map].
      rewrite list_elem_of_singleton. split; [tauto|].
      intros Hx' [Hx''|Heq]; [tauto|]. apply Hr. rewrite <- Heq.
      apply list_elem_of_In, in_map, list_elem_of_In, Hx.
Qed.

Lemma time_df_keys_NoDup (tss : list pd.Timestamp) :
  NoDup (map Time.start_time (time_df tss)).
Proof.
  unfold time_df. apply NoDup_map_inj_on; [|apply NoDup_drop_duplicates].
  intros x y Hx Hy Heq.
  apply elem_of_drop_duplicates, list_elem_of_In, in_map_iff in Hx.
  apply elem_of_drop_duplicates, list_elem_of_In, in_map_iff in Hy.
  destruct Hx as (t1 & <- & _), Hy as (t2 & <- & _).
  apply time_row_inj, Heq.
Qed.

Lemma filter_stored_user (k : Z) (rows : list User.t) :
  filter (fun r => User.user_id r = k) (map stored_user rows)
  = map stored_user (filter (fun r => User.user_id r = k) rows).
Proof.
  induction rows as [|r rows IH]; [reflexivity|].
  cbn [map]. rewrite !filter_cons. cbn [stored_user User.user_id].
  destruct (decide (User.user_id r = k)); cbn [map]; rewrite IH; reflexivity.
Qed.

Lemma last_map {A B : Type} (f : A -> B) (l : list A) :
  last (map f l) = option_map f (last l).
Proof.
  induction l as [|x l IH]; [reflexivity|].
  destruct l as [|y l]; [reflexivity|].
  cbn [map] in *. rewrite !last_cons_cons. exact IH.
Qed.

(** The level that user rows leave does not depend on their gender
    column. *)
Lemma final_level_stored (rows : list User.t) (u : User.t) :
  final_level (map stored_user rows) u = final_level rows u.
Proof.
  unfold final_level. rewrite filter_stored_user, last_map.
  destruct (last _); reflexivity.
Qed.



(** On that file the one row of user 7 goes from free to paid. *)
Example user_level_after_upgrade :
  users free_loaded = [User.mk 7 "Ann" "Lee" "F" "free"]
  /\ users upgrade_loaded = [User.mk 7 "Ann" "Lee" "F" "paid"].
Proof. vm_compute. auto. Qed.


(** X9: the users table after a log file that was processed.  A row that
    was there stays at its place and gets the level of the last row of
    [user_df] with its [user_id], if there is one, and keeps its level
    otherwise; every row of the table has the level of the last row of
    [user_df] with its [user_id]; every user of a retained event has a
    row.  The rows of [user_df] are the distinct user rows of the file at
    their first occurrence, so the level is not always that of the
    user's last event. *)
Theorem process_log_file_user_levels (fs : node) (cur cur' : db)
    (filepath : path) (e0 : Event.t) (es : list Event.t) :
  read_json fs filepath = Ok (LogFile (e0 :: es)) ->
  process_log_file fs cur filepath = Ok cur' ->
  let rows := user_df (next_song (e0 :: es)) in
  (forall i u, users cur !! i = Some u ->
     users cur' !! i = Some (final_level rows u))
  /\ (forall x r, x ∈ users cur' ->
        last (filter (fun r => User.user_id r = User.user_id x) rows) = Some r ->
        User.level x = User.level r)
  /\ (forall e, e ∈ next_song (e0 :: es) ->
        Event.userId e ∈ map User.user_id (users cur')).
Proof.
  intros Hread Hrun rows. apply process_log_file_Ok in Hrun.
  destruct Hrun as (e0' & es' & Hread' & _ & _ & _ & _ & Hu & _ & _).
  rewrite Hread in Hread'. inversion Hread'; subst e0' es'. fold rows in Hu.
  rewrite Hu. split; [|split].
  - intros i u Hi. rewrite <- (final_level_stored rows u).
    apply fold_upsert_user_lookup, Hi.
  - intros x r Hx Hlast. apply fold_upsert_user_final in Hx.
    rewrite final_level_stored in Hx.
    unfold final_level in Hx. rewrite Hlast in Hx.
    rewrite <- Hx. reflexivity.
  - intros e He.
    change (Event.userId e) with (User.user_id (stored_user (user_row e))).
    apply fold_upsert_user_id_in.
    apply list_elem_of_In, in_map, list_elem_of_In. unfold rows, user_df.
    apply elem_of_drop_duplicates, list_elem_of_In, in_map, list_elem_of_In, He.
Qed.

(** X10: the time table after a log file that was processed: the rows
    that were there, then the time row of every retained instant that
    was not yet in the table, once, in the order of the file. *)
Theorem process_log_file_time_rows (fs : node) (cur cur' : db)
    (filepath : path) (e0 : Event.t) (es : list Event.t) :
  read_json fs filepath = Ok (LogFile (e0 :: es)) ->
  process_log_file fs cur filepath = Ok cur' ->
  time cur'
  = time cur
    ++ filter (fun r => Time.start_time r ∉ map Time.start_time (time cur))
              (drop_duplicates
                 (map (fun e => time_row (pd.mkTimestamp (Event.ts e)))
                      (next_song (e0 :: es)))).
Proof.
  intros Hread Hrun. apply process_log_file_Ok in Hrun.
  destruct Hrun as (e0' & es' & Hread' & _ & _ & _ & _ & _ & Ht & _).
  rewrite Hread in Hread'. inversion Hread'; subst e0' es'.
  rewrite Ht, fold_time_insert_fresh by apply time_df_keys_NoDup.
  unfold time_df. rewrite map_map. reflexivity.
Qed.

(** A log file whose retained events are in range, are taken by the
    columns and find a pair: what processing it does. *)
Lemma process_log_file_run (fs : node) (cur : db) (filepath : path)
    (e0 : Event.t) (es : list Event.t) :
  read_json fs filepath = Ok (LogFile (e0 :: es)) ->
  (forall e, e ∈ next_song (e0 :: es) ->
     pd.min_ms <= Event.ts e <= pd.max_ms) ->
  (forall e, e ∈ next_song (e0 :: es) ->
     typed e
     /\ song_select cur (Event.song e) (Event.artist e) (Event.length e)
        <> []) ->
  exists cur',
    process_log_file fs cur filepath = Ok cur'
    /\ songs cur' = songs cur /\ artists cur' = artists cur
    /\ users cur'
       = fold_left upsert_user
           (map stored_user (user_df (next_song (e0 :: es)))) (users cur)
    /\ time cur'
       = fold_left time_insert
           (time_df (map event_time (next_song (e0 :: es)))) (time cur)
    /\ songplays cur'
       = songplays cur
         ++ map (fun e => songplay_data cur e (event_time e))
                (next_song (e0 :: es)).
Proof.
  intros Hread Hts Hres. unfold process_log_file. rewrite Hread.
  cbn [mbind result_bind]. fold (next_song (e0 :: es)).
  rewrite (traverse_to_datetime _ Hts). cbn [mbind result_bind].
  set (df := next_song (e0 :: es)) in *.
  change (map (fun e => pd.mkTimestamp (Event.ts e)) df)
    with (map event_time df).
  set (cur1 := fold_left time_table_insert (time_df (map event_time df)) cur).
  rewrite (for_each_insert_user (user_df df) cur1).
  2:{ intros r Hr. unfold user_df in Hr.
      apply elem_of_drop_duplicates, list_elem_of_In, in_map_iff in Hr.
      destruct Hr as (e & <- & He). apply list_elem_of_In in He.
      destruct (Hres e He) as ((Hu & Hg & _) & _). split; assumption. }
  cbn [mbind result_bind].
  set (cur2 := fold_left user_table_insert (map stored_user (user_df df)) cur1).
  destruct (fold_time_table_insert_frame (time_df (map event_time df)) cur)
    as (Ht1 & Ht2 & Ht3 & Ht4).
  destruct (fold_user_table_insert_frame (map stored_user (user_df df)) cur1)
    as (Hu1 & Hu2 & Hu3 & Hu4).
  fold cur1 in Ht1, Ht2, Ht3, Ht4. fold cur2 in Hu1, Hu2, Hu3, Hu4.
  assert (Hs : songs cur2 = songs cur) by congruence.
  assert (Ha : artists cur2 = artists cur) by congruence.
  destruct (for_each_insert_songplay (zip df (map event_time df)) cur2)
    as (cur' & Hrun & H1 & H2 & H3 & H4 & H5).
  { intros [e t] Hrow. cbn [fst]. rewrite zip_map_r in Hrow.
    apply list_elem_of_In, in_map_iff in Hrow.
    destruct Hrow as (e' & Heq & He'). inversion Heq; subst e'.
    apply list_elem_of_In in He'.
    destruct (Hres e He') as ((Hu & _ & Hss) & Hsel).
    rewrite (song_select_ext cur2 cur _ _ _ Hs Ha). auto. }
  exists cur'. split; [exact Hrun|].
  split; [congruence|]. split; [congruence|]. split; [|split].
  - rewrite H3. unfold cur2. rewrite fold_user_table_insert_users.
    fold cur1. rewrite Ht3. reflexivity.
  - rewrite H4, Hu3. unfold cur1. apply fold_time_table_insert_time.
  - rewrite H5, Hu4, Ht4. f_equal. rewrite zip_map_r, map_map.
    apply map_ext. intros e. cbn [fst snd].
    apply songplay_data_ext; assumption.
Qed.

(** X11: processing a log file a second time.  When a log file was
    processed without error, processing it again on the result succeeds
    too; it leaves songs, artists, users and time as the first pass left
    them, and appends the songplays rows of the file once more: the
    plays are stored twice. *)
Theorem process_log_file_twice (fs : node) (cur cur' : db) (filepath : path) :
  process_log_file fs cur filepath = Ok cur' ->
  exists cur'' rows,
    process_log_file fs cur' filepath = Ok cur''
    /\ songplays cur' = songplays cur ++ rows
    /\ songplays cur'' = songplays cur ++ rows ++ rows
    /\ songs cur'' = songs cur' /\ artists cur'' = artists cur'
    /\ users cur'' = users cur' /\ time cur'' = time cur'.
Proof.
  intros Hrun. apply process_log_file_Ok in Hrun.
  destruct Hrun as (e0 & es & Hread & Hts & Hres & Hs & Ha & Hu & Ht & Hp).
  destruct (process_log_file_run fs cur' filepath e0 es Hread Hts)
    as (cur'' & Hrun2 & S2 & A2 & U2 & T2 & P2).
  { intros e He. destruct (Hres e He) as [Hty Hsel]. split; [exact Hty|].
    rewrite (song_select_ext cur' cur) by assumption. exact Hsel. }
  exists cur'',
    (map (fun e => songplay_data cur e (event_time e)) (next_song (e0 :: es))).
  split; [exact Hrun2|]. split; [exact Hp|].
  split; [|split; [exact S2|split; [exact A2|split]]].
  - rewrite P2, Hp, <- app_assoc. do 2 f_equal.
    apply map_ext. intros e. apply songplay_data_ext; assumption.
  - rewrite U2, Hu. apply fold_upsert_user_again.
  - rewrite T2, Ht. apply fold_time_insert_again.
Qed.

(** The log file in which user 7 is free, then paying, then free. *)
Lemma process_log_file_user_levels_witness :
  (forall i u, users sample_songs_loaded !! i = Some u ->
     users levels_loaded !! i
     = Some (final_level
               (user_df (next_song [sample.play1; play1_paid; sample.play1])) u))
  /\ (forall x r, x ∈ users levels_loaded ->
        last (filter (fun r => User.user_id r = User.user_id x)
                (user_df (next_song [sample.play1; play1_paid; sample.play1])))
        = Some r ->
        User.level x = User.level r)
  /\ (forall e, e ∈ next_song [sample.play1; play1_paid; sample.play1] ->
        Event.userId e ∈ map User.user_id (users levels_loaded)).
Proof.
  apply (process_log_file_user_levels fs_levels sample_songs_loaded
           levels_loaded (sample.cwd ++ sample.log_path ++ ["l.json"])
           sample.play1 [play1_paid; sample.play1]).
  - reflexivity.
  - vm_compute. reflexivity.
Defined.

(** In that file the last event of user 7 says "free", and the table
    ends with "paid": the third row of the frame repeats the first and
    [drop_duplicates] drops it. *)
Example user_level_after_going_back :
  Event.level sample.play1 = "free"
  /\ user_df (next_song [sample.play1; play1_paid; sample.play1])
     = [user_row sample.play1; user_row play1_paid]
  /\ users levels_loaded = [User.mk 7 "Ann" "Lee" "F" "paid"].
Proof. vm_compute. auto. Qed.

(** The same file: two instants, the first of them twice. *)
Lemma process_log_file_time_rows_witness :
  time levels_loaded
  = time sample_songs_loaded
    ++ filter (fun r => Time.start_time r
                        ∉ map Time.start_time (time sample_songs_loaded))
              (drop_duplicates
                 (map (fun e => time_row (pd.mkTimestamp (Event.ts e)))
                      (next_song [sample.play1; play1_paid; sample.play1]))).
Proof.
  apply (process_log_file_time_rows fs_levels sample_songs_loaded
           levels_loaded (sample.cwd ++ sample.log_path ++ ["l.json"])
           sample.play1 [play1_paid; sample.play1]).
  - reflexivity.
  - vm_compute. reflexivity.
Defined.

Example time_rows_sample :
  map Time.start_time (time levels_loaded) = [1541106106796; 1541106352796]
  /\ length (songplays levels_loaded) = 3%nat.
Proof. vm_compute. auto. Qed.

(** The same file, processed again on the database it left. *)
Lemma process_log_file_twice_witness :
  exists cur'' rows,
    process_log_file fs_levels levels_loaded
      (sample.cwd ++ sample.log_path ++ ["l.json"]) = Ok cur''
    /\ songplays levels_loaded = songplays sample_songs_loaded ++ rows
    /\ songplays cur'' = songplays sample_songs_loaded ++ rows ++ rows
    /\ songs cur'' = songs levels_loaded
    /\ artists cur'' = artists levels_loaded
    /\ users cur'' = users levels_loaded
    /\ time cur'' = time levels_loaded.
Proof.
  apply (process_log_file_twice fs_levels sample_songs_loaded levels_loaded
           (sample.cwd ++ sample.log_path ++ ["l.json"])).
  vm_compute. reflexivity.
Defined.

(** ** A song file, then a play of its song *)

Lemma elem_of_load_song (d : db) (r : SongRecord.t) :
  (forall s, s ∈ songs (load_song d r) -> s ∈ songs d \/ s = song_data r)
  /\ (forall a, a ∈ artists (load_song d r) ->
        a ∈ artists d \/ a = artist_data r).
Proof.
  unfold load_song, artist_table_insert, song_table_insert.
  repeat case_bool_decide; cbn [songs artists]; split; intros x Hx;
    rewrite ?elem_of_app, ?list_elem_of_singleton in Hx; tauto.
Qed.

(** X12: a song file, then a play of its song.  Let the first row of
    the frame of a song file be a row that the columns take.  When no
    Song row of the database with its (padded) [song_id] differs from it
    in title, artist or duration, and no Artist row with its (padded)
    [artist_id] has another name, then after [process_song_file] the
    lookup for an event with the row's title, artist name and duration
    returns the ids of the row, padded to 18 characters, and the
    songplays INSERT for that event is accepted if its [userId] and
    [sessionId] fit [int]. *)
Theorem loaded_song_is_found (fs : node) (cur : db) (filepath : path)
    (r : SongRecord.t) (rest : list SongRecord.t) :
  read_json fs filepath = Ok (SongFile (r :: rest)) ->
  fits 18 (SongRecord.song_id r) ->
  fits 18 (SongRecord.artist_id r) ->
  int_range (SongRecord.year r) ->
  (forall s, s ∈ songs cur ->
     Song.song_id s = padded 18 (SongRecord.song_id r) ->
     Song.title s = SongRecord.title r
     /\ Song.artist_id s = padded 18 (SongRecord.artist_id r)
     /\ (Song.duration s == SongRecord.duration r)%Q) ->
  (forall a, a ∈ artists cur ->
     Artist.artist_id a = padded 18 (SongRecord.artist_id r) ->
     Artist.artist_name a = SongRecord.artist_name r) ->
  exists cur',
    process_song_file fs cur filepath = Ok cur'
    /\ forall (e : Event.t) (t : pd.Timestamp),
         Event.song e = SongRecord.title r ->
         Event.artist e = SongRecord.artist_name r ->
         (Event.length e == SongRecord.duration r)%Q ->
         (padded 18 (SongRecord.song_id r), padded 18 (SongRecord.artist_id r))
           ∈ song_select cur' (Event.song e) (Event.artist e) (Event.length e)
         /\ (int_range (Event.userId e) -> int_range (Event.sessionId e) ->
             insert_songplay cur' (e, t)
             = Ok (mkdb (songs cur') (artists cur') (users cur') (time cur')
                        (songplays cur' ++ [songplay_data cur' e t]))).
Proof.
  intros Hread F1 F2 F3 Hsong Hartist.
  exists (load_song cur (stored r)). split.
  { apply (process_song_file_first fs cur filepath r rest Hread F1 F2 F3). }
  intros e t Htitle Hname Hlen.
  destruct (load_song_keys cur (stored r)) as (_ & Hks & Hka).
  destruct (elem_of_load_song cur (stored r)) as (Hes & Hea).
  apply list_elem_of_In, in_map_iff in Hks. destruct Hks as (s & Hsid & Hs).
  apply list_elem_of_In, in_map_iff in Hka. destruct Hka as (a & Haid & Ha).
  apply list_elem_of_In in Hs, Ha.
  cbn [stored SongRecord.song_id SongRecord.artist_id] in Hsid, Haid.
  assert (Hsf : Song.title s = SongRecord.title r
                /\ Song.artist_id s = padded 18 (SongRecord.artist_id r)
                /\ (Song.duration s == SongRecord.duration r)%Q).
  { destruct (Hes s Hs) as [Hold| ->]; [apply Hsong; assumption|].
    repeat split; reflexivity. }
  assert (Haf : Artist.artist_name a = SongRecord.artist_name r).
  { destruct (Hea a Ha) as [Hold| ->]; [apply Hartist; assumption|].
    reflexivity. }
  destruct Hsf as (Hst & Hsa & Hsd).
  assert (Hin : (padded 18 (SongRecord.song_id r),
                 padded 18 (SongRecord.artist_id r))
                ∈ song_select (load_song cur (stored r)) (Event.song e)
                    (Event.artist e) (Event.length e)).
  { apply elem_of_song_select. exists s, a. unfold matching_pair.
    repeat split; try congruence.
    rewrite Hsd, Hlen. reflexivity. }
  split; [exact Hin|]. intros Hu Hss. apply insert_songplay_match; auto.
  intros Hnil. rewrite Hnil in Hin. apply elem_of_nil in Hin. exact Hin.
Qed.

(** The file [b.json] of the sample tree, loaded into the empty
    database, and plays of its song. *)
Lemma loaded_song_is_found_witness :
  exists cur',
    process_song_file sample.fs_songs empty_db
      (sample.cwd ++ sample.song_path ++ ["b.json"]) = Ok cur'
    /\ forall (e : Event.t) (t : pd.Timestamp),
         Event.song e = SongRecord.title sample.song2 ->
         Event.artist e = SongRecord.artist_name sample.song2 ->
         (Event.length e == SongRecord.duration sample.song2)%Q ->
         (padded 18 (SongRecord.song_id sample.song2),
          padded 18 (SongRecord.artist_id sample.song2))
           ∈ song_select cur' (Event.song e) (Event.artist e) (Event.length e)
         /\ (int_range (Event.userId e) -> int_range (Event.sessionId e) ->
             insert_songplay cur' (e, t)
             = Ok (mkdb (songs cur') (artists cur') (users cur') (time cur')
                        (songplays cur' ++ [songplay_data cur' e t]))).
Proof.
  apply (loaded_song_is_found sample.fs_songs empty_db _ sample.song2 []).
  - reflexivity.
  - unfold fits. vm_compute. lia.
  - unfold fits. vm_compute. lia.
  - unfold int_range. vm_compute. split; discriminate.
  - intros s Hs. apply elem_of_nil in Hs. contradiction.
  - intros a Ha. apply elem_of_nil in Ha. contradiction.
Defined.

(** X13: an artist keeps the name that was loaded first.  Let the first
    row of the frame of a song file be a row that the columns take.  When
    the artists table, with [artist_id] a key, holds the (padded)
    [artist_id] of the row under another name, the file is processed
    without error and leaves the artists table as it is; afterwards no
    lookup by the name in the file returns a row with that [artist_id],
    for any title and any duration. *)
Theorem renamed_artist_is_not_found (fs : node) (cur : db) (filepath : path)
    (r : SongRecord.t) (rest : list SongRecord.t) (a : Artist.t) :
  read_json fs filepath = Ok (SongFile (r :: rest)) ->
  fits 18 (SongRecord.song_id r) ->
  fits 18 (SongRecord.artist_id r) ->
  int_range (SongRecord.year r) ->
  NoDup (map Artist.artist_id (artists cur)) ->
  a ∈ artists cur ->
  Artist.artist_id a = padded 18 (SongRecord.artist_id r) ->
  Artist.artist_name a <> SongRecord.artist_name r ->
  exists cur',
    process_song_file fs cur filepath = Ok cur'
    /\ artists cur' = artists cur
    /\ forall (song : string) (length : Q) (sid : string),
         (sid, padded 18 (SongRecord.artist_id r))
           ∉ song_select cur' song (SongRecord.artist_name r) length.
Proof.
  intros Hread F1 F2 F3 Hnd Ha Haid Hname.
  exists (load_song cur (stored r)).
  assert (Hart : artists (load_song cur (stored r)) = artists cur).
  { unfold load_song.
    rewrite (artist_table_insert_conflict _ (artist_data (stored r))).
    - unfold song_table_insert. case_bool_decide; reflexivity.
    - replace (artists (song_table_insert cur (song_data (stored r))))
        with (artists cur)
        by (unfold song_table_insert; case_bool_decide; reflexivity).
      cbn [artist_data stored Artist.artist_id SongRecord.artist_id].
      rewrite <- Haid.
      apply list_elem_of_In, in_map, list_elem_of_In, Ha. }
  split; [apply (process_song_file_first fs cur filepath r rest Hread F1 F2 F3)|].
  split; [exact Hart|].
  intros song len sid Hin.
  unfold song_select in Hin.
  apply list_elem_of_In, in_map_iff in Hin.
  destruct Hin as ([s oa] & Heq & Hin). apply filter_In in Hin.
  destruct Hin as [Hin Hw]. apply song_where_true in Hw.
  destruct Hw as (a' & Hoa & _ & Hn & _). cbn [fst snd] in *. subst oa.
  apply list_elem_of_In, elem_of_left_join in Hin.
  destruct Hin as (_ & Ha' & Hj). rewrite Hart in Ha'.
  inversion Heq as [[Hsid Haid']].
  assert (a' = a).
  { apply list_elem_of_In, (In_nth _ _ a) in Ha. destruct Ha as (i & Hi & Hnth).
    apply list_elem_of_In, (In_nth _ _ a) in Ha'.
    destruct Ha' as (j & Hj' & Hnth').
    assert (i = j); [|congruence].
    apply (NoDup_nth (map Artist.artist_id (artists cur))
             (Artist.artist_id a)); try (rewrite length_map; assumption).
    - apply NoDup_ListNoDup, Hnd.
    - rewrite !map_nth. congruence. }
  subst a'. contradiction.
Qed.

(** The artist of [song1] is in the table as "A"; the file names it
    "A feat. B". *)
Lemma renamed_artist_is_not_found_witness :
  exists cur',
    process_song_file fs_featuring sample_songs_loaded
      (sample.cwd ++ sample.song_path ++ ["c.json"]) = Ok cur'
    /\ artists cur' = artists sample_songs_loaded
    /\ forall (song : string) (length : Q) (sid : string),
         (sid, padded 18 (SongRecord.artist_id song3_featuring))
           ∉ song_select cur' song (SongRecord.artist_name song3_featuring)
               length.
Proof.
  apply (renamed_artist_is_not_found fs_featuring sample_songs_loaded _
           song3_featuring [] (artist_data (stored sample.song1))).
  - reflexivity.
  - unfold fits. vm_compute. lia.
  - unfold fits. vm_compute. lia.
  - unfold int_range. vm_compute. split; discriminate.
  - apply (bool_decide_unpack _). vm_compute. exact I.
  - vm_compute. apply list_elem_of_further, list_elem_of_here.
  - reflexivity.
  - discriminate.
Defined.

(** The song of that file is stored, and a play of it finds nothing. *)
Example renamed_artist_sample :
  exists cur',
    process_song_file fs_featuring sample_songs_loaded
      (sample.cwd ++ sample.song_path ++ ["c.json"]) = Ok cur'
    /\ map Song.song_id (songs cur')
       = ["SOID2             "; "SOID1             "; "SOID3             "]
    /\ map Artist.artist_name (artists cur') = ["B"; "A"]
    /\ song_select cur' (Event.song play3) (Event.artist play3)
         (Event.length play3) = [].
Proof. eexists. vm_compute. auto. Qed.

(** ** Which files are found *)





(** On the sample tree: the file in the subdirectory [A] comes after the
    file of the root itself, which [os.walk] visits first. *)
Example all_files_sample :
  all_files sample.fs_songs sample.cwd sample.song_path
  = [sample.cwd ++ sample.song_path ++ ["b.json"];
     sample.cwd ++ sample.song_path ++ ["A"; "a.json"]].
Proof. reflexivity. Qed.

(** ** Running the program twice *)

(** Whether a play is accepted, and the row it gives, depend on the
    songs and artists tables only. *)
Lemma for_each_insert_songplay_rel (rows : list (Event.t * pd.Timestamp)) :
  forall c c' : db,
    songs c' = songs c -> artists c' = artists c ->
    (exists c1 c1' plays,
        for_each insert_songplay c rows = Ok c1
        /\ for_each insert_songplay c' rows = Ok c1'
        /\ songs c1 = songs c /\ artists c1 = artists c
        /\ users c1 = users c /\ time c1 = time c
        /\ songplays c1 = songplays c ++ plays
        /\ songs c1' = songs c' /\ artists c1' = artists c'
        /\ users c1' = users c' /\ time c1' = time c'
        /\ songplays c1' = songplays c' ++ plays)
    \/ (exists e, for_each insert_songplay c rows = Err e
                  /\ for_each insert_songplay c' rows = Err e).
Proof.
  induction rows as [|[e t] rows IH]; intros c c' Hs Ha.
  - left. exists c, c', []. cbn [for_each]. rewrite !app_nil_r. auto 15.
  - cbn [for_each].
    destruct (insert_songplay_ext c c' (e, t) Hs Ha)
      as [(err & -> & ->)|[-> ->]]; cbn [mbind result_bind fst snd].
    + right. exists err. auto.
    + set (c1 := mkdb (songs c) (artists c) (users c) (time c)
                      (songplays c ++ [songplay_data c e t])).
      set (c1' := mkdb (songs c') (artists c') (users c') (time c')
                       (songplays c' ++ [songplay_data c e t])).
      destruct (IH c1 c1' Hs Ha)
        as [(c2 & c2' & plays & R & R' & A1 & A2 & A3 & A4 & A5
             & B1 & B2 & B3 & B4 & B5)|(err & R & R')].
      * left. exists c2, c2', (songplay_data c e t :: plays).
        rewrite A5, B5. subst c1 c1'. cbn [songplays].
        rewrite <- !app_assoc. cbn [app]. auto 15.
      * right. exists err. auto.
Qed.

(** Whether a log file is processed, and what it does, depend on the
    songs and artists tables only. *)
Lemma process_log_file_rel (fs : node) (f : path) (d d' : db) :
  songs d' = songs d -> artists d' = artists d ->
  (exists d1 d1' urows trows plays,
      process_log_file fs d f = Ok d1
      /\ process_log_file fs d' f = Ok d1'
      /\ log_effect d d1 urows trows plays
      /\ log_effect d' d1' urows trows plays)
  \/ (exists e, process_log_file fs d f = Err e
                /\ process_log_file fs d' f = Err e).
Proof.
  intros Hs Ha. unfold process_log_file.
  destruct (read_json fs f) as [[recs|[|e0 es]]|err];
    cbn [mbind result_bind]; try (right; eexists; split; reflexivity).
  fold (next_song (e0 :: es)).
  destruct (traverse (fun e => pd.to_datetime (Event.ts e))
                     (next_song (e0 :: es))) as [tss|err];
    cbn [mbind result_bind]; [|right; eexists; split; reflexivity].
  set (df := next_song (e0 :: es)).
  destruct (fold_time_table_insert_frame (time_df tss) d)
    as (T1 & T2 & T3 & T4).
  destruct (fold_time_table_insert_frame (time_df tss) d')
    as (T1' & T2' & T3' & T4').
  set (c := fold_left time_table_insert (time_df tss) d) in *.
  set (c' := fold_left time_table_insert (time_df tss) d') in *.
  destruct (for_each insert_user c (user_df df)) as [c2|err] eqn:Hu.
  2:{ rewrite (for_each_insert_user_Err _ _ c c' Hu).
      right. exists err. split; reflexivity. }
  apply for_each_insert_user_Ok in Hu. destruct Hu as [Hty ->].
  rewrite (for_each_insert_user (user_df df) c' Hty).
  cbn [mbind result_bind].
  destruct (fold_user_table_insert_frame (map stored_user (user_df df)) c)
    as (U1 & U2 & U3 & U4).
  destruct (fold_user_table_insert_frame (map stored_user (user_df df)) c')
    as (U1' & U2' & U3' & U4').
  destruct (for_each_insert_songplay_rel (zip df tss)
              (fold_left user_table_insert (map stored_user (user_df df)) c)
              (fold_left user_table_insert (map stored_user (user_df df)) c'))
    as [(c1 & c1' & plays & R & R' & A1 & A2 & A3 & A4 & A5
         & B1 & B2 & B3 & B4 & B5)|(err & R & R')];
    [congruence | congruence | |right; exists err; auto].
  left. exists c1, c1', (map stored_user (user_df df)), (time_df tss), plays.
  split; [exact R|]. split; [exact R'|]. unfold log_effect. split.
  - split; [congruence|]. split; [congruence|]. split; [|split].
    + rewrite A3, fold_user_table_insert_users, T3. reflexivity.
    + rewrite A4, U3. apply fold_time_table_insert_time.
    + rewrite A5, U4, T4. reflexivity.
  - split; [congruence|]. split; [congruence|]. split; [|split].
    + rewrite B3, fold_user_table_insert_users, T3'. reflexivity.
    + rewrite B4, U3'. apply fold_time_table_insert_time.
    + rewrite B5, U4', T4'. reflexivity.
Qed.

Lemma log_effect_nil (d : db) : log_effect d d [] [] [].
Proof. unfold log_effect. rewrite app_nil_r. auto. Qed.

Lemma log_effect_app (d1 d2 d3 : db) (u1 u2 : list User.t)
    (t1 t2 : list Time.t) (p1 p2 : list SongPlay.t) :
  log_effect d1 d2 u1 t1 p1 -> log_effect d2 d3 u2 t2 p2 ->
  log_effect d1 d3 (u1 ++ u2) (t1 ++ t2) (p1 ++ p2).
Proof.
  intros (A1 & A2 & A3 & A4 & A5) (B1 & B2 & B3 & B4 & B5).
  unfold log_effect. rewrite !fold_left_app, <- A3, <- A4, app_assoc, <- A5.
  repeat split; congruence.
Qed.

(** The same for a run over log files: where it stops, and what it has
    committed by then. *)
Lemma process_files_log_rel (fs : node) (files : list path) :
  forall (n i n' i' : nat) (d d' : db),
    songs d' = songs d -> artists d' = artists d ->
    raised (process_files (process_log_file fs) n' i' files (mkconn d' d'))
    = raised (process_files (process_log_file fs) n i files (mkconn d d))
    /\ exists D D' urows trows plays,
         conn (process_files (process_log_file fs) n i files (mkconn d d))
         = mkconn D D
         /\ conn (process_files (process_log_file fs) n' i' files
                    (mkconn d' d')) = mkconn D' D'
         /\ log_effect d D urows trows plays
         /\ log_effect d' D' urows trows plays.
Proof.
  induction files as [|f files IH]; intros n i n' i' d d' Hs Ha;
    cbn [process_files cursor committed].
  - split; [reflexivity|]. exists d, d', [], [], [].
    cbn [conn]. auto using log_effect_nil.
  - destruct (process_log_file_rel fs f d d' Hs Ha)
      as [(d1 & d1' & u1 & t1 & p1 & -> & -> & E & E')|(e & -> & ->)].
    + cbn [raised conn].
      destruct E as (E1 & E2 & E345). destruct E' as (E1' & E2' & E345').
      destruct (IH n (S i) n' (S i') d1 d1') as (Hr & D & D' & u2 & t2 & p2
                                                  & Hc & Hc' & F & F');
        [congruence | congruence |].
      split; [exact Hr|].
      exists D, D', (u1 ++ u2), (t1 ++ t2), (p1 ++ p2).
      split; [exact Hc|]. split; [exact Hc'|].
      split; eapply log_effect_app; try eassumption;
        unfold log_effect; auto.
    + cbn [raised conn]. split; [reflexivity|].
      exists d, d', [], [], []. auto using log_effect_nil.
Qed.

(** Where a run over song files stops does not depend on the
    database. *)
Lemma process_files_song_raised (fs : node) (files : list path) :
  forall (n i n' i' : nat) (d d' : db),
    raised (process_files (process_song_file fs) n' i' files (mkconn d' d'))
    = raised (process_files (process_song_file fs) n i files (mkconn d d)).
Proof.
  induction files as [|f files IH]; intros n i n' i' d d';
    cbn [process_files cursor committed]; [reflexivity|].
  destruct (process_song_file_cases fs f) as [[e He]|[r Hr]].
  - rewrite !He. reflexivity.
  - rewrite !Hr. cbn [raised]. apply IH.
Qed.

(** X15: running the program a second time, on the database the first
    run committed and over the same files.  The second run stops where
    the first stopped (or, like it, not at all); it leaves songs,
    artists, users and time as the first run left them; and it stores
    once more every songplays row that the first run stored. *)
Theorem main_twice_duplicates_plays (fs : node) (cwd : path) (d : db) :
  let r1 := main fs cwd d in
  let r2 := main fs cwd (committed (conn r1)) in
  raised r2 = raised r1
  /\ songs (committed (conn r2)) = songs (committed (conn r1))
  /\ artists (committed (conn r2)) = artists (committed (conn r1))
  /\ users (committed (conn r2)) = users (committed (conn r1))
  /\ time (committed (conn r2)) = time (committed (conn r1))
  /\ exists plays,
       songplays (committed (conn r1)) = songplays d ++ plays
       /\ songplays (committed (conn r2)) = songplays d ++ plays ++ plays.
Proof.
  intros r1 r2. subst r1 r2. unfold main, process_data, connect.
  cbn [raised conn].
  set (sf := all_files fs cwd ["data"; "song_data"]).
  set (lf := all_files fs cwd ["data"; "log_data"]).
  set (s1 := process_files (process_song_file fs) (length sf) 1 sf (mkconn d d)).
  destruct (process_files_invariant (process_song_file fs) (fun _ => True)
              (fun _ _ _ _ _ => I) sf (length sf) 1%nat d I)
    as (Ds & Hcs & _ & _).
  fold s1 in Hcs.
  pose proof (process_files_song_frame fs (length sf) sf 1 d) as Hsf.
  cbv zeta in Hsf. fold s1 in Hsf. rewrite Hcs in Hsf. cbn [committed] in Hsf.
  destruct Hsf as (_ & _ & _ & _ & _ & _ & Hsp).
  destruct (raised s1) as [e|] eqn:Hr1.
  - cbn [conn]. rewrite Hcs. cbn [committed].
    set (s2 := process_files (process_song_file fs) (length sf) 1 sf
                 (mkconn Ds Ds)).
    assert (Hc2 : conn s2 = mkconn Ds Ds).
    { apply (process_files_again fs sf (length sf) 1%nat (length sf) 1%nat d).
      fold s1. rewrite Hcs. apply keys_in_refl. }
    assert (Hr2 : raised s2 = Some e).
    { unfold s2.
      rewrite (process_files_song_raised fs sf (length sf) 1%nat
                 (length sf) 1%nat d Ds).
      exact Hr1. }
    rewrite Hr2. cbn [raised conn]. rewrite Hc2. cbn [committed].
    repeat split; try reflexivity. exists []. rewrite Hsp, !app_nil_r.
    split; reflexivity.
  - cbn [conn raised]. rewrite Hcs.
    set (l1 := process_files (process_log_file fs) (length lf) 1 lf
                 (mkconn Ds Ds)).
    destruct (process_files_log_rel fs lf (length lf) 1%nat (length lf) 1%nat
                Ds Ds eq_refl eq_refl)
      as (_ & D1 & _ & u & t & p & Hc1 & _ & E1 & _).
    fold l1 in Hc1. rewrite Hc1. cbn [committed].
    destruct E1 as (E1 & E2 & E3 & E4 & E5).
    set (s2 := process_files (process_song_file fs) (length sf) 1 sf
                 (mkconn D1 D1)).
    assert (Hc2 : conn s2 = mkconn D1 D1).
    { apply (process_files_again fs sf (length sf) 1%nat (length sf) 1%nat d).
      fold s1. rewrite Hcs. cbn [committed]. unfold keys_in.
      rewrite E1, E2. auto. }
    assert (Hr2 : raised s2 = None).
    { unfold s2.
      rewrite (process_files_song_raised fs sf (length sf) 1%nat
                 (length sf) 1%nat d D1).
      exact Hr1. }
    rewrite Hr2. cbn [raised conn]. rewrite Hc2.
    destruct (process_files_log_rel fs lf (length lf) 1%nat (length lf) 1%nat
                Ds D1 E1 E2)
      as (Hr & D1' & D2 & u' & t' & p' & Hc1' & Hc2' & F1 & F2).
    fold l1 in Hr, Hc1'. rewrite Hc1 in Hc1'. inversion Hc1'; subst D1'.
    rewrite Hc2'. cbn [committed].
    destruct F1 as (F1 & F2' & F3 & F4 & F5).
    destruct F2 as (G1 & G2 & G3 & G4 & G5).
    split; [exact Hr|]. split; [exact G1|]. split; [exact G2|].
    split; [rewrite G3, F3; apply fold_upsert_user_again|].
    split; [rewrite G4, F4; apply fold_time_insert_again|].
    exists p'. rewrite G5, F5, Hsp, <- app_assoc. split; reflexivity.
Qed.

(** ** The ranges of the time columns *)

Lemma days_in_month_max (y m : Z) : calendar.days_in_month y m <= 31.
Proof.
  unfold calendar.days_in_month.
  destruct (m =? 2); [destruct (calendar.is_leap y); lia|].
  destruct ((m =? 4) || (m =? 6) || (m =? 9) || (m =? 11)); lia.
Qed.

Lemma dayofweek_ymd_range (y m d : Z) : 0 <= pd.dayofweek_ymd y m d <= 6.
Proof.
  unfold pd.dayofweek_ymd. cbv zeta.
  match goal with |- 0 <= ?a mod 7 <= 6 =>
    pose proof (Z.mod_pos_bound a 7 ltac:(lia)) end.
  lia.
Qed.

Lemma get_week_of_year_range (y m d : Z) :
  calendar.valid_date y m d -> 1 <= pd.get_week_of_year y m d <= 53.
Proof.
  intros Hv.
  pose proof (day_of_year_bounds y m d Hv) as Hdoy.
  rewrite <- (get_day_of_year_spec y m d) in Hdoy by apply Hv.
  pose proof (dayofweek_ymd_range y m d) as Hdow.
  assert (Hd : 1 <= pd.get_day_of_year y m d <= 366)
    by (destruct (calendar.is_leap y); lia).
  clear Hdoy. unfold pd.get_week_of_year. cbv zeta.
  generalize dependent (pd.get_day_of_year y m d). intros doy Hd.
  generalize dependent (pd.dayofweek_ymd y m d). intros dow Hdow.
  destruct (Z.leb_spec 0 (doy - 1 - dow + 3)) as [Hest|Hest].
  - destruct (Z.ltb_spec (((doy - 1 - dow + 3) / 7) + 1) 0) as [Hneg|Hpos].
    + exfalso. divmod.
    + destruct (Z.eqb_spec (((doy - 1 - dow + 3) / 7) + 1) 53) as [H53|H53].
      * destruct (31 - d + dow <? 3); lia.
      * divmod.
  - destruct (Z.ltb_spec (doy - 1 - dow + 3) 0) as [Hneg|Hpos]; [|lia].
    destruct ((-2 <? doy - 1 - dow + 3)
              || ((doy - 1 - dow + 3 =? -2) && pd.is_leapyear (y - 1))); lia.
Qed.

(** X16: the six derived columns of a time row, for any instant at all:
    [hour] lies in 0..23, [day] in 1..31, [week] in 1..53, [month] in
    1..12 and [weekday] in 0..6. *)
Theorem time_row_field_ranges (t : pd.Timestamp) :
  0 <= Time.hour (time_row t) <= 23
  /\ 1 <= Time.day (time_row t) <= 31
  /\ 1 <= Time.week (time_row t) <= 53
  /\ 1 <= Time.month (time_row t) <= 12
  /\ 0 <= Time.weekday (time_row t) <= 6.
Proof.
  cbn [time_row Time.hour Time.day Time.week Time.month Time.weekday].
  destruct (civil_from_days_spec (pd.days t)) as [Hv _].
  fold (pd.year t) in Hv. fold (pd.month t) in Hv. fold (pd.day t) in Hv.
  pose proof (days_in_month_max (pd.year t) (pd.month t)) as Hmax.
  destruct Hv as [Hm Hd].
  split; [|split; [|split; [|split]]].
  - unfold pd.hour, pd.ms_per_day, pd.ms_per_hour. divmod.
  - lia.
  - apply get_week_of_year_range. split; assumption.
  - exact Hm.
  - apply dayofweek_ymd_range.
Qed.
